(** * Cast reconciliation of emby-toolkit: a shallow embedding of
      [core_processor.py] and the properties of its pipeline.

    The Python code works on JSON-like dictionaries.  Values are embedded as
    the inductive [PyVal]; a record dictionary (an actor, a configuration, a
    database row turned into a dict) is a [gmap string PyVal]; dictionaries
    whose iteration order is observable ([aggregated_cast_map],
    [final_cast_map]) are insertion-ordered association lists.  Exceptions
    are the [Raise] branch of [result]; database and network collaborators
    are functions on an abstract world that the pipeline threads through a
    small state-and-exception monad which also records every call made. *)

From Stdlib Require Import ZArith QArith Ascii String.
From stdpp Require Import gmap strings list pretty sorting.

Set Warnings "-register-all".
Open Scope Z_scope.

(** ** Python values *)

Inductive PyVal : Type :=
| VNone
| VBool (b : bool)
| VInt (z : Z)
| VFloat (q : Q)
| VStr (s : string)
| VList (l : list PyVal)
| VDict (d : gmap string PyVal).

Abbreviation PyDict := (gmap string PyVal).

(** Exceptions the code raises or handles.  [InterruptedError], [ValueError],
    [TypeError], [AttributeError], [KeyError] and [sqlite3.Error] are all
    subclasses of [Exception]; [OtherError] stands for any other subclass. *)
Inductive exn : Type :=
| InterruptedError
| ValueError
| TypeError
| AttributeError
| KeyError
| SqliteError
| OtherError (msg : string).

Inductive result (A : Type) : Type :=
| Ok (a : A)
| Raise (e : exn).
Arguments Ok {A} a.
Arguments Raise {A} e.

Definition rbind {A B} (r : result A) (k : A → result B) : result B :=
  match r with
  | Ok a => k a
  | Raise e => Raise e
  end.

Notation "'let?' x ':=' m 'in' k" := (rbind m (fun x => k))
  (at level 10, x name, m at level 100, k at level 200).

(** Truth value of an object, as [if x:] and [x or y] test it. *)
Definition py_truthy (v : PyVal) : bool :=
  match v with
  | VNone => false
  | VBool b => b
  | VInt z => negb (z =? 0)
  | VFloat q => negb (Qeq_bool q 0)
  | VStr s => negb (String.eqb s "")
  | VList l => negb (bool_decide (length l = 0%nat))
  | VDict d => negb (bool_decide (size d = 0%nat))
  end.

(** [d.get(k)]: a missing key reads as [None]. *)
Definition py_get (d : PyDict) (k : string) : PyVal :=
  default VNone (d !! k).

(** [k in d]. *)
Definition py_in (k : string) (d : PyDict) : bool :=
  bool_decide (is_Some (d !! k)).

(** [v.get(k)] on a value that has to be a dict: any other object has no
    [get] attribute. *)
Definition as_dict (v : PyVal) : result PyDict :=
  match v with
  | VDict d => Ok d
  | _ => Raise AttributeError
  end.

(** The numeric value of [int], [bool] and [float] objects. *)
Definition num_of (v : PyVal) : option Q :=
  match v with
  | VBool b => Some (inject_Z (if b then 1 else 0))
  | VInt z => Some (inject_Z z)
  | VFloat q => Some q
  | _ => None
  end.

(** Dictionary keys: numbers that compare equal are one key ([1 == True ==
    1.0]); lists and dicts are unhashable. *)
Inductive Key : Type :=
| KNone
| KNum (q : Q)
| KStr (s : string).

#[global] Instance Q_eq_dec : EqDecision Q.
Proof. solve_decision. Defined.
#[global] Instance Key_eq_dec : EqDecision Key.
Proof. solve_decision. Defined.

Definition hash_key (v : PyVal) : result Key :=
  match v with
  | VNone => Ok KNone
  | VStr s => Ok (KStr s)
  | VList _ | VDict _ => Raise TypeError
  | _ => match num_of v with
         | Some q => Ok (KNum (Qred q))
         | None => Raise TypeError
         end
  end.

(** ** Insertion-ordered dictionaries

    [d[k] = v] overwrites the value of a key already present and keeps its
    position, and appends a new key at the end; [list(d.values())] follows
    that order. *)
Section ODict.
Context {K V : Type} `{EqDecision K}.

Fixpoint od_set (k : K) (v : V) (d : list (K * V)) : list (K * V) :=
  match d with
  | [] => [(k, v)]
  | (k', v') :: d' =>
      if decide (k' = k) then (k, v) :: d' else (k', v') :: od_set k v d'
  end.

Fixpoint od_get (k : K) (d : list (K * V)) : option V :=
  match d with
  | [] => None
  | (k', v') :: d' => if decide (k' = k) then Some v' else od_get k d'
  end.

Definition od_mem (k : K) (d : list (K * V)) : bool :=
  bool_decide (is_Some (od_get k d)).

Definition od_values (d : list (K * V)) : list V := d.*2.
Definition od_keys (d : list (K * V)) : list K := d.*1.
End ODict.

(** ** Comparison of objects

    [a == b] on the values of JSON: numbers are compared by value
    ([1 == 1.0 == True]), lists element by element, dictionaries key by
    key; objects of different kinds are unequal. *)
Fixpoint py_eq (a : PyVal) : PyVal → bool :=
  match a with
  | VNone => fun b => match b with VNone => true | _ => false end
  | VStr s => fun b => match b with VStr t => String.eqb s t | _ => false end
  | VList l =>
      fun b =>
        match b with
        | VList l' =>
            (fix go (l l' : list PyVal) : bool :=
               match l, l' with
               | [], [] => true
               | x :: r, y :: r' => py_eq x y && go r r'
               | _, _ => false
               end) l l'
        | _ => false
        end
  | VDict d =>
      fun b =>
        match b with
        | VDict d' =>
            bool_decide (size d = size d')
            && map_fold (fun k v acc =>
                           acc && match d' !! k with
                                  | Some v' => py_eq v v'
                                  | None => false
                                  end) true d
        | _ => false
        end
  | VBool _ | VInt _ | VFloat _ =>
      fun b =>
        match num_of a, num_of b with
        | Some x, Some y => Qeq_bool x y
        | _, _ => false
        end
  end.

(** [a < b]: numbers are ordered by value, strings by their characters
    (the order of the code points is that of the bytes of the text), lists
    by their first unequal elements, a list that is the beginning of
    another coming first; [None], dictionaries and objects of two
    different kinds have no order, and comparing them is a [TypeError]. *)
Fixpoint py_lt (a : PyVal) : PyVal → result bool :=
  match a with
  | VStr s =>
      fun b =>
        match b with
        | VStr t => Ok (String.ltb s t)
        | _ => Raise TypeError
        end
  | VList l =>
      fun b =>
        match b with
        | VList l' =>
            (fix go (l l' : list PyVal) : result bool :=
               match l, l' with
               | [], [] => Ok false
               | [], _ :: _ => Ok true
               | _ :: _, [] => Ok false
               | x :: r, y :: r' => if py_eq x y then go r r' else py_lt x y
               end) l l'
        | _ => Raise TypeError
        end
  | VBool _ | VInt _ | VFloat _ =>
      fun b =>
        match num_of a, num_of b with
        | Some x, Some y => Ok (negb (Qle_bool y x))
        | _, _ => Raise TypeError
        end
  | VNone | VDict _ => fun _ => Raise TypeError
  end.

Definition py_ltb (a b : PyVal) : bool :=
  match py_lt a b with
  | Ok true => true
  | _ => false
  end.

Definition comparable (a b : PyVal) : bool :=
  match py_lt a b with
  | Ok _ => true
  | Raise _ => false
  end.

(** Any two of the keys, taken at two places of the list, can be
    compared. *)
Fixpoint all_comparable (ks : list PyVal) : bool :=
  match ks with
  | [] => true
  | k :: rest =>
      forallb (fun k' => comparable k k' && comparable k' k) rest
      && all_comparable rest
  end.

(** ** [list.sort(key=...)]

    Python's sort is stable: on keys that can be compared it gives the
    list that the insertion sort below gives, which places an element
    before the first later element whose key is not smaller. *)
Section Sort.
Context {A : Type} (lt : A → A → bool).

Fixpoint insert_by (x : A) (l : list A) : list A :=
  match l with
  | [] => [x]
  | y :: l' =>
      if lt y x then y :: insert_by x l' else x :: l
  end.

Definition sort_by (l : list A) : list A := foldr insert_by [] l.
End Sort.

(** Loops whose body can raise. *)
Fixpoint rfoldl {A B} (f : A → B → result A) (a : A) (l : list B) : result A :=
  match l with
  | [] => Ok a
  | x :: l' => rbind (f a x) (fun a' => rfoldl f a' l')
  end.

Fixpoint rmap {A B} (f : A → result B) (l : list A) : result (list B) :=
  match l with
  | [] => Ok []
  | x :: l' => rbind (f x) (fun y => rbind (rmap f l') (fun ys => Ok (y :: ys)))
  end.


(** ** Series cast aggregation ([_aggregate_series_cast_from_tmdb_data]) *)

(** [d.get("credits", {})], on which [.get] is then called. *)
Definition credits_of (d : PyDict) : result PyDict :=
  match d !! "credits" with
  | None => Ok ∅
  | Some v => as_dict v
  end.

(** [credits.get(k, [])], used as a list (iterated, or concatenated with a
    list).  The credit lists are taken to be JSON arrays, as the provider
    and the builders of this file write them; for an object of another kind
    there, which the code would try to concatenate or to iterate, the model
    stops with a [TypeError]. *)
Definition credit_list (credits : PyDict) (k : string) : result (list PyVal) :=
  match credits !! k with
  | None => Ok []
  | Some (VList l) => Ok l
  | Some _ => Raise TypeError
  end.

Abbreviation cast_map := (list (Key * PyDict)).

(** Body of the loop over the series' own cast. *)
Definition add_main_actor (m : cast_map) (a : PyVal) : result cast_map :=
  let? actor := as_dict a in
  let actor_id := py_get actor "id" in
  if py_truthy actor_id then
    let? k := hash_key actor_id in
    Ok (od_set k actor m)
  else Ok m.

(** [if 'order' not in actor: actor['order'] = 999]. *)
Definition with_order_default (actor : PyDict) : PyDict :=
  if py_in "order" actor then actor else <["order" := VInt 999]> actor.

(** Body of the loop over the cast and guest stars of one episode. *)
Definition add_episode_actor (m : cast_map) (a : PyVal) : result cast_map :=
  let? actor := as_dict a in
  let actor_id := py_get actor "id" in
  if py_truthy actor_id then
    let? k := hash_key actor_id in
    if od_mem k m then Ok m
    else Ok (od_set k (with_order_default actor) m)
  else Ok m.

Definition episode_actors (episode_data : PyDict) : result (list PyVal) :=
  let? credits_data := credits_of episode_data in
  let? cast := credit_list credits_data "cast" in
  let? guest_stars := credit_list credits_data "guest_stars" in
  Ok (cast ++ guest_stars).

Definition add_episode (m : cast_map) (episode_data : PyDict) : result cast_map :=
  let? actors_to_process := episode_actors episode_data in
  rfoldl add_episode_actor m actors_to_process.

(** [x.get('order', 999)], the sort key of the aggregation. *)
Definition order_key (x : PyDict) : result PyVal :=
  Ok (default (VInt 999) (x !! "order")).

(** [l.sort(key=f)]: the keys of all elements are computed first, then
    the elements are ordered by [<] on their keys.  No comparison takes
    place on fewer than two elements.  On two elements or more the sort
    cannot order the list without comparing, directly, two keys that follow
    each other in the order, so that it raises the [TypeError] of the
    comparison as soon as two of the keys cannot be compared: a key that is
    [None] or a dictionary, a number among strings, a list among
    numbers. *)
Definition py_sort_by {A} (f : A → result PyVal) (l : list A) : result (list A) :=
  let? ks := rmap f l in
  if all_comparable ks then
    Ok ((sort_by (fun x y => py_ltb x.1 y.1) (zip ks l)).*2)
  else Raise TypeError.

Definition main_cast_of (series_data : PyDict) : result (list PyVal) :=
  let? credits := credits_of series_data in
  credit_list credits "cast".

Definition aggregated_cast_map_of (series_data : PyDict)
    (all_episodes_data : list PyDict) : result cast_map :=
  let? main_cast := main_cast_of series_data in
  let? m := rfoldl add_main_actor [] main_cast in
  rfoldl add_episode m all_episodes_data.

Definition _aggregate_series_cast_from_tmdb_data (series_data : PyDict)
    (all_episodes_data : list PyDict) : result (list PyDict) :=
  let? aggregated_cast_map := aggregated_cast_map_of series_data all_episodes_data in
  py_sort_by order_key (od_values aggregated_cast_map).

(** ** Collaborators

    Every call the pipeline makes to the identity store, the translation
    cache, the regional provider, the primary provider, the translator or the
    media server is recorded as an [Event]. *)
Inductive Event : Type :=
| EvFindByDoubanId (douban_id : PyVal)
| EvFindByImdbId (imdb_id : PyVal)
| EvActorMetadata (tmdb_id : string)
| EvCelebrityDetails (douban_id : PyVal)
| EvFindPersonByExternalId (imdb_id : PyVal)
| EvUpsertPerson (row : PyDict)
| EvGetTranslation (text : PyVal)
| EvBatchTranslate (texts : list PyVal) (mode : PyVal)
| EvSaveTranslation (original : string) (translated : PyVal)
| EvEnrichCast
| EvGetMovieDetails
| EvAggregateFullSeries
| EvGetDoubanData
| EvUpdateEmbyItemCast (cast : list PyDict)
| EvBatchUpdateEpisodes
| EvRefreshEmbyItem
| EvSaveToFailedLog (reason : string)
| EvSaveToProcessedLog
| EvRemoveFromFailedLog
| EvCommit.

(** A row fetched from the database ([sqlite3.Row]): columns in order.
    [row[c]] fails on an unknown column; [x in row] ranges over the values of
    the row, as for any sequence. *)
Abbreviation Row := (list (string * PyVal)).

Definition row_get (r : Row) (c : string) : result PyVal :=
  match od_get c r with
  | Some v => Ok v
  | None => Raise (OtherError "IndexError")
  end.

Definition row_contains (s : string) (r : Row) : bool :=
  existsb (fun cv => match cv.2 with VStr t => String.eqb t s | _ => false end) r.

(** [dict(row)]: of two columns of the same name the first is read. *)
Definition dict_of_row (r : Row) : PyDict := list_to_map r.

(** What the code takes from outside [core_processor.py]: Python built-ins
    on strings, the [constants], [utils] and [actor_utils] modules, the stop
    event, and the database and network calls, which act on a world [W]. *)
Record Collaborators (W : Type) : Type := {
  (* str.lower, str.strip, repr of containers and floats, int(str), float(str) *)
  py_lower : string → string;
  py_strip : string → string;
  py_repr : PyVal → string;
  int_of_str : string → option Z;
  float_of_str : string → option Q;
  (* constants *)
  CONFIG_OPTION_MAX_ACTORS_TO_PROCESS : string;
  CONFIG_OPTION_AI_TRANSLATION_ENABLED : string;
  CONFIG_OPTION_AI_TRANSLATION_MODE : string;
  DEFAULT_MIN_SCORE_FOR_REVIEW : PyVal;
  (* utils, actor_utils *)
  format_douban_cast : list PyDict → list PyDict;
  clean_character_name_static : PyVal → string;
  select_best_role : PyVal → string → PyVal;
  contains_chinese : PyVal → result bool;
  format_and_complete_cast_list : list PyDict → bool → PyDict → list PyDict;
  evaluate_cast_processing_quality : list PyDict → nat → nat → bool → Q;
  (* threading.Event.is_set on the stop event *)
  stop_event_is_set : W → bool;
  (* person_identity_map and ActorMetadata queries: execute, then fetchone *)
  select_person_by_douban_id : PyVal → W → W * result (option Row);
  select_person_by_imdb_id : PyVal → W → W * result (option Row);
  select_actor_metadata : string → W → W * result (option Row);
  (* ActorDBManager *)
  upsert_person : PyDict → W → W * result unit;
  get_translation_from_db : PyVal → W → W * result PyVal;
  save_translation_to_db : string → PyVal → PyVal → W → W * result unit;
  (* DoubanApi, tmdb_handler, AITranslator *)
  celebrity_details : PyVal → W → W * result PyVal;
  find_person_by_external_id : PyVal → PyVal → W → W * result PyVal;
  batch_translate :
    list PyVal → PyVal → PyVal → PyVal → W → W * result (list (string * PyVal));
  (* used by the session only *)
  enrich_cast_from_db_and_api : PyVal → W → W * result (list PyDict);
  get_movie_details : PyVal → PyVal → W → W * result PyVal;
  aggregate_full_series_data_from_tmdb :
    Z → PyVal → W → W * result (option (PyDict * list PyDict));
  get_douban_data_with_local_cache : PyDict → W → W * result (list PyDict);
  update_emby_item_cast : PyVal → list PyDict → W → W * result bool;
  batch_update_episodes_cast : PyVal → list PyDict → W → W * result unit;
  refresh_emby_item_metadata : PyVal → W → W * result unit;
  save_to_failed_log : PyVal → string → W → W * result unit;
  save_to_processed_log : PyVal → W → W * result unit;
  remove_from_failed_log : PyVal → W → W * result unit;
  commit : W → W * result unit;
}.
Arguments py_lower {W} _. Arguments py_strip {W} _. Arguments py_repr {W} _.
Arguments int_of_str {W} _. Arguments float_of_str {W} _.
Arguments CONFIG_OPTION_MAX_ACTORS_TO_PROCESS {W} _.
Arguments CONFIG_OPTION_AI_TRANSLATION_ENABLED {W} _.
Arguments CONFIG_OPTION_AI_TRANSLATION_MODE {W} _.
Arguments DEFAULT_MIN_SCORE_FOR_REVIEW {W} _.
Arguments format_douban_cast {W} _. Arguments clean_character_name_static {W} _.
Arguments select_best_role {W} _. Arguments contains_chinese {W} _.
Arguments format_and_complete_cast_list {W} _.
Arguments evaluate_cast_processing_quality {W} _.
Arguments stop_event_is_set {W} _.
Arguments select_person_by_douban_id {W} _.
Arguments select_person_by_imdb_id {W} _.
Arguments select_actor_metadata {W} _. Arguments upsert_person {W} _.
Arguments get_translation_from_db {W} _. Arguments save_translation_to_db {W} _.
Arguments celebrity_details {W} _. Arguments find_person_by_external_id {W} _.
Arguments batch_translate {W} _. Arguments enrich_cast_from_db_and_api {W} _.
Arguments get_movie_details {W} _.
Arguments aggregate_full_series_data_from_tmdb {W} _.
Arguments get_douban_data_with_local_cache {W} _.
Arguments update_emby_item_cast {W} _. Arguments batch_update_episodes_cast {W} _.
Arguments refresh_emby_item_metadata {W} _. Arguments save_to_failed_log {W} _.
Arguments save_to_processed_log {W} _. Arguments remove_from_failed_log {W} _.
Arguments commit {W} _.

(** The fields of [MediaProcessor] the pipeline reads. *)
Record MediaProcessor : Type := {
  config : PyDict;
  douban_api : bool;            (* [self.douban_api] is set *)
  tmdb_api_key : PyVal;
  ai_translator : option PyVal; (* the translator's [provider], when set *)
}.

(** ** The state-and-exception monad of the pipeline

    A computation runs from a state (the world and the calls made so far,
    most recent first) to a new state and a value or a raised exception. *)
Record St (W : Type) : Type := mkSt { world : W; trace : list Event }.
Arguments mkSt {W} _ _. Arguments world {W} _. Arguments trace {W} _.

Definition M (W : Type) (A : Type) : Type := St W → St W * result A.

Definition sret {W A} (a : A) : M W A := fun s => (s, Ok a).
Definition sbind {W A B} (m : M W A) (k : A → M W B) : M W B :=
  fun s => match m s with
           | (s', Ok a) => k a s'
           | (s', Raise e) => (s', Raise e)
           end.
Definition sraise {W A} (e : exn) : M W A := fun s => (s, Raise e).
Definition lift {W A} (r : result A) : M W A := fun s => (s, r).

Notation "'let*' x ':=' m 'in' k" := (sbind m (fun x => k))
  (at level 10, x name, m at level 100, k at level 200).
Notation "'let*' ' p ':=' m 'in' k" :=
  (sbind m (fun x => match x with p => k end))
  (at level 10, p pattern, m at level 100, k at level 200).
Notation "m ;;; k" := (sbind m (fun _ => k))
  (at level 100, k at level 200, right associativity).

(** A call to a collaborator, recorded in the trace. *)
Definition call {W A} (ev : Event) (f : W → W * result A) : M W A :=
  fun s => let '(w, r) := f (world s) in (mkSt w (ev :: trace s), r).

(** [try: m except <classes>: h]. *)
Definition try_except {W A} (m : M W A) (catches : exn → bool) (h : exn → M W A)
    : M W A :=
  fun s => match m s with
           | (s', Raise e) => if catches e then h e s' else (s', Raise e)
           | r => r
           end.

Fixpoint sfoldl {W A B} (f : A → B → M W A) (a : A) (l : list B) : M W A :=
  match l with
  | [] => sret a
  | x :: l' => sbind (f a x) (fun a' => sfoldl f a' l')
  end.

(** ** The reconciliation pipeline ([MediaProcessor._process_cast_list_from_api]) *)
Section Pipeline.
Context {W : Type} (E : Collaborators W) (self : MediaProcessor).

(** [str(v)]. *)
Definition py_str (v : PyVal) : string :=
  match v with
  | VNone => "None"
  | VBool true => "True"
  | VBool false => "False"
  | VInt z => pretty z
  | VStr s => s
  | _ => py_repr E v
  end.

(** [int(v)]: [ValueError] on a string that is no integer literal,
    [TypeError] on [None] and on containers. *)
Definition py_int (v : PyVal) : result Z :=
  match v with
  | VInt z => Ok z
  | VBool b => Ok (if b then 1 else 0)
  | VFloat q => Ok (Z.quot (Qnum q) (Z.pos (Qden q)))
  | VStr s => match int_of_str E s with
              | Some z => Ok z
              | None => Raise ValueError
              end
  | _ => Raise TypeError
  end.

(** The cap on the cast size, as both places of the pipeline compute it:
    [[
      limit = self.config.get(constants.CONFIG_OPTION_MAX_ACTORS_TO_PROCESS, 30)
      try:
          limit = int(limit)
          if limit <= 0: limit = 30
      except (ValueError, TypeError):
          limit = 30
    ]] *)
Definition max_actors_limit : result Z :=
  let limit :=
    default (VInt 30) (config self !! CONFIG_OPTION_MAX_ACTORS_TO_PROCESS E) in
  match py_int limit with
  | Ok limit => if limit <=? 0 then Ok 30 else Ok limit
  | Raise ValueError | Raise TypeError => Ok 30
  | Raise e => Raise e
  end.

(** *** Data adaptation *)

(** [person.get("ProviderIds", {}).get("Tmdb")]. *)
Definition provider_tmdb (person : PyDict) : result PyVal :=
  let? ids := match person !! "ProviderIds" with
              | None => Ok ∅
              | Some v => as_dict v
              end in
  Ok (py_get ids "Tmdb").

(** [emby_tmdb_to_person_id_map]. *)
Definition emby_tmdb_to_person_id_map_of (emby_cast_people : list PyDict)
    : result (list (Key * PyVal)) :=
  rfoldl (fun m person =>
            let? t := provider_tmdb person in
            if py_truthy t then
              let? k := hash_key t in
              Ok (od_set k (py_get person "Id") m)
            else Ok m)
         [] emby_cast_people.

(** The TMDb id of a source record: from ["id"], else from
    [ProviderIds.Tmdb]; [None] when neither gives one. *)
Definition resolve_tmdb_id (person_data : PyDict) : result (option string) :=
  if py_in "id" person_data then
    Ok (Some (py_str (py_get person_data "id")))
  else if py_in "ProviderIds" person_data then
    let? t := provider_tmdb person_data in
    if py_truthy t then Ok (Some (py_str t)) else Ok None
  else Ok None.

(** [if not tmdb_id or tmdb_id == 'None': continue]. *)
Definition usable_tmdb_id (tmdb_id : option string) : option string :=
  match tmdb_id with
  | Some t => if String.eqb t "" || String.eqb t "None" then None else Some t
  | None => None
  end.

Definition adapt_person (emby_map : list (Key * PyVal)) (person_data : PyDict)
    : result (option PyDict) :=
  let? tmdb_id := resolve_tmdb_id person_data in
  match usable_tmdb_id tmdb_id with
  | None => Ok None
  | Some tmdb_id =>
      let e := <["emby_person_id" :=
                   default VNone (od_get (KStr tmdb_id) emby_map)]> person_data in
      let e := if py_in "id" e then e else <["id" := VStr tmdb_id]> e in
      let e := if py_in "name" e then e else <["name" := py_get e "Name"]> e in
      let e := if py_in "character" e then e
               else <["character" := py_get e "Role"]> e in
      Ok (Some e)
  end.

(** [local_cast_list]. *)
Fixpoint adapt_cast (emby_map : list (Key * PyVal)) (l : list PyDict)
    : result (list PyDict) :=
  match l with
  | [] => Ok []
  | person_data :: l' =>
      let? o := adapt_person emby_map person_data in
      let? rest := adapt_cast emby_map l' in
      Ok (match o with Some e => e :: rest | None => rest end)
  end.

(** *** Match pass A: by name *)

(** [d_actor.get(k, "").lower().strip()]. *)
Definition douban_name_key (d_actor : PyDict) (k : string) : result string :=
  match default (VStr "") (d_actor !! k) with
  | VStr s => Ok (py_strip E (py_lower E s))
  | _ => Raise AttributeError
  end.

(** [str(l_actor.get(k) or "").lower().strip()]. *)
Definition local_name_key (l_actor : PyDict) (k : string) : string :=
  let v := py_get l_actor k in
  py_strip E (py_lower E (py_str (if py_truthy v then v else VStr ""))).

Definition nonempty (s : string) : bool := negb (String.eqb s "").

Definition is_match (douban_name_zh douban_name_en : string) (l_actor : PyDict)
    : bool :=
  let local_name := local_name_key l_actor "name" in
  let local_original_name := local_name_key l_actor "original_name" in
  if nonempty douban_name_zh &&
       (String.eqb douban_name_zh local_name
        || String.eqb douban_name_zh local_original_name)
  then true
  else nonempty douban_name_en &&
         (String.eqb douban_name_en local_name
          || String.eqb douban_name_en local_original_name).

(** What a match writes into the local actor. *)
Definition merge_douban (l_actor d_actor : PyDict) : PyDict :=
  let l := <["name" := py_get d_actor "Name"]> l_actor in
  let cleaned_douban_character :=
    clean_character_name_static E (py_get d_actor "Role") in
  let l := <["character" :=
               select_best_role E (py_get l "character")
                 cleaned_douban_character]> l in
  if py_truthy (py_get d_actor "DoubanCelebrityId")
  then <["douban_id" := py_get d_actor "DoubanCelebrityId"]> l
  else l.

(** The inner loop: the first actor of the pool that matches is merged
    and popped; the result is that actor and the remaining pool. *)
Fixpoint scan_unmatched (zh en : string) (d_actor : PyDict)
    (unmatched_local_actors : list PyDict) : option (PyDict * list PyDict) :=
  match unmatched_local_actors with
  | [] => None
  | l_actor :: rest =>
      if is_match zh en l_actor then Some (merge_douban l_actor d_actor, rest)
      else match scan_unmatched zh en d_actor rest with
           | Some (m, rest') => Some (m, l_actor :: rest')
           | None => None
           end
  end.

Record PassA : Type := mkPassA {
  unmatched_local_actors : list PyDict;
  merged_actors : list PyDict;
  unmatched_douban_actors : list PyDict;
}.

(** Body of the loop over the regional candidates. *)
Definition pass_A_step (st : PassA) (d_actor : PyDict) : result PassA :=
  let? douban_name_zh := douban_name_key d_actor "Name" in
  let? douban_name_en := douban_name_key d_actor "OriginalName" in
  match scan_unmatched douban_name_zh douban_name_en d_actor
          (unmatched_local_actors st) with
  | Some (m, rest) =>
      Ok (mkPassA rest (merged_actors st ++ [m]) (unmatched_douban_actors st))
  | None =>
      Ok (mkPassA (unmatched_local_actors st) (merged_actors st)
            (unmatched_douban_actors st ++ [d_actor]))
  end.

Definition pass_A (local_cast_list douban_candidates : list PyDict)
    : result PassA :=
  rfoldl pass_A_step (mkPassA local_cast_list [] []) douban_candidates.

(** [final_cast_map], keyed by [str(actor['id'])]. *)
Abbreviation final_map := (list (string * PyDict)).

Definition final_cast_map_of (current_cast_list : list PyDict) : final_map :=
  foldl (fun m actor =>
           let id := py_get actor "id" in
           if py_truthy id && negb (String.eqb (py_str id) "None")
           then od_set (py_str id) actor m else m)
        [] current_cast_list.

(** *** Identity-store and metadata lookups *)

Definition is_stop_requested : M W bool :=
  fun s => (s, Ok (stop_event_is_set E (world s))).

(** [if self.is_stop_requested(): raise InterruptedError(...)]. *)
Definition check_stop : M W unit :=
  let* stop := is_stop_requested in
  if stop then sraise InterruptedError else sret ().

Definition is_sqlite_error (e : exn) : bool :=
  match e with SqliteError => true | _ => false end.

Definition _find_person_in_map_by_douban_id (douban_id : PyVal)
    : M W (option Row) :=
  if negb (py_truthy douban_id) then sret None
  else try_except
         (call (EvFindByDoubanId douban_id)
            (select_person_by_douban_id E douban_id))
         is_sqlite_error (fun _ => sret None).

Definition _find_person_in_map_by_imdb_id (imdb_id : PyVal)
    : M W (option Row) :=
  if negb (py_truthy imdb_id) then sret None
  else try_except
         (call (EvFindByImdbId imdb_id) (select_person_by_imdb_id E imdb_id))
         is_sqlite_error (fun _ => sret None).

(** A fetched row is true when it has columns. *)
Definition row_truthy (r : Row) : bool :=
  negb (bool_decide (length r = 0%nat)).

Definition _get_actor_metadata_from_cache (tmdb_id : string)
    : M W (option PyDict) :=
  if String.eqb tmdb_id "" then sret None
  else
    let* metadata_row := call (EvActorMetadata tmdb_id) (select_actor_metadata E tmdb_id) in
    match metadata_row with
    | Some r => if row_truthy r then sret (Some (dict_of_row r)) else sret None
    | None => sret None
    end.

(** [a or b]. *)
Definition py_or (a b : PyVal) : PyVal := if py_truthy a then a else b.

(** The member synthesised for a person found through the regional
    source only. *)
Definition new_actor_entry (tmdb_id : string) (d_actor cached_metadata : PyDict)
    (imdb_id d_douban_id : PyVal) : PyDict :=
  list_to_map
    [("id", VStr tmdb_id);
     ("name", py_get d_actor "Name");
     ("original_name",
       py_or (py_get cached_metadata "original_name")
             (py_get d_actor "OriginalName"));
     ("character", py_get d_actor "Role");
     ("adult", default (VBool false) (cached_metadata !! "adult"));
     ("gender", default (VInt 0) (cached_metadata !! "gender"));
     ("known_for_department", VStr "Acting");
     ("popularity", default (VFloat 0) (cached_metadata !! "popularity"));
     ("profile_path", py_get cached_metadata "profile_path");
     ("cast_id", VNone);
     ("credit_id", VNone);
     ("order", VInt 999);
     ("imdb_id", imdb_id);
     ("douban_id", d_douban_id);
     ("_is_newly_added", VBool true)].

(** [self._get_actor_metadata_from_cache(tmdb_id, cursor) or {}]. *)
Definition cached_metadata_or_empty (tmdb_id : string) : M W PyDict :=
  let* o := _get_actor_metadata_from_cache tmdb_id in
  sret (default ∅ o).

(** [row[c] if c in row else None]. *)
Definition row_get_if_in (c : string) (r : Row) : result PyVal :=
  if row_contains c r then row_get r c else Ok VNone.

(** *** Match pass B: regional id through the identity map *)

Definition pass_B_step (acc : final_map * list PyDict) (d_actor : PyDict)
    : M W (final_map * list PyDict) :=
  let '(final_cast_map, still_unmatched) := acc in
  check_stop;;;
  let d_douban_id := py_get d_actor "DoubanCelebrityId" in
  let unmatched := sret (final_cast_map, still_unmatched ++ [d_actor]) in
  if py_truthy d_douban_id then
    let* entry := _find_person_in_map_by_douban_id d_douban_id in
    match entry with
    | Some entry =>
        if row_truthy entry then
          let* t := lift (row_get entry "tmdb_person_id") in
          if py_truthy t then
            let tmdb_id_from_map := py_str t in
            if od_mem tmdb_id_from_map final_cast_map
            then sret (final_cast_map, still_unmatched)
            else
              let* cached_metadata := cached_metadata_or_empty tmdb_id_from_map in
              let* imdb_id := lift (row_get_if_in "imdb_id" entry) in
              sret (od_set tmdb_id_from_map
                      (new_actor_entry tmdb_id_from_map d_actor cached_metadata
                         imdb_id d_douban_id)
                      final_cast_map,
                    still_unmatched)
          else unmatched
        else unmatched
    | None => unmatched
    end
  else unmatched.

Definition pass_B (final_cast_map : final_map) (unmatched : list PyDict)
    : M W (final_map * list PyDict) :=
  sfoldl pass_B_step (final_cast_map, []) unmatched.

(** *** Match pass C: external id through the regional provider *)

(** [item[0] == 'IMDb编号'] on a two-element list [item]; the result is
    [item[1]]. *)
Definition imdb_info_item (item : PyVal) : option PyVal :=
  match item with
  | VList [VStr label; v] =>
      if String.eqb label "IMDb编号" then Some v else None
  | _ => None
  end.

Fixpoint first_imdb_info (info_list : list PyVal) : PyVal :=
  match info_list with
  | [] => VNone
  | item :: rest =>
      match imdb_info_item item with
      | Some v => v
      | None => first_imdb_info rest
      end
  end.

(** The [try] block that reads the IMDb id out of the detail payload; its
    handler catches every exception, and the id then stays [None]. *)
Definition imdb_id_of_details (details : PyDict) : PyVal :=
  match match details !! "extra" with
        | None => Ok ∅
        | Some v => as_dict v
        end with
  | Raise _ => VNone
  | Ok extra =>
      match default (VList []) (extra !! "info") with
      | VList info_list => first_imdb_info info_list
      | _ => VNone
      end
  end.

(** [d_imdb_id] after the detail call. *)
Definition d_imdb_id_of (details : PyVal) : result PyVal :=
  if py_truthy details then
    let? d := as_dict details in
    if negb (py_truthy (py_get d "error")) then Ok (imdb_id_of_details d)
    else Ok VNone
  else Ok VNone.

(** The identity-map branch of pass C, for a candidate whose IMDb id is
    known; the boolean is [match_found]. *)
Definition pass_C_by_map (final_cast_map : final_map) (d_actor : PyDict)
    (d_douban_id d_imdb_id : PyVal) : M W (final_map * bool) :=
  let* entry_from_map := _find_person_in_map_by_imdb_id d_imdb_id in
  match entry_from_map with
  | Some entry =>
      if row_truthy entry then
        let* t := lift (row_get entry "tmdb_person_id") in
        if py_truthy t then
          let tmdb_id_from_map := py_str t in
          let* final_cast_map' :=
            if od_mem tmdb_id_from_map final_cast_map then sret final_cast_map
            else
              let* cached_metadata :=
                cached_metadata_or_empty tmdb_id_from_map in
              sret (od_set tmdb_id_from_map
                      (new_actor_entry tmdb_id_from_map d_actor cached_metadata
                         d_imdb_id d_douban_id)
                      final_cast_map) in
          let* name :=
            lift (if py_truthy (py_get d_actor "Name")
                  then Ok (py_get d_actor "Name")
                  else row_get_if_in "primary_name" entry) in
          let row :=
            <["tmdb_id" := VStr tmdb_id_from_map]>
              (<["imdb_id" := d_imdb_id]>
                 (<["douban_id" := d_douban_id]> {["name" := name]})) in
          call (EvUpsertPerson row) (upsert_person E row);;;
          sret (final_cast_map', true)
        else sret (final_cast_map, false)
      else sret (final_cast_map, false)
  | None => sret (final_cast_map, false)
  end.

(** The primary-provider branch of pass C. *)
Definition pass_C_by_tmdb (final_cast_map : final_map) (d_actor : PyDict)
    (d_douban_id d_imdb_id : PyVal) : M W (final_map * bool) :=
  check_stop;;;
  let* person_from_tmdb :=
    call (EvFindPersonByExternalId d_imdb_id)
      (find_person_by_external_id E d_imdb_id (tmdb_api_key self)) in
  if py_truthy person_from_tmdb then
    let* person := lift (as_dict person_from_tmdb) in
    if py_truthy (py_get person "id") then
      let tmdb_id_from_find := py_str (py_get person "id") in
      if od_mem tmdb_id_from_find final_cast_map then sret (final_cast_map, true)
      else
        let* cached_metadata := cached_metadata_or_empty tmdb_id_from_find in
        let row :=
          <["tmdb_id" := VStr tmdb_id_from_find]>
            (<["imdb_id" := d_imdb_id]>
               (<["douban_id" := d_douban_id]>
                  {["name" := py_get d_actor "Name"]})) in
        call (EvUpsertPerson row) (upsert_person E row);;;
        sret (od_set tmdb_id_from_find
                (new_actor_entry tmdb_id_from_find d_actor cached_metadata
                   d_imdb_id d_douban_id)
                final_cast_map,
              true)
    else sret (final_cast_map, false)
  else sret (final_cast_map, false).

(** One candidate of pass C, once the cap check has let it through. *)
Definition pass_C_candidate (final_cast_map : final_map) (d_actor : PyDict)
    : M W (final_map * bool) :=
  let d_douban_id := py_get d_actor "DoubanCelebrityId" in
  if py_truthy d_douban_id && douban_api self && py_truthy (tmdb_api_key self)
  then
    check_stop;;;
    let* details :=
      call (EvCelebrityDetails d_douban_id) (celebrity_details E d_douban_id) in
    let* d_imdb_id := lift (d_imdb_id_of details) in
    if py_truthy d_imdb_id then
      let* '(final_cast_map', match_found) :=
        pass_C_by_map final_cast_map d_actor d_douban_id d_imdb_id in
      if match_found then sret (final_cast_map', true)
      else pass_C_by_tmdb final_cast_map' d_actor d_douban_id d_imdb_id
    else sret (final_cast_map, false)
  else sret (final_cast_map, false).

(** The loop of pass C: it stops at the first candidate reached with the
    cap attained, and the rest stays unmatched. *)
Fixpoint pass_C (limit : Z) (final_cast_map : final_map)
    (still_unmatched_final unmatched : list PyDict)
    : M W (final_map * list PyDict) :=
  match unmatched with
  | [] => sret (final_cast_map, still_unmatched_final)
  | d_actor :: rest =>
      check_stop;;;
      if limit <=? Z.of_nat (length final_cast_map) then
        sret (final_cast_map, still_unmatched_final ++ unmatched)
      else
        let* '(final_cast_map', match_found) :=
          pass_C_candidate final_cast_map d_actor in
        pass_C limit final_cast_map'
          (if match_found then still_unmatched_final
           else still_unmatched_final ++ [d_actor])
          rest
  end.

(** Passes B and C behind the cap check. *)
Definition supplement (limit : Z) (final_cast_map : final_map)
    (unmatched : list PyDict) : M W (final_map * list PyDict) :=
  let current_actor_count := Z.of_nat (length final_cast_map) in
  if limit <=? current_actor_count then sret (final_cast_map, unmatched)
  else
    let* '(final_cast_map', still_unmatched) :=
      pass_B final_cast_map unmatched in
    pass_C limit final_cast_map' [] still_unmatched.

(** *** Full write-back and truncation *)

Definition write_back_row (actor_data : PyDict) : PyDict :=
  <["tmdb_id" := py_get actor_data "id"]>
    (<["name" := py_get actor_data "name"]>
       (<["imdb_id" := py_get actor_data "imdb_id"]>
          {["douban_id" := py_get actor_data "douban_id"]})).

Definition full_write_back (current_cast_list : list PyDict) : M W unit :=
  sfoldl (fun _ actor_data =>
            call (EvUpsertPerson (write_back_row actor_data))
              (upsert_person E (write_back_row actor_data)))
         () current_cast_list.

(** [x.get('order') if x.get('order') is not None and x.get('order') >= 0
    else 999]. *)
Definition truncation_key (x : PyDict) : result PyVal :=
  match py_get x "order" with
  | VNone => Ok (VInt 999)
  | o => match num_of o with
         | Some q => if Qle_bool 0 q then Ok o else Ok (VInt 999)
         | None => Raise TypeError
         end
  end.

Definition truncate (limit : Z) (current_cast_list : list PyDict)
    : result (list PyDict) :=
  let original_count := Z.of_nat (length current_cast_list) in
  if limit <? original_count then
    let? sorted := py_sort_by truncation_key current_cast_list in
    Ok (take (Z.to_nat limit) sorted)
  else Ok current_cast_list.

(** *** Translation *)

(** A Python [set] of texts, in the order the texts were first added. *)
Abbreviation text_set := (list (Key * PyVal)).

Definition set_add (k : Key) (v : PyVal) (s : text_set) : text_set :=
  if od_mem k s then s else s ++ [(k, v)].

(** Body of the loop that collects the names and cleaned character names
    to translate. *)
Definition collect_texts (texts_to_collect : text_set) (actor : PyDict)
    : result text_set :=
  let name := py_get actor "name" in
  let? texts_to_collect :=
    if py_truthy name then
      let? zh := contains_chinese E name in
      if negb zh then
        let? k := hash_key name in Ok (set_add k name texts_to_collect)
      else Ok texts_to_collect
    else Ok texts_to_collect in
  let character := py_get actor "character" in
  if py_truthy character then
    let cleaned_character := clean_character_name_static E character in
    if nonempty cleaned_character then
      let? zh := contains_chinese E (VStr cleaned_character) in
      if negb zh then
        Ok (set_add (KStr cleaned_character) (VStr cleaned_character)
              texts_to_collect)
      else Ok texts_to_collect
    else Ok texts_to_collect
  else Ok texts_to_collect.

(** Body of the cache look-up loop of the [fast] mode. *)
Definition check_cache (acc : text_set * text_set) (text : Key * PyVal)
    : M W (text_set * text_set) :=
  let '(translation_cache, texts_to_send_to_api) := acc in
  let* cached_entry :=
    call (EvGetTranslation text.2) (get_translation_from_db E text.2) in
  if py_truthy cached_entry then
    let* entry := lift (as_dict cached_entry) in
    sret (od_set text.1 (py_get entry "translated_text") translation_cache,
          texts_to_send_to_api)
  else sret (translation_cache, set_add text.1 text.2 texts_to_send_to_api).

Definition is_fast (translation_mode : PyVal) : bool :=
  match translation_mode with
  | VStr s => String.eqb s "fast"
  | _ => false
  end.

Definition translation_mode_of_config : PyVal :=
  default (VStr "fast") (config self !! CONFIG_OPTION_AI_TRANSLATION_MODE E).

(** [translation_cache.update(translation_map_from_api)]. *)
Definition cache_update (translation_cache : text_set)
    (translation_map_from_api : list (string * PyVal)) : text_set :=
  foldl (fun c ot => od_set (KStr ot.1) ot.2 c) translation_cache
    translation_map_from_api.

Definition save_translations (translation_map_from_api : list (string * PyVal))
    : M W unit :=
  sfoldl (fun _ ot =>
            call (EvSaveTranslation ot.1 ot.2)
              (save_translation_to_db E ot.1 ot.2
                 (default VNone (ai_translator self))))
         () translation_map_from_api.

(** The part of the [try] block after the texts are collected and the
    cache is consulted. *)
Definition send_to_api (item_details_from_emby : PyDict)
    (translation_cache texts_to_send_to_api : text_set) : M W text_set :=
  let translation_mode := translation_mode_of_config in
  if bool_decide (texts_to_send_to_api = []) then sret translation_cache
  else
    let item_title := py_get item_details_from_emby "Name" in
    let item_year := py_get item_details_from_emby "ProductionYear" in
    let texts := texts_to_send_to_api.*2 in
    let* translation_map_from_api :=
      call (EvBatchTranslate texts translation_mode)
        (batch_translate E texts translation_mode item_title item_year) in
    if bool_decide (translation_map_from_api = []) then sret translation_cache
    else
      (if is_fast translation_mode
       then save_translations translation_map_from_api
       else sret ());;;
      sret (cache_update translation_cache translation_map_from_api).

(** The first part of the [try] block: the texts are collected and, in
    [fast] mode, looked up in the cache; its value is [translation_cache]
    with [texts_to_send_to_api]. *)
Definition consult_cache (cast_to_process : list PyDict)
    : M W (text_set * text_set) :=
  let translation_mode := translation_mode_of_config in
  let* texts_to_collect := lift (rfoldl collect_texts [] cast_to_process) in
  if is_fast translation_mode
  then sfoldl check_cache ([], []) texts_to_collect
  else sret ([], texts_to_collect).

(** The body of the [try] block; its value is [translation_cache]. *)
Definition translation_attempt (item_details_from_emby : PyDict)
    (cast_to_process : list PyDict) : M W text_set :=
  let* '(translation_cache, texts_to_send_to_api) :=
    consult_cache cast_to_process in
  send_to_api item_details_from_emby translation_cache texts_to_send_to_api.

(** [translation_cache.get(v, v)]. *)
Definition cache_get (translation_cache : text_set) (v : PyVal) : result PyVal :=
  let? k := hash_key v in Ok (default v (od_get k translation_cache)).

(** The back-fill applied to every member when the attempt succeeded. *)
Definition apply_translation (translation_cache : text_set) (actor : PyDict)
    : result PyDict :=
  let original_name := py_get actor "name" in
  let? translated_name := cache_get translation_cache original_name in
  let actor := <["name" := translated_name]> actor in
  let original_character := py_get actor "character" in
  if py_truthy original_character then
    let cleaned_character :=
      clean_character_name_static E original_character in
    let? translated_character :=
      cache_get translation_cache (VStr cleaned_character) in
    Ok (<["character" := translated_character]> actor)
  else Ok (<["character" := VStr ""]> actor).

Definition ai_translation_enabled : bool :=
  bool_decide (is_Some (ai_translator self))
  && py_truthy (default (VBool false)
                  (config self !! CONFIG_OPTION_AI_TRANSLATION_ENABLED E)).

Definition catch_all (e : exn) : bool := true.

(** The translation phase: [None] stands for
    [ai_translation_succeeded = False]. *)
Definition translate_phase (item_details_from_emby : PyDict)
    (cast_to_process : list PyDict) : M W (list PyDict) :=
  let* outcome :=
    if ai_translation_enabled then
      try_except
        (let* translation_cache :=
           translation_attempt item_details_from_emby cast_to_process in
         sret (Some translation_cache))
        catch_all (fun _ => sret None)
    else sret None in
  match outcome with
  | Some translation_cache =>
      lift (rmap (apply_translation translation_cache) cast_to_process)
  | None => sret cast_to_process
  end.

(** *** Formatting and the whole pipeline *)

Definition is_substring (s t : string) : bool :=
  bool_decide (is_Some (String.index 0 s t)).

(** [s in v]. *)
Definition py_contains (s : string) (v : PyVal) : result bool :=
  match v with
  | VList l =>
      Ok (existsb (fun x => match x with
                            | VStr t => String.eqb t s
                            | _ => false
                            end) l)
  | VDict d => Ok (py_in s d)
  | VStr t => Ok (is_substring s t)
  | _ => Raise TypeError
  end.

Definition genres_of (item_details_from_emby : PyDict) : PyVal :=
  default (VList []) (item_details_from_emby !! "Genres").

Definition with_provider_ids (actor : PyDict) : PyDict :=
  <["provider_ids" :=
      VDict (<["Tmdb" := VStr (py_str (py_get actor "id"))]>
               (<["Imdb" := py_get actor "imdb_id"]>
                  {["Douban" := py_get actor "douban_id"]}))]> actor.

(** The working set when pass A ends, with the candidates left over. *)
Definition after_pass_A
    (tmdb_cast_people emby_cast_people douban_cast_list : list PyDict)
    : result (final_map * list PyDict) :=
  let? emby_tmdb_to_person_id_map :=
    emby_tmdb_to_person_id_map_of emby_cast_people in
  let? local_cast_list :=
    adapt_cast emby_tmdb_to_person_id_map tmdb_cast_people in
  let douban_candidates := format_douban_cast E douban_cast_list in
  let? a := pass_A local_cast_list douban_candidates in
  let current_cast_list := merged_actors a ++ unmatched_local_actors a in
  Ok (final_cast_map_of current_cast_list, unmatched_douban_actors a).

(** Truncation, translation and formatting of the working set. *)
Definition finish (item_details_from_emby : PyDict)
    (current_cast_list : list PyDict) : M W (list PyDict) :=
  let* limit := lift max_actors_limit in
  let* cast_to_process := lift (truncate limit current_cast_list) in
  let* cast_to_process :=
    translate_phase item_details_from_emby cast_to_process in
  let* is_animation :=
    lift (py_contains "Animation" (genres_of item_details_from_emby)) in
  let final_cast_perfect :=
    format_and_complete_cast_list E cast_to_process is_animation
      (config self) in
  sret (with_provider_ids <$> final_cast_perfect).

Definition _process_cast_list_from_api
    (tmdb_cast_people emby_cast_people douban_cast_list : list PyDict)
    (item_details_from_emby : PyDict) : M W (list PyDict) :=
  let* '(final_cast_map, unmatched_douban_actors) :=
    lift (after_pass_A tmdb_cast_people emby_cast_people douban_cast_list) in
  let* limit := lift max_actors_limit in
  let* '(final_cast_map, _) :=
    supplement limit final_cast_map unmatched_douban_actors in
  let current_cast_list := od_values final_cast_map in
  full_write_back current_cast_list;;;
  finish item_details_from_emby current_cast_list.

(** ** The session ([MediaProcessor._process_item_core_logic_api_version])

    The methods that only read the server, the provider files and the
    network ([_enrich_cast_from_db_and_api],
    [_get_douban_data_with_local_cache], [_batch_update_episodes_cast]) are
    taken as calls on the world; none of them writes to the identity
    store.  The database connection is part of the world: of the
    transaction only the explicit [conn.commit()] is a call.  Log lines and
    the in-memory cache of processed items are left out. *)

(** [float(v)]. *)
Definition py_float (v : PyVal) : result Q :=
  match v with
  | VStr s => match float_of_str E s with
              | Some q => Ok q
              | None => Raise ValueError
              end
  | _ => match num_of v with
         | Some q => Ok q
         | None => Raise TypeError
         end
  end.

Definition is_str (s : string) (v : PyVal) : bool :=
  match v with
  | VStr t => String.eqb t s
  | _ => false
  end.

(** A value iterated as a list of records. *)
Definition as_dict_list (v : PyVal) : result (list PyDict) :=
  match v with
  | VList l => rmap (fun x => match x with
                              | VDict d => Ok d
                              | _ => Raise TypeError
                              end) l
  | _ => Raise TypeError
  end.

(** Stage 2 of the session: the authoritative cast source, before the
    fall-back to the enriched snapshot. *)
Definition select_authoritative (item_type tmdb_id : PyVal)
    (force_fetch_from_tmdb : bool) : M W PyVal :=
  let forced := force_fetch_from_tmdb && py_truthy (tmdb_api_key self) in
  if is_str "Movie" item_type then
    if forced then
      let* movie_details :=
        call EvGetMovieDetails
          (get_movie_details E tmdb_id (tmdb_api_key self)) in
      if py_truthy movie_details then
        let* md := lift (as_dict movie_details) in
        let credits_data := py_or (py_get md "credits") (py_get md "casts") in
        if py_truthy credits_data then
          let* cd := lift (as_dict credits_data) in
          sret (default (VList []) (cd !! "cast"))
        else sret (VList [])
      else sret (VList [])
    else sret (VList [])
  else if is_str "Series" item_type then
    if forced then
      let* tv_id := lift (py_int tmdb_id) in
      let* aggregated_tmdb_data :=
        call EvAggregateFullSeries
          (aggregate_full_series_data_from_tmdb E tv_id (tmdb_api_key self)) in
      match aggregated_tmdb_data with
      | Some (series_details, all_episodes) =>
          let* l := lift (_aggregate_series_cast_from_tmdb_data
                            series_details all_episodes) in
          sret (VList (VDict <$> l))
      | None => sret (VList [])
      end
    else sret (VList [])
  else sret (VList []).

Definition cast_for_emby_handler_of (final_processed_cast : list PyDict)
    : list PyDict :=
  (fun actor : PyDict =>
     <["name" := py_get actor "name"]>
       (<["character" := py_get actor "character"]>
          (<["emby_person_id" := py_get actor "emby_person_id"]>
             {["provider_ids" := py_get actor "provider_ids"]})))
  <$> final_processed_cast.

(** [a in genres or b in genres or ...]. *)
Fixpoint any_in (names : list string) (genres : PyVal) : result bool :=
  match names with
  | [] => Ok false
  | n :: rest =>
      let? b := py_contains n genres in
      if b then Ok true else any_in rest genres
  end.

(** Stage 4: scoring and logging, up to the commit. *)
Definition post_process (item_details_from_emby : PyDict) (item_id : PyVal)
    (final_processed_cast : list PyDict) (original_emby_actor_count : nat)
    : M W unit :=
  let genres := genres_of item_details_from_emby in
  let* is_animation :=
    lift (any_in ["Animation"; "动画"; "Documentary"; "纪录"] genres) in
  let processing_score :=
    evaluate_cast_processing_quality E final_processed_cast
      original_emby_actor_count (length final_processed_cast) is_animation in
  let* min_score_for_review :=
    lift (py_float (default (DEFAULT_MIN_SCORE_FOR_REVIEW E)
                      (config self !! "min_score_for_review"))) in
  (if negb (Qle_bool min_score_for_review processing_score) then
     call (EvSaveToFailedLog "处理评分低于阈值")
       (save_to_failed_log E item_id "处理评分低于阈值")
   else
     call EvSaveToProcessedLog (save_to_processed_log E item_id);;;
     call EvRemoveFromFailedLog (remove_from_failed_log E item_id));;;
  call EvCommit (commit E).

(** Stages 1 to 3 of the [try] block, up to the call of the pipeline:
    the enriched snapshot, the authoritative source and the regional cast. *)
Definition acquire (item_details_from_emby : PyDict)
    (item_type tmdb_id : PyVal) (force_fetch_from_tmdb : bool)
    : M W (list PyDict * list PyDict * list PyDict) :=
  let current_emby_cast_raw :=
    default (VList []) (item_details_from_emby !! "People") in
  let* enriched_emby_cast :=
    call EvEnrichCast (enrich_cast_from_db_and_api E current_emby_cast_raw) in
  let* authoritative_cast_source :=
    select_authoritative item_type tmdb_id force_fetch_from_tmdb in
  let* douban_cast_raw :=
    call EvGetDoubanData
      (get_douban_data_with_local_cache E item_details_from_emby) in
  let* authoritative_cast_source :=
    if py_truthy authoritative_cast_source
    then lift (as_dict_list authoritative_cast_source)
    else sret enriched_emby_cast in
  sret (authoritative_cast_source, enriched_emby_cast, douban_cast_raw).

(** The write-back to the server and the logs, once the pipeline has
    returned. *)
Definition write_back_to_server (item_details_from_emby : PyDict)
    (item_id item_type : PyVal) (final_processed_cast : list PyDict)
    (original_emby_actor_count : nat) : M W bool :=
  let cast_for_emby_handler := cast_for_emby_handler_of final_processed_cast in
  let* update_success :=
    call (EvUpdateEmbyItemCast cast_for_emby_handler)
      (update_emby_item_cast E item_id cast_for_emby_handler) in
  (if is_str "Series" item_type && update_success
   then call EvBatchUpdateEpisodes
          (batch_update_episodes_cast E item_id final_processed_cast)
   else sret ());;;
  if negb update_success then
    call (EvSaveToFailedLog "API更新演员信息失败")
      (save_to_failed_log E item_id "API更新演员信息失败");;;
    call EvCommit (commit E);;;
    sret false
  else
    call EvRefreshEmbyItem (refresh_emby_item_metadata E item_id);;;
    post_process item_details_from_emby item_id final_processed_cast
      original_emby_actor_count;;;
    sret true.

(** The body of the [try] block. *)
Definition session_body (item_details_from_emby : PyDict)
    (item_id item_type tmdb_id : PyVal) (force_fetch_from_tmdb : bool)
    : M W bool :=
  let* '(authoritative_cast_source, enriched_emby_cast, douban_cast_raw) :=
    acquire item_details_from_emby item_type tmdb_id force_fetch_from_tmdb in
  let original_emby_actor_count := length enriched_emby_cast in
  let* final_processed_cast :=
    _process_cast_list_from_api authoritative_cast_source enriched_emby_cast
      douban_cast_raw item_details_from_emby in
  write_back_to_server item_details_from_emby item_id item_type
    final_processed_cast original_emby_actor_count.

Definition is_value_or_interrupted (e : exn) : bool :=
  match e with
  | ValueError | InterruptedError => true
  | _ => false
  end.

(** The two handlers of the session: [(ValueError, InterruptedError)]
    returns [False]; any other exception is written to the failed log (a
    failure of that write is swallowed) and returns [False]. *)
Definition session_handler (item_id : PyVal) (e : exn) : M W bool :=
  if is_value_or_interrupted e then sret false
  else
    try_except
      (call (EvSaveToFailedLog "核心处理异常")
         (save_to_failed_log E item_id "核心处理异常"))
      catch_all (fun _ => sret ());;;
    sret false.

Definition _process_item_core_logic_api_version
    (item_details_from_emby : PyDict)
    (force_reprocess_this_item force_fetch_from_tmdb : bool) : M W bool :=
  let item_id := py_get item_details_from_emby "Id" in
  let* tmdb_id := lift (provider_tmdb item_details_from_emby) in
  let item_type := py_get item_details_from_emby "Type" in
  if negb (py_truthy tmdb_id) then sret false
  else
    try_except
      (session_body item_details_from_emby item_id item_type tmdb_id
         force_fetch_from_tmdb)
      catch_all (session_handler item_id).
End Pipeline.

(** ** A concrete set of collaborators

    Used to run the pipeline on explicit inputs.  The world is the stop flag;
    strings are folded and trimmed on their ASCII part; the database is
    empty; the detail call of the regional provider, the translation cache
    and the translator are supplied by the example at hand. *)
Module Demo.
Definition lower_ascii (c : ascii) : ascii :=
  let n := nat_of_ascii c in
  if (65 <=? n)%nat && (n <=? 90)%nat then ascii_of_nat (n + 32) else c.

Fixpoint lower (s : string) : string :=
  match s with
  | EmptyString => EmptyString
  | String c s' => String (lower_ascii c) (lower s')
  end.

Definition is_space (c : ascii) : bool :=
  let n := nat_of_ascii c in
  (n =? 32)%nat || ((9 <=? n)%nat && (n <=? 13)%nat).

Fixpoint lstrip (s : string) : string :=
  match s with
  | EmptyString => EmptyString
  | String c s' => if is_space c then lstrip s' else s
  end.

Fixpoint rstrip (s : string) : string :=
  match s with
  | EmptyString => EmptyString
  | String c s' =>
      match rstrip s' with
      | EmptyString => if is_space c then EmptyString else String c EmptyString
      | r => String c r
      end
  end.

Definition strip (s : string) : string := rstrip (lstrip s).

Definition digit (c : ascii) : option Z :=
  let n := nat_of_ascii c in
  if (48 <=? n)%nat && (n <=? 57)%nat then Some (Z.of_nat (n - 48)) else None.

Fixpoint digits (acc : Z) (s : string) : option Z :=
  match s with
  | EmptyString => Some acc
  | String c s' => match digit c with
                   | Some d => digits (10 * acc + d) s'
                   | None => None
                   end
  end.

Definition parse_int (s : string) : option Z :=
  match strip s with
  | EmptyString => None
  | String "-"%char r => if nonempty r then Z.opp <$> digits 0 r else None
  | r => digits 0 r
  end.

Fixpoint has_high_byte (s : string) : bool :=
  match s with
  | EmptyString => false
  | String c s' => (128 <=? nat_of_ascii c)%nat || has_high_byte s'
  end.

Definition high_byte_text (v : PyVal) : result bool :=
  match v with
  | VStr s => Ok (has_high_byte s)
  | VNone => Ok false
  | _ => Raise TypeError
  end.

Definition clean (v : PyVal) : string :=
  match v with
  | VStr s => strip s
  | _ => ""
  end.

Definition best_role (current : PyVal) (candidate : string) : PyVal :=
  if nonempty candidate then VStr candidate else current.

Definition quiet {A} (a : A) (w : bool) : bool * result A := (w, Ok a).
Definition answer {A} (r : result A) (w : bool) : bool * result A := (w, r).

Definition env_with (douban_cast : list PyDict)
    (details : PyVal → result PyVal)
    (cached : PyVal → result PyVal)
    (translate : list PyVal → result (list (string * PyVal)))
    : Collaborators bool :=
  {| py_lower := lower;
     py_strip := strip;
     py_repr := fun _ => "<object>";
     int_of_str := parse_int;
     float_of_str := fun s => inject_Z <$> parse_int s;
     CONFIG_OPTION_MAX_ACTORS_TO_PROCESS := "max_actors_to_process";
     CONFIG_OPTION_AI_TRANSLATION_ENABLED := "ai_translation_enabled";
     CONFIG_OPTION_AI_TRANSLATION_MODE := "ai_translation_mode";
     DEFAULT_MIN_SCORE_FOR_REVIEW := VInt 6;
     format_douban_cast := fun l => l;
     clean_character_name_static := clean;
     select_best_role := best_role;
     contains_chinese := high_byte_text;
     format_and_complete_cast_list := fun l _ _ => l;
     evaluate_cast_processing_quality := fun _ _ _ _ => inject_Z 10;
     stop_event_is_set := fun w => w;
     select_person_by_douban_id := fun _ => quiet None;
     select_person_by_imdb_id := fun _ => quiet None;
     select_actor_metadata := fun _ => quiet None;
     upsert_person := fun _ => quiet ();
     get_translation_from_db := fun t => answer (cached t);
     save_translation_to_db := fun _ _ _ => quiet ();
     celebrity_details := fun d => answer (details d);
     find_person_by_external_id := fun _ _ => quiet VNone;
     batch_translate := fun texts _ _ _ => answer (translate texts);
     enrich_cast_from_db_and_api :=
       fun people w => (w, as_dict_list people);
     get_movie_details := fun _ _ => quiet VNone;
     aggregate_full_series_data_from_tmdb := fun _ _ => quiet None;
     get_douban_data_with_local_cache := fun _ => quiet douban_cast;
     update_emby_item_cast := fun _ _ => quiet true;
     batch_update_episodes_cast := fun _ _ => quiet ();
     refresh_emby_item_metadata := fun _ => quiet ();
     save_to_failed_log := fun _ _ => quiet ();
     save_to_processed_log := fun _ => quiet ();
     remove_from_failed_log := fun _ => quiet ();
     commit := quiet () |}.

Definition env := env_with [].

Definition plain : Collaborators bool :=
  env (fun _ => Ok VNone) (fun _ => Ok VNone) (fun _ => Ok []).

Definition processor (cfg : PyDict) : MediaProcessor :=
  {| config := cfg; douban_api := true; tmdb_api_key := VStr "key";
     ai_translator := Some (VStr "engine") |}.

Definition start (stop : bool) : St bool := mkSt stop [].

(** Two members of a snapshot, in the provider's shape. *)
Definition john : PyDict :=
  <["id" := VInt 1]> (<["name" := VStr "John"]> {["order" := VInt 0]}).
Definition jane : PyDict :=
  <["id" := VInt 2]> (<["name" := VStr "Jane"]> {["order" := VInt 1]}).

(** A series, and an episode with a guest and a walk-on. *)
Definition john_in_episode : PyDict :=
  <["id" := VInt 1]> (<["name" := VStr "Johnny"]> {["order" := VInt 5]}).
Definition guest : PyDict :=
  <["id" := VInt 7]> (<["name" := VStr "Guest"]> {["order" := VInt 3]}).
Definition walk_on : PyDict :=
  <["id" := VInt 9]> {["name" := VStr "Walk-on"]}.
Definition series_with_john : PyDict :=
  {["credits" := VDict {["cast" := VList [VDict john]]}]}.
Definition series_without_cast : PyDict := ∅.
Definition episode : PyDict :=
  {["credits" :=
      VDict (<["cast" := VList [VDict john_in_episode; VDict guest]]>
               {["guest_stars" := VList [VDict walk_on]]})]}.

(** A record without any id, and one whose id is null. *)
Definition ghost : PyDict :=
  <["Name" := VStr "Ghost"]> {["ProviderIds" := VDict {["Imdb" := VStr "nm1"]}]}.
Definition null_id : PyDict :=
  <["id" := VNone]> {["name" := VStr "Nobody"]}.

(** Regional candidates and members for the name match. *)
Definition yuehan : PyDict :=
  <["Name" := VStr "约翰"]>
    (<["OriginalName" := VStr "john"]>
       (<["Role" := VStr "Lead"]> {["DoubanCelebrityId" := VStr "1001"]})).
Definition zhangsan : PyDict :=
  <["Name" := VStr "张三"]>
    (<["OriginalName" := VStr ""]> {["DoubanCelebrityId" := VStr "1002"]}).

(** The final cast of a run, empty when the run raised. *)
Definition final_of (run : St bool * result (list PyDict)) : list PyDict :=
  match run.2 with
  | Ok l => l
  | Raise _ => []
  end.

Definition cap_of_one : PyDict := {["max_actors_to_process" := VInt 1]}.
Definition cap_of_two : PyDict := {["max_actors_to_process" := VStr "2"]}.

(** A run of John and Jane under a cap of one. *)
Definition capped_run : St bool * result (list PyDict) :=
  Eval vm_compute in
    _process_cast_list_from_api plain (processor cap_of_one) [john; jane] [] []
      ∅ (start false).

(** The working set of John and Jane when pass A ends, the candidate
    [zhangsan] having matched neither. *)
Definition full_house : list (string * PyDict) * list PyDict :=
  Eval vm_compute in
    match after_pass_A plain [john; jane] [] [zhangsan] with
    | Ok x => x
    | Raise _ => ([], [])
    end.

(** Translation switched on (in the default [fast] mode), a cache that
    knows every text, and a translator that fails. *)
Definition translating : PyDict := {["ai_translation_enabled" := VBool true]}.
Definition cached_entry : PyVal := VDict {["translated_text" := VStr "约翰"]}.
Definition all_in_cache : Collaborators bool :=
  env (fun _ => Ok VNone) (fun _ => Ok cached_entry) (fun _ => Ok []).
Definition translator_down : Collaborators bool :=
  env (fun _ => Ok VNone) (fun _ => Ok VNone)
      (fun _ => Raise (OtherError "translator unavailable")).

(** The cache look-up for John when the cache is empty. *)
Definition cache_miss : St bool * (list (Key * PyVal) * list (Key * PyVal)) :=
  Eval vm_compute in
    match consult_cache translator_down (processor translating) [john]
            (start false) with
    | (s, Ok ct) => (s, ct)
    | (s, Raise _) => (s, ([], []))
    end.

(** A title of the server whose snapshot lists John, and the regional
    provider failing on the detail call. *)
Definition john_on_server : PyDict :=
  <["Id" := VStr "p1"]>
    (<["Name" := VStr "John"]> {["ProviderIds" := VDict {["Tmdb" := VStr "1"]}]}).
Definition title : PyDict :=
  <["Id" := VStr "i1"]>
    (<["Type" := VStr "Movie"]>
       (<["ProviderIds" := VDict {["Tmdb" := VStr "55"]}]>
          {["People" := VList [VDict john_on_server]]})).
Definition details_down : Collaborators bool :=
  env_with [zhangsan] (fun _ => Raise (OtherError "regional provider down"))
    (fun _ => Ok VNone) (fun _ => Ok []).
Definition with_candidate : Collaborators bool :=
  env_with [zhangsan] (fun _ => Ok VNone) (fun _ => Ok VNone) (fun _ => Ok []).

(** Runs with the stop flag set from the start and no regional candidate. *)
Definition stopped_run : St bool * result (list PyDict) :=
  Eval vm_compute in
    _process_cast_list_from_api plain (processor ∅) [john] [] [] ∅ (start true).
Definition stopped_session : St bool * result bool :=
  Eval vm_compute in
    _process_item_core_logic_api_version plain (processor ∅) title false false
      (start true).

(** Runs in which the detail call fails on the candidate [zhangsan]. *)
Definition failing_run : St bool * result (list PyDict) :=
  Eval vm_compute in
    _process_cast_list_from_api details_down (processor ∅) [john] [] [zhangsan]
      ∅ (start false).
Definition failing_session : St bool * result bool :=
  Eval vm_compute in
    _process_item_core_logic_api_version details_down (processor ∅) title
      false false (start false).

(** The inputs the session hands to the pipeline for [title] when the
    regional provider lists [zhangsan] and the stop flag is set, and the
    working set of these inputs when pass A ends. *)
Definition stopped_inputs
    : St bool * (list PyDict * list PyDict * list PyDict) :=
  Eval vm_compute in
    match acquire with_candidate (processor ∅) title (py_get title "Type")
            (VStr "55") false (start true) with
    | (s, Ok x) => (s, x)
    | (s, Raise _) => (s, ([], [], []))
    end.
Definition stopped_working_set : list (string * PyDict) * list PyDict :=
  Eval vm_compute in
    match after_pass_A with_candidate stopped_inputs.2.1.1 stopped_inputs.2.1.2
            stopped_inputs.2.2 with
    | Ok x => x
    | Raise _ => ([], [])
    end.
End Demo.

(** ** Vocabulary of the statements on the aggregation *)

(** The key under which an actor is filed. *)
Definition actor_key (a : PyDict) : result Key := hash_key (py_get a "id").

(** Every entry of the map is filed under the key of its own id. *)
Definition keyed (m : list (Key * PyDict)) : Prop :=
  Forall (fun ka => actor_key ka.2 = Ok ka.1) m.

(** The state of the map while the series' own cast is loaded. *)
Definition from_main (main_cast : list PyVal) (m : list (Key * PyDict)) : Prop :=
  keyed m ∧ NoDup (od_keys m) ∧ ∀ ka, ka ∈ m → VDict ka.2 ∈ main_cast.

(** The state of the map while the episodes are merged into [m0]: an entry
    is one of [m0], or the record of a sub-part whose key [m0] lacks, with
    its order defaulted. *)
Definition extends (P : PyDict → Prop) (m0 m : list (Key * PyDict)) : Prop :=
  keyed m ∧ NoDup (od_keys m)
  ∧ (∀ k, k ∈ od_keys m0 → k ∈ od_keys m)
  ∧ (∀ ka, ka ∈ m →
       ka ∈ m0
       ∨ ((ka.1 ∉ od_keys m0) ∧ (∃ s, P s ∧ ka.2 = with_order_default s))).

(** A record of the cast or the guest stars of one of the episodes. *)
Definition sub_part_record (all_episodes_data : list PyDict) (s : PyDict) : Prop :=
  ∃ e l, e ∈ all_episodes_data ∧ episode_actors e = Ok l ∧ VDict s ∈ l.

(** The claim on sub-part members, in the spec's words: an id seen in a
    sub-part only is given order 999. *)
Definition spec_sub_part_sentinel : Prop :=
  ∀ series eps main out a,
    main_cast_of series = Ok main →
    _aggregate_series_cast_from_tmdb_data series eps = Ok out →
    a ∈ out →
    (∀ t, VDict t ∈ main → actor_key t ≠ actor_key a) →
    py_get a "order" = VInt 999.

(** [x.get('order', 999)], the value the aggregation sorts by. *)
Definition order_of (x : PyDict) : PyVal := default (VInt 999) (x !! "order").

(** The entries whose order is a number follow each other by rising
    order. *)
Definition sorted_by_order (out : list PyDict) : Prop :=
  ∀ i j a b qa qb,
    (i < j)%nat → out !! i = Some a → out !! j = Some b →
    num_of (order_of a) = Some qa → num_of (order_of b) = Some qb →
    (qa <= qb)%Q.

(** The aggregation: no id twice; the entry of an id of the top-level
    listing is a top-level record; any other entry is the record of a
    sub-part, with its order defaulted; every record of a sub-part that has
    an id has an entry of that id; and the entries are sorted by order. *)
Definition aggregation_correct (eps : list PyDict) (main : list PyVal)
    (out : list PyDict) : Prop :=
  NoDup (actor_key <$> out)
  ∧ (∀ t, VDict t ∈ main → py_truthy (py_get t "id") = true →
       ∃ a, a ∈ out ∧ actor_key a = actor_key t ∧ VDict a ∈ main)
  ∧ (∀ a, a ∈ out →
       VDict a ∈ main
       ∨ ∃ s, sub_part_record eps s
              ∧ actor_key a = actor_key s
              ∧ (∀ t, VDict t ∈ main → py_truthy (py_get t "id") = true →
                      actor_key t ≠ actor_key s)
              ∧ (s !! "order" = None → a = <["order" := VInt 999]> s)
              ∧ (is_Some (s !! "order") → a = s))
  ∧ (∀ s, sub_part_record eps s → py_truthy (py_get s "id") = true →
       ∃ a, a ∈ out ∧ actor_key a = actor_key s)
  ∧ sorted_by_order out.

(** ** Vocabulary of the statements on the pipeline *)

(** A source record from which no TMDb id can be taken: no ["id"] key, and
    no [ProviderIds] or a [ProviderIds] without a (true) [Tmdb] entry. *)
Definition lacks_primary_id (r : PyDict) : Prop :=
  r !! "id" = None
  ∧ (r !! "ProviderIds" = None
     ∨ ∃ ids, r !! "ProviderIds" = Some (VDict ids)
              ∧ py_truthy (py_get ids "Tmdb") = false).

Section PassAVocabulary.
Context {W : Type} (E : Collaborators W).





End PassAVocabulary.

(** ** Vocabulary of the statements on calls *)

(** [emits P m]: whatever the state it starts from, the calls [m] adds to
    the trace all satisfy [P]. *)
Definition emits {W A} (P : Event → Prop) (m : M W A) : Prop :=
  ∀ s s' r, m s = (s', r) → ∃ evs, trace s' = evs ++ trace s ∧ Forall P evs.

(** A write to the identity store. *)
Definition is_upsert (ev : Event) : bool :=
  match ev with EvUpsertPerson _ => true | _ => false end.

(** A look-up of a regional candidate: in the identity store or its
    metadata cache, or over the network at the regional or the primary
    provider. *)
Definition is_candidate_lookup (ev : Event) : bool :=
  match ev with
  | EvFindByDoubanId _ | EvFindByImdbId _ | EvActorMetadata _
  | EvCelebrityDetails _ | EvFindPersonByExternalId _ => true
  | _ => false
  end.

(** Passes B and C look candidates up and, in pass C, write mappings back. *)
Definition supplement_event (ev : Event) : Prop :=
  is_candidate_lookup ev = true ∨ is_upsert ev = true.

(** A call to the external translation capability. *)
Definition is_batch_translate (ev : Event) : bool :=
  match ev with EvBatchTranslate _ _ => true | _ => false end.

(** A read or a write of the translation cache. *)
Definition is_cache_access (ev : Event) : bool :=
  match ev with EvGetTranslation _ | EvSaveTranslation _ _ => true | _ => false end.

(** A call of the translation phase. *)
Definition is_translation_event (ev : Event) : bool :=
  is_batch_translate ev || is_cache_access ev.

(** A call of the stages of the session that precede the pipeline. *)
Definition is_acquisition (ev : Event) : bool :=
  match ev with
  | EvEnrichCast | EvGetMovieDetails | EvAggregateFullSeries | EvGetDoubanData =>
      true
  | _ => false
  end.

(** The ids written by the upserts of a trace. *)
Definition upserted_ids (evs : list Event) : list PyVal :=
  omap (fun ev => match ev with
                  | EvUpsertPerson row => Some (py_get row "tmdb_id")
                  | _ => None
                  end) evs.

(** The identity store after the rows have been upserted one after the
    other, each upsert returning normally. *)
Fixpoint store_after_upserts {W} (E : Collaborators W) (rows : list PyDict)
    (w : W) : option W :=
  match rows with
  | [] => Some w
  | row :: rows' =>
      match upsert_person E row w with
      | (w', Ok _) => store_after_upserts E rows' w'
      | (_, Raise _) => None
      end
  end.

Section FormatterLaws.
Context {W : Type} (E : Collaborators W).

(** The formatter returns one member per member it is given. *)
Definition formatter_keeps_length : Prop :=
  ∀ l is_animation cfg,
    length (format_and_complete_cast_list E l is_animation cfg) = length l.
End FormatterLaws.

Section CapVocabulary.
Context {W : Type} (E : Collaborators W) (self : MediaProcessor).

(** The cap in the spec's words: the configured max-actors value, 30 when
    none is configured, when the configured value is no integer, or when it
    is not positive. *)
Definition configured_limit : Z :=
  match config self !! CONFIG_OPTION_MAX_ACTORS_TO_PROCESS E with
  | None => 30
  | Some v => match py_int E v with
              | Ok n => if 0 <? n then n else 30
              | Raise _ => 30
              end
  end.

(** The formatter returns no more members than it is given. *)
Definition formatter_adds_no_member : Prop :=
  ∀ l is_animation cfg,
    (length (format_and_complete_cast_list E l is_animation cfg) ≤ length l)%nat.
End CapVocabulary.

Section TranslationVocabulary.
Context {W : Type} (E : Collaborators W).

(** Every text of [texts] has a true entry in the translation cache,
    whatever the world. *)
Definition all_cached (texts : list PyVal) : Prop :=
  ∀ t w, t ∈ texts →
    ∃ w' entry, get_translation_from_db E t w = (w', Ok entry)
                ∧ py_truthy entry = true.
End TranslationVocabulary.

(** The commit of the session's transaction. *)
Definition is_commit (ev : Event) : bool :=
  match ev with EvCommit => true | _ => false end.

(** A write to the failed log. *)
Definition is_failed_log (ev : Event) : bool :=
  match ev with EvSaveToFailedLog _ => true | _ => false end.

(** * Further code: the identifiers of the reverse proxy
      ([reverse_proxy.py])

    The proxy shows every custom collection of the database as a library of
    the media server.  The identifier of such a library is the database id
    of the collection, moved below zero and written in decimal. *)

(** ** Text of integers

    [str(n)] of an integer is [pretty n].  [int(s)] of a string follows the
    integer literals of the language: white space around the text (the
    blank and the characters 9 to 13 in a text of ASCII) is dropped, one
    sign may precede the digits, and single underscores may
    separate digits; a text of more digits than [sys.int_max_str_digits]
    allows (4300 unless the limit is changed; every interpreter from 3.11
    on has it, and so have the later releases of 3.7 to 3.10) is refused
    like a text that is no number.  Strings are sequences of bytes; the
    white space and the digits outside ASCII that the interpreter also
    accepts are left out: the properties are stated on ASCII text. *)
Definition is_py_space (c : ascii) : bool :=
  let n := nat_of_ascii c in
  (n =? 32)%nat || ((9 <=? n)%nat && (n <=? 13)%nat).

Fixpoint lstrip_by (p : ascii → bool) (s : string) : string :=
  match s with
  | EmptyString => EmptyString
  | String c s' => if p c then lstrip_by p s' else s
  end.

Fixpoint rstrip_by (p : ascii → bool) (s : string) : string :=
  match s with
  | EmptyString => EmptyString
  | String c s' =>
      match rstrip_by p s' with
      | EmptyString => if p c then EmptyString else String c EmptyString
      | r => String c r
      end
  end.

Definition decimal_digit (c : ascii) : option Z :=
  let n := nat_of_ascii c in
  if (48 <=? n)%nat && (n <=? 57)%nat then Some (Z.of_nat (n - 48)) else None.

(** The digits that follow a digit: [acc] is the value read so far. *)
Fixpoint int_digits (acc : Z) (s : string) : option Z :=
  match s with
  | EmptyString => Some acc
  | String c s' =>
      match decimal_digit c with
      | Some d => int_digits (10 * acc + d) s'
      | None =>
          if Ascii.eqb c "_" then
            match s' with
            | String c' s'' =>
                match decimal_digit c' with
                | Some d => int_digits (10 * acc + d) s''
                | None => None
                end
            | EmptyString => None
            end
          else None
      end
  end.

Definition int_literal (s : string) : option Z :=
  match s with
  | String c s' =>
      match decimal_digit c with
      | Some d => int_digits d s'
      | None => None
      end
  | EmptyString => None
  end.

(** The default of [sys.int_max_str_digits]. *)
Definition int_max_str_digits : nat := 4300.

(** The digits of a text; the sign and the underscores do not count. *)
Definition digit_count (s : string) : nat :=
  length (List.filter (fun c => bool_decide (is_Some (decimal_digit c)))
            (list_ascii_of_string s)).

(** A literal with its sign. *)
Definition signed_literal (text : string) : option Z :=
  match text with
  | String "-"%char r => Z.opp <$> int_literal r
  | String "+"%char r => int_literal r
  | r => int_literal r
  end.

(** [int(s)] for a string [s]. *)
Definition int_of_text (s : string) : result Z :=
  let text := rstrip_by is_py_space (lstrip_by is_py_space s) in
  match signed_literal text with
  | Some z =>
      if (int_max_str_digits <? digit_count text)%nat then Raise ValueError
      else Ok z
  | None => Raise ValueError
  end.

(** [int(v)] for any object: a float is cut towards zero. *)
Definition int_of_value (v : PyVal) : result Z :=
  match v with
  | VInt z => Ok z
  | VBool b => Ok (if b then 1 else 0)
  | VFloat q => Ok (Z.quot (Qnum q) (Z.pos (Qden q)))
  | VStr s => int_of_text s
  | _ => Raise TypeError
  end.

(** ** [to_mimicked_id], [from_mimicked_id], [is_mimicked_id] *)
Definition MIMICKED_ID_BASE : Z := 900000.

(** The database id is the integer primary key of the collection. *)
Definition to_mimicked_id (db_id : Z) : string :=
  pretty (- (MIMICKED_ID_BASE + db_id)).

Definition from_mimicked_id (mimicked_id : PyVal) : result Z :=
  let? n := int_of_value mimicked_id in
  Ok (- n - MIMICKED_ID_BASE).

(** [isinstance(item_id, str) and item_id.startswith('-')]; the test raises
    nothing, so the handler around it is never entered. *)
Definition is_mimicked_id (item_id : PyVal) : bool :=
  match item_id with
  | VStr s => String.prefix "-" s
  | _ => false
  end.

(** The part of the routes [MIMICKED_ITEMS_RE] and
    [MIMICKED_ITEM_DETAILS_RE] that stands for the identifier: [-(\d+)]
    matched against a whole path segment of ASCII text. *)
Definition is_decimal (s : string) : bool :=
  forallb (fun c => bool_decide (is_Some (decimal_digit c)))
    (list_ascii_of_string s).

Definition is_negative_number (s : string) : bool :=
  match s with
  | String "-"%char r => negb (String.eqb r "") && is_decimal r
  | _ => false
  end.

(** The range of the integer primary keys of the database. *)
Definition is_row_id (db_id : Z) : Prop := - 2 ^ 63 ≤ db_id < 2 ^ 63.

(** ** [_get_real_emby_url_and_key]

    [config_manager.APP_CONFIG] is the configuration of the application;
    [str.rstrip('/')] exists on strings only. *)
Definition is_slash (c : ascii) : bool := Ascii.eqb c "/".

Definition _get_real_emby_url_and_key (APP_CONFIG : PyDict)
    : result (string * PyVal) :=
  let? base_url :=
    match default (VStr "") (APP_CONFIG !! "emby_server_url") with
    | VStr s => Ok (rstrip_by is_slash s)
    | _ => Raise AttributeError
    end in
  let api_key := default (VStr "") (APP_CONFIG !! "emby_api_key") in
  if negb (py_truthy (VStr base_url)) || negb (py_truthy api_key)
  then Raise ValueError
  else Ok (base_url, api_key).

(** [s.endswith(t)]. *)
Fixpoint endswith (t s : string) : bool :=
  String.eqb s t
  || match s with
     | String _ s' => endswith t s'
     | EmptyString => false
     end.

(** A run of slashes. *)
Definition only_slashes (s : string) : bool :=
  forallb is_slash (list_ascii_of_string s).

(** * Further code: the methods around the pipeline ([core_processor.py])

    The methods that feed the session and the ones that call it reach the
    database, the media server, the files of the local cache and the
    regional provider.  Each such call is recorded as a [Call]; the world
    they act on is the world of the pipeline together with the calls made
    so far, most recent first.  The cache of the processed items is part
    of the world: the entry that a successful session adds to it, right
    after [remove_from_failed_log] has returned, is added by that call. *)
Inductive Call : Type :=
| CallSelectPersons (person_ids : list string)
| CallSelectProcessedLog
| CallGetItemDetails (item_id : PyVal) (fields : option string)
| CallGetSeriesChildren (series_id : PyVal) (include_item_types : option string)
| CallUpdateItemCast (item_id : PyVal) (cast : list PyDict)
| CallDownloadImage (item_id : PyVal) (image_type : string) (path : string)
| CallMakedirs (path : string)
| CallListdir (path : string)
| CallLoadJson (path : string)
| CallMatchInfo (name imdbid mtype : PyVal) (year : string)
| CallGetActing (name douban_id mtype : PyVal)
| CallSubjectDetails (douban_id douban_type : PyVal)
| CallDeleteProcessedLog
| CallGetLibraries
| CallGetLibraryItems (media_type : string) (library_ids : PyVal)
| CallStatus (progress : Z) (message : string).

Record Host (W : Type) : Type := mkHost { inner : W; calls : list Call }.
Arguments mkHost {W} _ _. Arguments inner {W} _. Arguments calls {W} _.

(** What these methods take from outside the file: [emby_handler] returns
    an item record, a list of item records, or [None]; [os] and [json]
    read the local cache; [DoubanApi] answers with dictionaries.  The
    address and the credentials of the server, which every call to
    [emby_handler] repeats, belong to the world. *)
Record Services (W : Type) : Type := {
  (* SELECT * FROM person_identity_map WHERE emby_person_id IN (...) *)
  select_persons : list string → W → W * result (list Row);
  (* SELECT item_id, item_name FROM processed_log *)
  select_processed_log : W → W * result (list Row);
  (* emby_handler *)
  get_emby_item_details : PyVal → option string → W → W * result (option PyDict);
  get_series_children :
    PyVal → option string → W → W * result (option (list PyDict));
  download_emby_image : PyVal → string → string → W → W * result unit;
  (* os.path.exists, os.listdir, os.makedirs, open and json.load *)
  path_exists : string → W → bool;
  listdir : string → W → W * result (list string);
  makedirs : string → W → W * result unit;
  load_json : string → W → W * result PyVal;
  (* DoubanApi.match_info, get_acting, _get_subject_details *)
  match_info : PyVal → PyVal → PyVal → string → W → W * result PyDict;
  get_acting : PyVal → PyVal → PyVal → W → W * result PyDict;
  get_subject_details : PyVal → PyVal → W → W * result PyVal;
  get_emby_libraries : W → W * result (option (list PyDict));
  get_emby_library_items :
    string → PyVal → list (Key * PyVal) → W → W * result (option (list PyDict));
  (* DELETE FROM processed_log *)
  delete_processed_log : W → W * result unit;
  (* self.processed_items_cache: membership and clear() *)
  in_processed_items_cache : PyVal → W → bool;
  clear_processed_items_cache : W → W;
  (* threading.Event.clear on the stop event *)
  stop_event_clear : W → W;
  (* int((a / b) * 100) in floating point *)
  percent_of : nat → nat → Z;
  (* utils.get_override_path_for_item(item_type, tmdb_id, config) *)
  get_override_path_for_item : PyVal → PyVal → PyDict → result PyVal;
}.
Arguments select_persons {W} _. Arguments select_processed_log {W} _.
Arguments get_emby_item_details {W} _. Arguments get_series_children {W} _.
Arguments download_emby_image {W} _. Arguments path_exists {W} _.
Arguments listdir {W} _. Arguments makedirs {W} _. Arguments load_json {W} _.
Arguments match_info {W} _. Arguments get_acting {W} _.
Arguments get_subject_details {W} _. Arguments get_emby_libraries {W} _.
Arguments get_emby_library_items {W} _. Arguments delete_processed_log {W} _.
Arguments in_processed_items_cache {W} _.
Arguments clear_processed_items_cache {W} _. Arguments stop_event_clear {W} _.
Arguments percent_of {W} _. Arguments get_override_path_for_item {W} _.

(** A recorded call. *)
Definition invoke {W A} (c : Call) (f : W → W * result A) : M (Host W) A :=
  fun s =>
    let '(w, r) := f (inner (world s)) in
    (mkSt (mkHost w (c :: calls (world s))) (trace s), r).

(** A reading of the world. *)
Definition observe {W A} (f : W → A) : M (Host W) A :=
  fun s => (s, Ok (f (inner (world s)))).

(** A change of the world that is no call. *)
Definition update {W} (f : W → W) : M (Host W) unit :=
  fun s => (mkSt (mkHost (f (inner (world s))) (calls (world s))) (trace s), Ok ()).

(** A computation of the pipeline, run on the pipeline's part of the
    world. *)
Definition embed {W A} (m : M W A) : M (Host W) A :=
  fun s =>
    let '(s', r) := m (mkSt (inner (world s)) (trace s)) in
    (mkSt (mkHost (world s') (calls (world s))) (trace s'), r).

(** A loop that [break] leaves: the body tells whether to go on. *)
Fixpoint sloop {W A} (body : A → M W bool) (l : list A) : M W unit :=
  match l with
  | [] => sret ()
  | x :: l' =>
      let* go_on := body x in
      if go_on then sloop body l' else sret ()
  end.

(** A loop that [return False] leaves: the body tells whether to go on,
    the loop whether it came to its end. *)
Fixpoint sall {W A} (body : A → M W bool) (l : list A) : M W bool :=
  match l with
  | [] => sret true
  | x :: l' =>
      let* go_on := body x in
      if go_on then sall body l' else sret false
  end.

(** [os.path.join(a, b)] on a POSIX system. *)
Definition path_join (a b : string) : string :=
  if String.prefix "/" b then b
  else if String.eqb a "" || endswith "/" a then a +:+ b
  else a +:+ "/" +:+ b.

(** [FileNotFoundError], raised by [os.listdir] on a missing directory. *)
Definition FileNotFoundError : exn := OtherError "FileNotFoundError".

Definition is_file_not_found (e : exn) : bool :=
  match e with
  | OtherError msg => String.eqb msg "FileNotFoundError"
  | _ => false
  end.

(** [_read_local_json]: [None] for a missing file and for a file that
    cannot be read or parsed. *)
Definition _read_local_json {W} (S : Services W) (file_path : string)
    : M (Host W) PyVal :=
  let* found := observe (path_exists S file_path) in
  if negb found then sret VNone
  else
    try_except
      (invoke (CallLoadJson file_path) (load_json S file_path))
      catch_all (fun _ => sret VNone).

(** All the calls a computation makes satisfy [P], and it makes none of
    the pipeline's calls. *)
Definition makes {W A} (P : Call → Prop) (m : M (Host W) A) : Prop :=
  ∀ s s' r, m s = (s', r) →
    trace s' = trace s
    ∧ ∃ cs, calls (world s') = reverse cs ++ calls (world s) ∧ Forall P cs.

(** ** [MediaProcessor._enrich_cast_from_db_and_api]

    The snapshot of the server's cast is completed with the provider ids
    of the identity store, and, for the members the store does not know,
    with the provider ids of the server's own person records. *)
Section Enrich.
Context {W : Type} (E : Collaborators W) (S : Services W).

(** The members a truthy [cast_list] yields when it is iterated and
    [actor.get] is called on each: a list of dictionaries is what the
    server sends; the characters of a string and the keys of a dictionary
    have no [get], a number cannot be iterated. *)
Definition cast_members (cast_list : PyVal) : result (list PyDict) :=
  match cast_list with
  | VList l => rmap as_dict l
  | VStr _ | VDict _ => Raise AttributeError
  | _ => Raise TypeError
  end.

(** [{str(actor.get("Id")): actor for actor in cast_list if actor.get("Id")}]. *)
Definition original_actor_map_of (cast : list PyDict) : list (string * PyDict) :=
  foldl (fun m actor =>
           if py_truthy (py_get actor "Id")
           then od_set (py_str E (py_get actor "Id")) actor m else m)
        [] cast.

Definition provider_ids_of_row (db_data : PyDict) : PyDict :=
  let provider_ids : PyDict := ∅ in
  let provider_ids :=
    if py_truthy (py_get db_data "tmdb_person_id")
    then <["Tmdb" := VStr (py_str E (py_get db_data "tmdb_person_id"))]> provider_ids
    else provider_ids in
  let provider_ids :=
    if py_truthy (py_get db_data "imdb_id")
    then <["Imdb" := py_get db_data "imdb_id"]> provider_ids
    else provider_ids in
  if py_truthy (py_get db_data "douban_celebrity_id")
  then <["Douban" := VStr (py_str E (py_get db_data "douban_celebrity_id"))]> provider_ids
  else provider_ids.

(** The body of the loop over the rows: [enriched_actors_map] and
    [ids_found_in_db] as they are when the body ends or raises. *)
Definition enrich_row (original_actor_map : list (string * PyDict))
    (st : gmap string PyDict * gset string) (row : Row)
    : (gmap string PyDict * gset string) * result unit :=
  let db_data := dict_of_row row in
  match db_data !! "emby_person_id" with
  | None => (st, Raise KeyError)
  | Some v =>
      let actor_id := py_str E v in
      let ids_found_in_db := {[actor_id]} ∪ st.2 in
      match od_get actor_id original_actor_map with
      | None => ((st.1, ids_found_in_db), Raise KeyError)
      | Some original =>
          let enriched_actor :=
            <["ProviderIds" := VDict (provider_ids_of_row db_data)]> original in
          ((<[actor_id := enriched_actor]> st.1, ids_found_in_db), Ok ())
      end
  end.

(** The loop over the rows inside [try ... except Exception]: the first
    exception ends it, what was recorded before stays. *)
Fixpoint enrich_rows (original_actor_map : list (string * PyDict))
    (st : gmap string PyDict * gset string) (db_results : list Row)
    : gmap string PyDict * gset string :=
  match db_results with
  | [] => st
  | row :: rest =>
      match enrich_row original_actor_map st row with
      | (st', Ok _) => enrich_rows original_actor_map st' rest
      | (st', Raise _) => st'
      end
  end.

(** Stage one: the identity store. *)
Definition enrich_from_db (original_actor_map : list (string * PyDict))
    : M (Host W) (gmap string PyDict * gset string) :=
  let person_ids := od_keys original_actor_map in
  match person_ids with
  | [] => sret (∅, ∅)
  | _ =>
      try_except
        (let* db_results :=
           invoke (CallSelectPersons person_ids) (select_persons S person_ids) in
         sret (enrich_rows original_actor_map (∅, ∅) db_results))
        catch_all (fun _ => sret (∅, ∅))
  end.

(** Stage two, for one person the store did not give. *)
Definition enrich_from_api (original_actor_map : list (string * PyDict))
    (enriched_actors_map : gmap string PyDict) (actor_id : string)
    : M (Host W) (gmap string PyDict) :=
  let* full_detail :=
    invoke (CallGetItemDetails (VStr actor_id) (Some "ProviderIds,Name"))
      (get_emby_item_details S (VStr actor_id) (Some "ProviderIds,Name")) in
  match full_detail with
  | Some d =>
      if py_truthy (VDict d) && py_truthy (py_get d "ProviderIds") then
        match od_get actor_id original_actor_map with
        | Some original =>
            sret (<[actor_id := <["ProviderIds" := py_get d "ProviderIds"]> original]>
                    enriched_actors_map)
        | None => sraise KeyError
        end
      else sret enriched_actors_map
  | None => sret enriched_actors_map
  end.

Definition _enrich_cast_from_db_and_api (cast_list : PyVal)
    : M (Host W) (list PyDict) :=
  if negb (py_truthy cast_list) then sret []
  else
    let* cast := lift (cast_members cast_list) in
    let original_actor_map := original_actor_map_of cast in
    let* '(enriched_actors_map, ids_found_in_db) :=
      enrich_from_db original_actor_map in
    let ids_to_fetch_from_api :=
      filter (fun pid => pid ∉ ids_found_in_db) (od_keys original_actor_map) in
    let* enriched_actors_map :=
      sfoldl (enrich_from_api original_actor_map) enriched_actors_map
        ids_to_fetch_from_api in
    sret ((fun original_actor =>
             default original_actor
               (enriched_actors_map !! py_str E (py_get original_actor "Id")))
          <$> cast).
End Enrich.

(** *** Vocabulary of the statements on the enrichment *)

(** [o] is a copy of a member of [cast] that has an id of the same text as
    [a], with the field [ProviderIds] set anew. *)
Definition enriched_copy {W} (E : Collaborators W) (cast : list PyDict)
    (a o : PyDict) : Prop :=
  ∃ a' p, a' ∈ cast ∧ py_truthy (py_get a' "Id") = true
          ∧ py_str E (py_get a' "Id") = py_str E (py_get a "Id")
          ∧ o = <["ProviderIds" := p]> a'.

(** The calls made between two states, oldest first. *)
Definition calls_between {W} (s s' : St (Host W)) (cs : list Call) : Prop :=
  calls (world s') = reverse cs ++ calls (world s).

Definition detail_lookup (actor_id : string) : Call :=
  CallGetItemDetails (VStr actor_id) (Some "ProviderIds,Name").

(** The server answers every request for an item: with a record or with
    nothing, without raising. *)
Definition details_never_raise {W} (S : Services W) : Prop :=
  ∀ item_id fields w, ∃ w' d, get_emby_item_details S item_id fields w = (w', Ok d).

(** Every entry of [enriched_actors_map] is a member with an id, with new
    provider ids. *)
Definition enriched_from (m : list (string * PyDict))
    (enriched : gmap string PyDict) : Prop :=
  ∀ k o, enriched !! k = Some o →
         ∃ a p, od_get k m = Some a ∧ o = <["ProviderIds" := p]> a.

(** ** [MediaProcessor._batch_update_episodes_cast] and
       [MediaProcessor.process_single_item] *)
Section Episodes.
Context {W : Type} (E : Collaborators W) (S : Services W)
  (self : MediaProcessor).

(** [self.is_stop_requested()], seen from these methods. *)
Definition stop_requested : M (Host W) bool := observe (stop_event_is_set E).

(** The body of the loop over the episodes; [false] is the [break].  The
    pause of 0.2 s after each update is left out: what may happen during
    it happens, in the model, during the update. *)
Definition update_episode (cast_for_emby_handler : list PyDict)
    (episode : PyDict) : M (Host W) bool :=
  let* stop := stop_requested in
  if stop then sret false
  else
    let episode_id := py_get episode "Id" in
    invoke (CallUpdateItemCast episode_id cast_for_emby_handler)
      (update_emby_item_cast E episode_id cast_for_emby_handler);;;
    sret true.

Definition _batch_update_episodes_cast (series_id : PyVal)
    (final_cast_list : list PyDict) : M (Host W) unit :=
  let* episodes :=
    invoke (CallGetSeriesChildren series_id (Some "Episode"))
      (get_series_children S series_id (Some "Episode")) in
  match episodes with
  | None | Some [] => sret ()
  | Some episodes =>
      let cast_for_emby_handler := cast_for_emby_handler_of final_cast_list in
      sloop (update_episode cast_for_emby_handler) episodes
  end.

(** [process_single_item]: the entry of the API mode. *)
Definition process_single_item (emby_item_id : PyVal)
    (force_reprocess_this_item force_fetch_from_tmdb : bool)
    : M (Host W) bool :=
  let* skip :=
    if force_reprocess_this_item then sret false
    else
      lift (hash_key emby_item_id);;;
      observe (in_processed_items_cache S emby_item_id) in
  if skip then sret true
  else
    let* stop := stop_requested in
    if stop then sret false
    else
      let* item_details :=
        invoke (CallGetItemDetails emby_item_id None)
          (get_emby_item_details S emby_item_id None) in
      match item_details with
      | Some d =>
          if py_truthy (VDict d) then
            embed (_process_item_core_logic_api_version E self d
                     force_reprocess_this_item force_fetch_from_tmdb)
          else sret false
      | None => sret false
      end.
End Episodes.

(** *** Vocabulary of the statements on the episodes *)

(** The update of one episode with the cast of the series. *)
Definition episode_update (final_cast_list : list PyDict) (episode : PyDict)
    : Call :=
  CallUpdateItemCast (py_get episode "Id")
    (cast_for_emby_handler_of final_cast_list).

(** The episodes the server lists for a series in a given world. *)
Definition episodes_listed {W} (S : Services W) (series_id : PyVal) (w : W)
    : list PyDict :=
  match (get_series_children S series_id (Some "Episode") w).2 with
  | Ok (Some episodes) => episodes
  | _ => []
  end.

(** No update raises, and no stop is requested while the episodes are
    updated. *)
Definition updates_undisturbed {W} (E : Collaborators W) : Prop :=
  ∀ item_id cast w,
    stop_event_is_set E w = false →
    ∃ w' ok, update_emby_item_cast E item_id cast w = (w', Ok ok)
             ∧ stop_event_is_set E w' = false.

(** ** [MediaProcessor.clear_processed_log] and
       [MediaProcessor.process_full_library] *)
Section Library.
Context {W : Type} (E : Collaborators W) (S : Services W)
  (self : MediaProcessor).

(** The handler of [clear_processed_log] logs and raises again. *)
Definition clear_processed_log : M (Host W) unit :=
  invoke CallDeleteProcessedLog (delete_processed_log S);;;
  update (clear_processed_items_cache S).

(** [if update_status_callback: update_status_callback(progress, message)]. *)
Definition report (update_status_callback : option (Z → string → W → W * result unit))
    (progress : Z) (message : string) : M (Host W) unit :=
  match update_status_callback with
  | Some callback => invoke (CallStatus progress message) (callback progress message)
  | None => sret ()
  end.

(** [{lib.get('Id'): lib.get('Name', '未知库名') for lib in all_emby_libraries}]. *)
Definition library_name_map_of (all_emby_libraries : list PyDict)
    : result (list (Key * PyVal)) :=
  rfoldl (fun m lib =>
            let? k := hash_key (py_get lib "Id") in
            Ok (od_set k (default (VStr "未知库名") (lib !! "Name")) m))
         [] all_emby_libraries.

Definition is_text (v : PyVal) : bool :=
  match v with
  | VStr _ => true
  | _ => false
  end.

(** The names that the log line of a fetch lists:
    [[
      sorted(list({library_name_map.get(item.get('_SourceLibraryId'))
                   for item in items if item.get('_SourceLibraryId')}))
    ]]
    joined by [', '.join].  An id or a name that cannot be hashed, two
    names that cannot be compared and a name that is no string are all a
    [TypeError]; the line has no other effect. *)
Definition source_library_names (library_name_map : list (Key * PyVal))
    (items : list PyDict) : result (list PyVal) :=
  rmap (fun item =>
          let? k := hash_key (py_get item "_SourceLibraryId") in
          let name := default VNone (od_get k library_name_map) in
          let? _ := hash_key name in
          Ok name)
       (filter (fun item => py_truthy (py_get item "_SourceLibraryId") = true)
          items).

Definition log_source_libraries (library_name_map : list (Key * PyVal))
    (items : list PyDict) : result unit :=
  let? names := source_library_names library_name_map items in
  if forallb is_text names then Ok () else Raise TypeError.

(** [f"ID:{item_id}"] and the name of an item as the messages show it. *)
Definition item_name_of (item : PyDict) : string :=
  py_str E (default (VStr ("ID:" +:+ py_str E (py_get item "Id")))
              (item !! "Name")).

(** [time.sleep(float(self.config.get("delay_between_items_sec", 0.5)))]:
    the pause itself is left out, the reading of its length is not. *)
Definition pause_between_items : result unit :=
  let? delay :=
    py_float E (default (VFloat (1 # 2))
                  (config self !! "delay_between_items_sec")) in
  if Qle_bool 0 delay then Ok () else Raise ValueError.

(** The body of the loop over the items; [false] is the [break]. *)
Definition process_library_item
    (update_status_callback : option (Z → string → W → W * result unit))
    (force_reprocess_all force_fetch_from_tmdb : bool) (total : nat)
    (indexed : nat * PyDict) : M (Host W) bool :=
  let '(i, item) := indexed in
  let* stop := stop_requested E in
  if stop then sret false
  else
    let item_id := py_get item "Id" in
    let item_name := item_name_of item in
    let* skip :=
      if force_reprocess_all then sret false
      else
        lift (hash_key item_id);;;
        observe (in_processed_items_cache S item_id) in
    if skip then
      report update_status_callback (percent_of S (i + 1) total)
        ("跳过: " +:+ item_name);;;
      sret true
    else
      report update_status_callback (percent_of S (i + 1) total)
        ("处理中 (" +:+ pretty (i + 1)%nat +:+ "/" +:+ pretty total +:+ "): "
         +:+ item_name);;;
      process_single_item E S self item_id force_reprocess_all
        force_fetch_from_tmdb;;;
      lift pause_between_items;;;
      sret true.

(** The part after the log has been cleared. *)
Definition process_libraries
    (update_status_callback : option (Z → string → W → W * result unit))
    (force_reprocess_all force_fetch_from_tmdb : bool) : M (Host W) unit :=
  let libs_to_process_ids :=
    default (VList []) (config self !! "libraries_to_process") in
  if negb (py_truthy libs_to_process_ids) then sret ()
  else
    let* all_emby_libraries :=
      invoke CallGetLibraries (get_emby_libraries S) in
    let all_emby_libraries := default [] all_emby_libraries in
    let* library_name_map := lift (library_name_map_of all_emby_libraries) in
    let* movies :=
      invoke (CallGetLibraryItems "Movie" libs_to_process_ids)
        (get_emby_library_items S "Movie" libs_to_process_ids library_name_map) in
    let movies := default [] movies in
    let* series :=
      invoke (CallGetLibraryItems "Series" libs_to_process_ids)
        (get_emby_library_items S "Series" libs_to_process_ids library_name_map) in
    let series := default [] series in
    lift (log_source_libraries library_name_map movies);;;
    lift (log_source_libraries library_name_map series);;;
    let all_items := movies ++ series in
    let total := length all_items in
    if bool_decide (total = 0%nat) then
      report update_status_callback 100 "未找到可处理的项目。"
    else
      sloop (process_library_item update_status_callback force_reprocess_all
               force_fetch_from_tmdb total)
        (imap (fun i item => (i, item)) all_items);;;
      let* stop := stop_requested E in
      if negb stop then report update_status_callback 100 "全量处理完成"
      else sret ().

Definition process_full_library
    (update_status_callback : option (Z → string → W → W * result unit))
    (force_reprocess_all force_fetch_from_tmdb : bool) : M (Host W) unit :=
  update (stop_event_clear S);;;
  let* cleared :=
    if force_reprocess_all then
      try_except (clear_processed_log;;; sret true) catch_all
        (fun _ => report update_status_callback (-1) "清空日志失败";;; sret false)
    else sret true in
  if cleared
  then process_libraries update_status_callback force_reprocess_all
         force_fetch_from_tmdb
  else sret ().
End Library.

(** *** Vocabulary of the statements on the library run *)

(** An item names a library that the map of the library names gives no
    text for. *)
Definition names_unknown_library (library_name_map : list (Key * PyVal))
    (item : PyDict) : Prop :=
  py_truthy (py_get item "_SourceLibraryId") = true
  ∧ ∀ k, hash_key (py_get item "_SourceLibraryId") = Ok k →
         is_text (default VNone (od_get k library_name_map)) = false.

(** ** [MediaProcessor._aggregate_series_cast_from_cache]

    The file-based twin of [_aggregate_series_cast_from_tmdb_data]: the
    series is [series.json] of the cache directory, the sub-parts are the
    season and episode files beside it, taken in the order of their
    names. *)

(** [sorted(names)] for strings: the order of the code points, which is
    the order of the bytes of their UTF-8 encoding. *)
Fixpoint insert_string (x : string) (l : list string) : list string :=
  match l with
  | [] => [x]
  | y :: l' => if String.leb x y then x :: l else y :: insert_string x l'
  end.

Definition sorted_strings (l : list string) : list string :=
  foldr insert_string [] l.

Section CacheAggregation.
Context {W : Type} (E : Collaborators W) (S : Services W).

(** [f != base_json_filename and f.startswith("season-") and
    f.lower().endswith(".json")]. *)
Definition is_child_json (base_json_filename f : string) : bool :=
  negb (String.eqb f base_json_filename)
  && String.prefix "season-" f
  && endswith ".json" (py_lower E f).

(** The body of the loop over the child files. *)
Definition add_child_file (base_cache_dir : string) (m : cast_map)
    (json_filename : string) : M (Host W) cast_map :=
  let file_path := path_join base_cache_dir json_filename in
  let* child_data := _read_local_json S file_path in
  if negb (py_truthy child_data) then sret m
  else
    let* child_data := lift (as_dict child_data) in
    let* actors_to_process := lift (episode_actors child_data) in
    lift (rfoldl add_episode_actor m actors_to_process).

(** The handler of the scan is for [FileNotFoundError], which only
    [os.listdir] raises there: the map is then as it was before the
    scan. *)
Definition _aggregate_series_cast_from_cache (base_cache_dir : string)
    : M (Host W) (list PyDict) :=
  let base_json_filename := "series.json" in
  let main_series_json_path := path_join base_cache_dir base_json_filename in
  let* main_data := _read_local_json S main_series_json_path in
  let* aggregated_cast_map :=
    if py_truthy main_data then
      let* main_data := lift (as_dict main_data) in
      let* main_cast := lift (main_cast_of main_data) in
      lift (rfoldl add_main_actor [] main_cast)
    else sret [] in
  let* aggregated_cast_map :=
    try_except
      (let* names :=
         invoke (CallListdir base_cache_dir) (listdir S base_cache_dir) in
       let child_json_files :=
         filter (fun f => is_child_json base_json_filename f = true) names in
       sfoldl (add_child_file base_cache_dir) aggregated_cast_map
         (sorted_strings child_json_files))
      is_file_not_found (fun _ => sret aggregated_cast_map) in
  lift (py_sort_by order_key (od_values aggregated_cast_map)).
End CacheAggregation.

(** *** Vocabulary of the statements on the cache *)

(** [_read_local_json] gives [v] for a path, in whatever state it is
    called. *)
Definition reads_as {W} (S : Services W) (file_path : string) (v : PyVal)
    : Prop :=
  ∀ s, ∃ s', _read_local_json S file_path s = (s', Ok v).

(** The record a file stands for: its dictionary, or the empty record
    when the file is missing, unreadable or holds nothing. *)
Definition cached_record (v : PyVal) (d : PyDict) : Prop :=
  v = VDict d ∨ (py_truthy v = false ∧ d = ∅).

(** The season and episode files of a listing, in the order of the scan. *)
Definition child_files {W} (E : Collaborators W) (names : list string)
    : list string :=
  sorted_strings
    (filter (fun f => is_child_json E "series.json" f = true) names).

(** The listing of a directory, in whatever state it is asked for. *)
Definition lists_as {W} (S : Services W) (dir : string)
    (r : result (list string)) : Prop :=
  ∀ w, ∃ w', listdir S dir w = (w', r).

(** The exceptions of a wrong type of value. *)
Definition type_error (err : exn) : Prop :=
  err = AttributeError ∨ err = TypeError.

(** ** [MediaProcessor._find_local_douban_json] and
       [MediaProcessor._get_douban_data_with_local_cache]

    [local_data_path] is the attribute of that name, taken from the
    configuration when the processor is made. *)
Section DoubanData.
Context {W : Type} (E : Collaborators W) (S : Services W)
  (self : MediaProcessor) (local_data_path : string).

(** The first file of a folder that ends in [.json]. *)
Definition first_json (dir_path : string) (filenames : list string)
    : option string :=
  path_join dir_path
  <$> head (filter (fun filename => endswith ".json" filename = true) filenames).

(** The loop over the folders of the cache: the first folder that matches
    and holds a JSON file gives the result. *)
Fixpoint search_dirs (matches : string → result bool)
    (douban_cache_dir : string) (dirnames : list string)
    : M (Host W) (option string) :=
  match dirnames with
  | [] => sret None
  | dirname :: rest =>
      let* hit := lift (matches dirname) in
      if hit then
        let dir_path := path_join douban_cache_dir dirname in
        let* filenames := invoke (CallListdir dir_path) (listdir S dir_path) in
        match first_json dir_path filenames with
        | Some p => sret (Some p)
        | None => search_dirs matches douban_cache_dir rest
        end
      else search_dirs matches douban_cache_dir rest
  end.

(** [if dirname.startswith('0_'): continue], then [imdb_id in dirname]:
    only a string can be looked for in a string. *)
Definition imdb_dir_matches (imdb_id : PyVal) (dirname : string) : result bool :=
  if String.prefix "0_" dirname then Ok false
  else match imdb_id with
       | VStr i => Ok (is_substring i dirname)
       | _ => Raise TypeError
       end.

(** [dirname.startswith(f"{douban_id}_")]. *)
Definition douban_dir_matches (douban_id : PyVal) (dirname : string)
    : result bool :=
  Ok (String.prefix (py_str E douban_id +:+ "_") dirname).

Definition _find_local_douban_json (imdb_id douban_id : PyVal)
    (douban_cache_dir : string) : M (Host W) (option string) :=
  let* found := observe (path_exists S douban_cache_dir) in
  if negb found then sret None
  else
    let* by_imdb :=
      if py_truthy imdb_id then
        let* dirnames :=
          invoke (CallListdir douban_cache_dir) (listdir S douban_cache_dir) in
        search_dirs (imdb_dir_matches imdb_id) douban_cache_dir dirnames
      else sret None in
    match by_imdb with
    | Some p => sret (Some p)
    | None =>
        if py_truthy douban_id then
          let* dirnames :=
            invoke (CallListdir douban_cache_dir) (listdir S douban_cache_dir) in
          search_dirs (douban_dir_matches douban_id) douban_cache_dir dirnames
        else sret None
    end.

(** [data.get("rating", {}).get("value")], read as a number when it can
    be. *)
Definition rating_of (data : PyDict) : result (option Q) :=
  let? rating := as_dict (default (VDict ∅) (data !! "rating")) in
  let rating_str := py_get rating "value" in
  if py_truthy rating_str then
    match py_float E rating_str with
    | Ok q => Ok (Some q)
    | Raise ValueError | Raise TypeError => Ok None
    | Raise e => Raise e
    end
  else Ok None.

(** The online path. *)
Definition douban_data_online (item_name imdb_id item_type : PyVal)
    (item_year : string) : M (Host W) (PyVal * option Q) :=
  if negb (douban_api self) then sraise AttributeError
  else
    let* match_info_result :=
      invoke (CallMatchInfo item_name imdb_id item_type item_year)
        (match_info S item_name imdb_id item_type item_year) in
    if py_truthy (py_get match_info_result "error")
       || negb (py_truthy (py_get match_info_result "id"))
    then sret (VList [], None)
    else
      let douban_id := py_get match_info_result "id" in
      let douban_type := py_get match_info_result "type" in
      if negb (py_truthy douban_type) then sret (VList [], None)
      else
        let* cast_data :=
          invoke (CallGetActing item_name douban_id douban_type)
            (get_acting S item_name douban_id douban_type) in
        let douban_cast_raw := default (VList []) (cast_data !! "cast") in
        let* details_data :=
          invoke (CallSubjectDetails douban_id douban_type)
            (get_subject_details S douban_id douban_type) in
        let* douban_rating :=
          if py_truthy details_data then
            let* details_data := lift (as_dict details_data) in
            if negb (py_truthy (py_get details_data "error"))
            then lift (rating_of details_data)
            else sret None
          else sret None in
        sret (douban_cast_raw, douban_rating).

Definition _get_douban_data_with_local_cache (media_info : PyDict)
    : M (Host W) (PyVal * option Q) :=
  let* provider_ids :=
    lift (as_dict (default (VDict ∅) (media_info !! "ProviderIds"))) in
  let item_name := default (VStr "") (media_info !! "Name") in
  let imdb_id := py_get provider_ids "Imdb" in
  let douban_id_from_provider := py_get provider_ids "Douban" in
  let item_type := py_get media_info "Type" in
  let item_year :=
    py_str E (default (VStr "") (media_info !! "ProductionYear")) in
  let douban_cache_dir_name :=
    if is_str "Movie" item_type then "douban-movies" else "douban-tv" in
  let douban_cache_path :=
    path_join (path_join local_data_path "cache") douban_cache_dir_name in
  let* local_json_path :=
    _find_local_douban_json imdb_id douban_id_from_provider douban_cache_path in
  let online := douban_data_online item_name imdb_id item_type item_year in
  match local_json_path with
  | Some p =>
      if negb (String.eqb p "") then
        let* douban_data := _read_local_json S p in
        if py_truthy douban_data then
          let* douban_data := lift (as_dict douban_data) in
          let cast := default (VList []) (douban_data !! "actors") in
          let* rating_float := lift (rating_of douban_data) in
          sret (cast, rating_float)
        else online
      else online
  | None => online
  end.
End DoubanData.

(** *** Vocabulary of the statements on the regional data *)
Definition is_file_call (c : Call) : Prop :=
  match c with
  | CallListdir _ | CallLoadJson _ => True
  | _ => False
  end.

Definition is_provider_call (c : Call) : Prop :=
  match c with
  | CallMatchInfo _ _ _ _ | CallGetActing _ _ _ | CallSubjectDetails _ _ => True
  | _ => False
  end.

Definition douban_call (c : Call) : Prop := is_file_call c ∨ is_provider_call c.

(** ** The JSON builders ([_build_movie_json], [_build_series_json],
       [_build_season_json], [_build_episode_json])

    Each builder copies a fixed set of fields of the source record, with a
    default where the source has none, and sets the credits to the
    processed cast and crew. *)

(** [source_data.get(k, default)]. *)
Definition get_or (d : PyDict) (k : string) (dflt : PyVal) : PyVal :=
  default dflt (d !! k).

Definition no_results : PyVal := VDict {["results" := VList []]}.

Definition cast_and_crew (processed_cast processed_crew : list PyDict) : PyDict :=
  <["cast" := VList (VDict <$> processed_cast)]>
    {["crew" := VList (VDict <$> processed_crew)]}.

Definition _build_movie_json (source_data : PyDict)
    (processed_cast processed_crew : list PyDict) : result PyDict :=
  let final_json : PyDict :=
    <["id" := py_get source_data "id"]>
    (<["imdb_id" := py_get source_data "imdb_id"]>
    (<["title" := get_or source_data "title" (VStr "")]>
    (<["original_title" := get_or source_data "original_title" (VStr "")]>
    (<["overview" := get_or source_data "overview" (VStr "")]>
    (<["tagline" := get_or source_data "tagline" (VStr "")]>
    (<["release_date" := get_or source_data "release_date" (VStr "")]>
    (<["vote_average" := get_or source_data "vote_average" (VFloat 0)]>
    (<["production_countries" :=
         get_or source_data "production_countries" (VList [])]>
    (<["production_companies" :=
         get_or source_data "production_companies" (VList [])]>
    (<["genres" := get_or source_data "genres" (VList [])]>
    (<["belongs_to_collection" := py_get source_data "belongs_to_collection"]>
    (<["videos" := get_or source_data "videos" no_results]>
    {["external_ids" := get_or source_data "external_ids" (VDict ∅)]}))))))))))))
  in
  let final_json :=
    <["casts" := VDict (cast_and_crew processed_cast processed_crew)]> final_json in
  if negb (py_truthy (py_get final_json "imdb_id")) then
    let? external_ids := as_dict (get_or final_json "external_ids" (VDict ∅)) in
    Ok (<["imdb_id" := get_or external_ids "imdb_id" (VStr "")]> final_json)
  else Ok final_json.

Definition _build_series_json (source_data : PyDict)
    (processed_cast processed_crew : list PyDict) : PyDict :=
  let final_json : PyDict :=
    <["id" := py_get source_data "id"]>
    (<["name" := get_or source_data "name" (VStr "")]>
    (<["original_name" := get_or source_data "original_name" (VStr "")]>
    (<["overview" := get_or source_data "overview" (VStr "")]>
    (<["vote_average" := get_or source_data "vote_average" (VFloat 0)]>
    (<["episode_run_time" := get_or source_data "episode_run_time" (VList [])]>
    (<["first_air_date" := py_get source_data "first_air_date"]>
    (<["last_air_date" := py_get source_data "last_air_date"]>
    (<["status" := get_or source_data "status" (VStr "")]>
    (<["genres" := get_or source_data "genres" (VList [])]>
    (<["external_ids" := get_or source_data "external_ids" (VDict ∅)]>
    (<["videos" := get_or source_data "videos" no_results]>
    (<["content_ratings" := get_or source_data "content_ratings" no_results]>
    (<["networks" := get_or source_data "networks" (VList [])]>
    {["origin_country" := get_or source_data "origin_country" (VList [])]})))))))))))))
  in
  <["credits" := VDict (cast_and_crew processed_cast processed_crew)]> final_json.

Definition _build_season_json (source_data : PyDict)
    (processed_cast processed_crew : list PyDict) : PyDict :=
  <["name" := get_or source_data "name" (VStr "")]>
  (<["overview" := get_or source_data "overview" (VStr "")]>
  (<["air_date" := get_or source_data "air_date" (VStr "1970-01-01T00:00:00.000Z")]>
  (<["external_ids" :=
       get_or source_data "external_ids" (VDict {["tvdb_id" := VNone]})]>
  {["credits" := VDict (cast_and_crew processed_cast processed_crew)]}))).

Definition _build_episode_json (source_data : PyDict)
    (processed_cast processed_crew : list PyDict) : PyDict :=
  <["name" := get_or source_data "name" (VStr "")]>
  (<["overview" := get_or source_data "overview" (VStr "")]>
  (<["videos" := get_or source_data "videos" no_results]>
  (<["external_ids" :=
       get_or source_data "external_ids"
         (VDict (<["tvdb_id" := VNone]>
                   (<["tvrage_id" := VNone]> {["imdb_id" := VStr ""]})))]>
  (<["air_date" := get_or source_data "air_date" (VStr "1970-01-01T00:00:00.000Z")]>
  (<["vote_average" := get_or source_data "vote_average" (VFloat 0)]>
  {["credits" :=
      VDict (<["guest_stars" := VList []]>
               (cast_and_crew processed_cast processed_crew))]}))))).

(** *** Vocabulary of the statements on the builders *)
Definition movie_template : gset string :=
  list_to_set
    ["id"; "imdb_id"; "title"; "original_title"; "overview"; "tagline";
     "release_date"; "vote_average"; "production_countries";
     "production_companies"; "genres"; "belongs_to_collection"; "videos";
     "external_ids"; "casts"].

Definition series_template : gset string :=
  list_to_set
    ["id"; "name"; "original_name"; "overview"; "vote_average";
     "episode_run_time"; "first_air_date"; "last_air_date"; "status";
     "genres"; "external_ids"; "videos"; "content_ratings"; "networks";
     "origin_country"; "credits"].

Definition season_template : gset string :=
  list_to_set ["name"; "overview"; "air_date"; "external_ids"; "credits"].

Definition episode_template : gset string :=
  list_to_set
    ["name"; "overview"; "videos"; "external_ids"; "air_date"; "vote_average";
     "credits"].

(** The cast of a rebuilt file, as the aggregation reads it. *)
Definition records (l : list PyDict) : list PyVal := VDict <$> l.

(** ** [MediaProcessor.sync_item_images] and
       [MediaProcessor.sync_all_images] *)
Section Images.
Context {W : Type} (E : Collaborators W) (S : Services W)
  (self : MediaProcessor) (local_data_path : string).

(** The images of an item and their file names, in the order of the
    dictionary. *)
Definition full_image_map_of (item_type : PyVal) : list (string * string) :=
  [("Primary", "poster.jpg"); ("Backdrop", "fanart.jpg");
   ("Logo", "clearlogo.png")]
  ++ (if is_str "Movie" item_type then [("Thumb", "landscape.jpg")] else []).

Definition keyword_map : list (string * string) :=
  [("primary", "Primary"); ("backdrop", "Backdrop"); ("logo", "Logo");
   ("thumb", "Thumb"); ("banner", "Banner")].

(** The loop over the keywords: the first keyword that occurs in the
    description and names an image of the item. *)
Definition precise_image (desc_lower : string)
    (full_image_map : list (string * string)) : option (string * string) :=
  head (omap (fun '(keyword, image_type_api) =>
                if is_substring keyword desc_lower
                then pair image_type_api <$> od_get image_type_api full_image_map
                else None)
             keyword_map).

(** [images_to_sync]; only a string has [lower]. *)
Definition images_to_sync_of (update_description : PyVal)
    (full_image_map : list (string * string))
    : result (list (string * string)) :=
  if py_truthy update_description then
    match update_description with
    | VStr d =>
        match precise_image (py_lower E d) full_image_map with
        | Some image => Ok [image]
        | None => Ok full_image_map
        end
    | _ => Raise AttributeError
    end
  else Ok full_image_map.

Definition download (item_id : PyVal) (image_type path : string)
    : M (Host W) unit :=
  invoke (CallDownloadImage item_id image_type path)
    (download_emby_image S item_id image_type path).

(** The body of the loop over the images; [false] is [return False]. *)
Definition sync_image (item_id : PyVal) (image_override_dir : string)
    (image : string * string) : M (Host W) bool :=
  let* stop := stop_requested E in
  if stop then sret false
  else
    download item_id image.1 (path_join image_override_dir image.2);;;
    sret true.

Definition is_none (v : PyVal) : bool :=
  match v with
  | VNone => true
  | _ => false
  end.

(** The body of the loop over the children of a series. *)
Definition sync_child (image_override_dir : string) (child : PyDict)
    : M (Host W) bool :=
  let* stop := stop_requested E in
  if stop then sret false
  else
    let child_type := py_get child "Type" in
    let child_id := py_get child "Id" in
    (if is_str "Season" child_type then
       let season_number := py_get child "IndexNumber" in
       if negb (is_none season_number) then
         download child_id "Primary"
           (path_join image_override_dir
              ("season-" +:+ py_str E season_number +:+ ".jpg"))
       else sret ()
     else if is_str "Episode" child_type then
       let season_number := py_get child "ParentIndexNumber" in
       let episode_number := py_get child "IndexNumber" in
       if negb (is_none season_number) && negb (is_none episode_number) then
         download child_id "Primary"
           (path_join image_override_dir
              ("season-" +:+ py_str E season_number +:+ "-episode-"
               +:+ py_str E episode_number +:+ ".jpg"))
       else sret ()
     else sret ());;;
    sret true.

(** A component of a path has to be a string. *)
Definition path_component (v : PyVal) : result string :=
  match v with
  | VStr s => Ok s
  | _ => Raise TypeError
  end.

Definition sync_item_images (item_details : PyDict) (update_description : PyVal)
    : M (Host W) bool :=
  let item_id := py_get item_details "Id" in
  let item_type := py_get item_details "Type" in
  if negb (py_truthy item_id && py_truthy item_type
           && py_truthy (VStr local_data_path))
  then sret false
  else
    try_except
      (let* tmdb_id := lift (provider_tmdb item_details) in
       if negb (py_truthy tmdb_id) then sret false
       else
         let cache_folder_name :=
           if is_str "Movie" item_type then "tmdb-movies2" else "tmdb-tv" in
         let* tmdb_id := lift (path_component tmdb_id) in
         let base_override_dir :=
           path_join
             (path_join (path_join local_data_path "override") cache_folder_name)
             tmdb_id in
         let image_override_dir := path_join base_override_dir "images" in
         invoke (CallMakedirs image_override_dir)
           (makedirs S image_override_dir);;;
         let full_image_map := full_image_map_of item_type in
         let* images_to_sync :=
           lift (images_to_sync_of update_description full_image_map) in
         let* finished :=
           sall (sync_image item_id image_override_dir) images_to_sync in
         if negb finished then sret false
         else if bool_decide (images_to_sync = full_image_map)
                 && is_str "Series" item_type
         then
           let* children :=
             invoke (CallGetSeriesChildren item_id None)
               (get_series_children S item_id None) in
           sall (sync_child image_override_dir) (default [] children)
         else sret true)
      catch_all (fun _ => sret false).

(** The part of [sync_all_images] that is inside [try ... except
    Exception] for one row of the processed log. *)
Definition sync_logged_item (item_id : PyVal) : M (Host W) unit :=
  let* item_details :=
    invoke (CallGetItemDetails item_id None)
      (get_emby_item_details S item_id None) in
  match item_details with
  | None => sret ()
  | Some item_details =>
      if negb (py_truthy (VDict item_details)) then sret ()
      else
        let* tmdb_id := lift (provider_tmdb item_details) in
        let item_type := py_get item_details "Type" in
        if negb (py_truthy tmdb_id) then sret ()
        else
          let* override_path :=
            lift (get_override_path_for_item S item_type tmdb_id (config self)) in
          if negb (py_truthy override_path) then sret ()
          else
            let* override_path := lift (path_component override_path) in
            let image_override_dir := path_join override_path "images" in
            invoke (CallMakedirs image_override_dir)
              (makedirs S image_override_dir);;;
            sfoldl (fun _ image =>
                      download item_id image.1
                        (path_join image_override_dir image.2))
              () (full_image_map_of item_type);;;
            if is_str "Series" item_type then
              let* children :=
                invoke (CallGetSeriesChildren item_id None)
                  (get_series_children S item_id None) in
              sfoldl (fun _ child =>
                        if is_str "Season" (py_get child "Type") then
                          let season_number := py_get child "IndexNumber" in
                          if negb (is_none season_number) then
                            download (py_get child "Id") "Primary"
                              (path_join image_override_dir
                                 ("season-" +:+ py_str E season_number
                                  +:+ ".jpg"))
                          else sret ()
                        else sret ())
                () (default [] children)
            else sret ()
  end.

(** The body of the loop over the rows; [false] is the [break]. *)
Definition sync_logged_row
    (update_status_callback : option (Z → string → W → W * result unit))
    (total : nat) (indexed : nat * Row) : M (Host W) bool :=
  let '(i, db_row) := indexed in
  let* stop := stop_requested E in
  if stop then sret false
  else
    let* item_id := lift (row_get db_row "item_id") in
    let* item_name_from_db := lift (row_get db_row "item_name") in
    if negb (py_truthy item_id) then sret true
    else
      report update_status_callback (percent_of S i total)
        ("同步图片 (" +:+ pretty (i + 1)%nat +:+ "/" +:+ pretty total +:+ "): "
         +:+ py_str E item_name_from_db);;;
      try_except (sync_logged_item item_id) catch_all (fun _ => sret ());;;
      sret true.

Definition sync_all_images
    (update_status_callback : option (Z → string → W → W * result unit))
    : M (Host W) unit :=
  let* items_to_process :=
    try_except
      (let* rows := invoke CallSelectProcessedLog (select_processed_log S) in
       sret (Some rows))
      catch_all
      (fun _ => report update_status_callback (-1) "数据库错误";;; sret None) in
  match items_to_process with
  | None => sret ()
  | Some items_to_process =>
      let total := length items_to_process in
      if bool_decide (total = 0%nat) then
        report update_status_callback 100 "没有项目"
      else
        sloop (sync_logged_row update_status_callback total)
          (imap (fun i db_row => (i, db_row)) items_to_process)
  end.
End Images.

(** *** Vocabulary of the statements on the images *)
Definition is_download (c : Call) : bool :=
  match c with
  | CallDownloadImage _ _ _ => true
  | _ => false
  end.

Definition is_children_listing (c : Call) : bool :=
  match c with
  | CallGetSeriesChildren _ _ => true
  | _ => false
  end.

Definition is_details_request (c : Call) : bool :=
  match c with
  | CallGetItemDetails _ _ => true
  | _ => false
  end.

(** The rows of the processed log that name an item. *)
Definition logged_ids (rows : list Row) : list PyVal :=
  omap (fun row =>
          match row_get row "item_id" with
          | Ok item_id => if py_truthy item_id then Some item_id else None
          | Raise _ => None
          end) rows.

Definition well_formed_row (row : Row) : Prop :=
  is_Some (od_get "item_id" row) ∧ is_Some (od_get "item_name" row).

(** A call that leaves the stop event unset when it finds it unset. *)
Definition keeps_running {W A} (E : Collaborators W) (f : W → W * result A)
    : Prop :=
  ∀ w, stop_event_is_set E w = false → stop_event_is_set E (f w).1 = false.

(** No stop is requested while the server and the file system are at
    work on the images. *)
Definition sync_undisturbed {W} (E : Collaborators W) (S : Services W) : Prop :=
  (∀ item_id fields, keeps_running E (get_emby_item_details S item_id fields))
  ∧ (∀ item_id types, keeps_running E (get_series_children S item_id types))
  ∧ (∀ item_id image_type path,
       keeps_running E (download_emby_image S item_id image_type path))
  ∧ (∀ path, keeps_running E (makedirs S path)).

(** A computation that leaves the stop event unset when it finds it
    unset. *)
Definition stays_running {W A} (E : Collaborators W) (m : M (Host W) A)
    : Prop :=
  ∀ s s' r, m s = (s', r) →
    stop_event_is_set E (inner (world s)) = false →
    stop_event_is_set E (inner (world s')) = false.

(** ** A concrete set of services

    Used to run the further methods on explicit inputs, with the
    collaborators of [Demo].  The world is the stop flag; the files are a
    list of paths with their JSON content, the folders a listing for each
    path; the database, the server and the regional provider answer as the
    example at hand says.  The percentage of the progress is computed on
    integers. *)
Module Stage.
Definition say {A} (r : result A) (w : bool) : bool * result A := (w, r).

Definition services
    (persons : result (list Row))
    (details : PyVal → result (option PyDict))
    (children : result (option (list PyDict)))
    (folders : string → result (list string))
    (documents : list (string * PyVal))
    (libraries : option (list PyDict))
    (items : string → option (list PyDict))
    (stop_after_fetch : bool)
    (processed : PyVal → bool)
    : Services bool :=
  {| select_persons := fun _ => say persons;
     select_processed_log := say (Ok []);
     get_emby_item_details := fun item_id _ => say (details item_id);
     get_series_children := fun _ _ => say children;
     download_emby_image := fun _ _ _ => say (Ok ());
     path_exists := fun p _ =>
       od_mem p documents
       || match folders p with Ok _ => true | Raise _ => false end;
     listdir := fun p => say (folders p);
     makedirs := fun _ => say (Ok ());
     load_json := fun p =>
       say (match od_get p documents with
            | Some v => Ok v
            | None => Raise FileNotFoundError
            end);
     match_info := fun _ _ _ _ => say (Ok ∅);
     get_acting := fun _ _ _ => say (Ok ∅);
     get_subject_details := fun _ _ => say (Ok VNone);
     get_emby_libraries := say (Ok libraries);
     get_emby_library_items := fun kind _ _ w =>
       (w || stop_after_fetch, Ok (items kind));
     delete_processed_log := say (Ok ());
     in_processed_items_cache := fun item_id _ => processed item_id;
     clear_processed_items_cache := fun w => w;
     stop_event_clear := fun _ => false;
     percent_of := fun a b => (Z.of_nat a * 100) `div` Z.of_nat b;
     get_override_path_for_item := fun item_type tmdb_id _ =>
       Ok (VStr ("/data/override/" +:+ Demo.clean tmdb_id)) |}.

Definition no_folder (p : string) : result (list string) :=
  Raise FileNotFoundError.

(** A server that has nothing and a database that is empty. *)
Definition bare : Services bool :=
  services (Ok []) (fun _ => Ok None) (Ok None) no_folder [] None
    (fun _ => None) false (fun _ => false).

Definition start (stop : bool) : St (Host bool) := mkSt (mkHost stop []) [].

(** *** The snapshot of a title and the identity store *)
Definition john : PyDict :=
  <["Id" := VStr "p1"]> {["Name" := VStr "John"]}.
Definition jane : PyDict :=
  <["Id" := VStr "p2"]> {["Name" := VStr "Jane"]}.
Definition extra : PyDict := {["Name" := VStr "Extra"]}.
Definition snapshot : list PyDict := [john; jane; extra].

Definition john_row : Row :=
  [("emby_person_id", VStr "p1"); ("tmdb_person_id", VInt 1);
   ("imdb_id", VStr "nm1"); ("douban_celebrity_id", VNone)].

Definition jane_details (item_id : PyVal) : result (option PyDict) :=
  Ok (if is_str "p2" item_id
      then Some (<["Id" := VStr "p2"]>
                   {["ProviderIds" := VDict {["Tmdb" := VStr "2"]}]})
      else None).

(** The store knows John, the server knows Jane. *)
Definition known : Services bool :=
  services (Ok [john_row]) jane_details (Ok None) no_folder [] None
    (fun _ => None) false (fun _ => false).

(** The store fails. *)
Definition store_down : Services bool :=
  services (Raise SqliteError) jane_details (Ok None) no_folder [] None
    (fun _ => None) false (fun _ => false).

Definition enriched_run : St (Host bool) * result (list PyDict) :=
  Eval vm_compute in
    _enrich_cast_from_db_and_api Demo.plain known (VList (VDict <$> snapshot))
      (start false).

Definition enriched_cast : list PyDict :=
  match enriched_run.2 with
  | Ok l => l
  | Raise _ => []
  end.

(** *** A series with two episodes *)
Definition pilot : PyDict := <["Id" := VStr "e1"]> {["Name" := VStr "Pilot"]}.
Definition finale : PyDict := <["Id" := VStr "e2"]> {["Name" := VStr "Finale"]}.

Definition two_episodes : Services bool :=
  services (Ok []) (fun _ => Ok None) (Ok (Some [pilot; finale])) no_folder []
    None (fun _ => None) false (fun _ => false).

Definition final_cast : list PyDict :=
  [<["name" := VStr "John"]> {["character" := VStr "Lead"]}].

Definition episodes_run : St (Host bool) * result unit :=
  Eval vm_compute in
    _batch_update_episodes_cast Demo.plain two_episodes (VStr "s1") final_cast
      (start false).

(** *** The processed cache *)
Definition seen (item_id : PyVal) : bool := is_str "i1" item_id.

Definition seen_before : Services bool :=
  services (Ok []) (fun _ => Ok None) (Ok None) no_folder [] None
    (fun _ => None) false seen.

(** *** The local cache of a series *)
Definition series_dir : string := "/data/cache/tmdb-tv/55".

Definition series_folder (p : string) : result (list string) :=
  if String.eqb p series_dir
  then Ok ["series.json"; "season-1-episode-2.json"; "notes.txt";
           "season-1-episode-1.json"]
  else Raise FileNotFoundError.

Definition second_episode : PyDict :=
  {["credits" := VDict {["cast" := VList [VDict Demo.jane]]}]}.

Definition series_files : list (string * PyVal) :=
  [("/data/cache/tmdb-tv/55/series.json", VDict Demo.series_with_john);
   ("/data/cache/tmdb-tv/55/season-1-episode-1.json", VDict Demo.episode);
   ("/data/cache/tmdb-tv/55/season-1-episode-2.json", VDict second_episode)].

Definition cached_series : Services bool :=
  services (Ok []) (fun _ => Ok None) (Ok None) series_folder series_files None
    (fun _ => None) false (fun _ => false).

(** Only [series.json] is there, in no directory that can be listed. *)
Definition lone_series : Services bool :=
  services (Ok []) (fun _ => Ok None) (Ok None) no_folder series_files None
    (fun _ => None) false (fun _ => false).

(** *** The local cache of the regional data *)
Definition douban_folder (p : string) : result (list string) :=
  if String.eqb p "/data/cache/douban-movies" then Ok ["0_tt55"; "1234_tt55"]
  else if String.eqb p "/data/cache/douban-movies/1234_tt55"
  then Ok ["cover.jpg"; "1234.json"]
  else Raise FileNotFoundError.

Definition douban_record : PyDict :=
  <["actors" := VList [VDict Demo.yuehan]]>
    {["rating" := VDict {["value" := VStr "8"]}]}.

Definition douban_files : list (string * PyVal) :=
  [("/data/cache/douban-movies/1234_tt55/1234.json", VDict douban_record)].

Definition cached_douban : Services bool :=
  services (Ok []) (fun _ => Ok None) (Ok None) douban_folder douban_files None
    (fun _ => None) false (fun _ => false).

Definition movie : PyDict :=
  <["Id" := VStr "i1"]>
    (<["Type" := VStr "Movie"]>
       {["ProviderIds" := VDict {["Imdb" := VStr "tt55"]}]}).

Definition found_json : St (Host bool) * result (option string) :=
  Eval vm_compute in
    _find_local_douban_json Demo.plain cached_douban (VStr "tt55") VNone
      "/data/cache/douban-movies" (start false).


(** *** The libraries of the server *)
Definition films : PyDict :=
  <["Id" := VStr "lib1"]> {["Name" := VStr "Films"]}.

Definition library_config : PyDict :=
  {["libraries_to_process" := VList [VStr "lib1"]]}.

(** An item of a library the server does not list, and one of [films]. *)
Definition stray : PyDict :=
  <["Id" := VStr "i7"]> {["_SourceLibraryId" := VStr "lib2"]}.
Definition listed : PyDict :=
  <["Id" := VStr "i8"]> {["_SourceLibraryId" := VStr "lib1"]}.

Definition movies_only (l : list PyDict) (kind : string)
    : option (list PyDict) :=
  if String.eqb kind "Movie" then Some l else None.

Definition with_stray : Services bool :=
  services (Ok []) (fun _ => Ok None) (Ok None) no_folder [] (Some [films])
    (movies_only [stray]) false (fun _ => false).

Definition stopped_meanwhile : Services bool :=
  services (Ok []) (fun _ => Ok None) (Ok None) no_folder [] (Some [films])
    (movies_only [listed]) true (fun _ => false).

Definition film_names : list (Key * PyVal) := [(KStr "lib1", VStr "Films")].

(** *** A movie record of the provider *)
Definition movie_source : PyDict :=
  <["id" := VInt 55]>
    (<["title" := VStr "A Film"]>
       (<["adult" := VBool false]>
          {["external_ids" := VDict {["imdb_id" := VStr "tt55"]}]})).

Definition rebuilt_movie : result PyDict :=
  Eval vm_compute in _build_movie_json movie_source [Demo.john] [].
(** *** The images of a series *)
Definition show : PyDict :=
  <["Id" := VStr "s1"]>
    (<["Type" := VStr "Series"]>
       (<["Name" := VStr "A Show"]>
          {["ProviderIds" := VDict {["Tmdb" := VStr "55"]}]})).

Definition first_season : PyDict :=
  <["Id" := VStr "s1-1"]>
    (<["Type" := VStr "Season"]> {["IndexNumber" := VInt 1]}).

Definition show_details (item_id : PyVal) : result (option PyDict) :=
  if is_str "s1" item_id then Ok (Some show)
  else if is_str "i9" item_id then Raise (OtherError "ConnectionError")
  else Ok None.

(** The processed log: an item the server fails on, a row without an
    id, and the series. *)
Definition log_rows : list Row :=
  [[("item_id", VStr "i9"); ("item_name", VStr "Gone")];
   [("item_id", VNone); ("item_name", VStr "Nameless")];
   [("item_id", VStr "s1"); ("item_name", VStr "A Show")]].

Definition with_series : Services bool :=
  services (Ok []) show_details (Ok (Some [first_season; pilot])) no_folder []
    None (fun _ => None) false (fun _ => false).

Definition with_log (rows : list Row) (S : Services bool) : Services bool :=
  {| select_persons := select_persons S;
     select_processed_log := say (Ok rows);
     get_emby_item_details := get_emby_item_details S;
     get_series_children := get_series_children S;
     download_emby_image := download_emby_image S;
     path_exists := path_exists S;
     listdir := listdir S;
     makedirs := makedirs S;
     load_json := load_json S;
     match_info := match_info S;
     get_acting := get_acting S;
     get_subject_details := get_subject_details S;
     get_emby_libraries := get_emby_libraries S;
     get_emby_library_items := get_emby_library_items S;
     delete_processed_log := delete_processed_log S;
     in_processed_items_cache := in_processed_items_cache S;
     clear_processed_items_cache := clear_processed_items_cache S;
     stop_event_clear := stop_event_clear S;
     percent_of := percent_of S;
     get_override_path_for_item := get_override_path_for_item S |}.

Definition logged : Services bool := with_log log_rows with_series.

Definition backdrop_run : St (Host bool) * result bool :=
  Eval vm_compute in
    sync_item_images Demo.plain with_series "/data" show
      (VStr "New Backdrop and logo") (start false).

Definition images_run : St (Host bool) * result unit :=
  Eval vm_compute in
    sync_all_images Demo.plain logged (Demo.processor ∅) None (start false).
End Stage.

(** * Properties *)

(** ** Insertion-ordered dictionaries *)
Section ODictFacts.
Context {K V : Type} `{EqDecision K}.
Implicit Types (k : K) (v : V) (d : list (K * V)).

Lemma od_get_None k d : od_get k d = None ↔ k ∉ od_keys d.
Proof.
  unfold od_keys. induction d as [|[k' v'] d IH]; simpl.
  - split; [intros _; apply not_elem_of_nil | done].
  - case_decide; subst.
    + split; [done | intros []; left].
    + rewrite IH, not_elem_of_cons. split; [by intros ?; split | by intros [_ ?]].
Qed.

Lemma od_mem_true k d : od_mem k d = true ↔ k ∈ od_keys d.
Proof.
  unfold od_mem. rewrite bool_decide_eq_true.
  destruct (od_get k d) eqn:E.
  - split; [intros _ | eauto].
    destruct (decide (k ∈ od_keys d)) as [|Hn]; [done|].
    apply od_get_None in Hn. congruence.
  - split; [intros [? ?]; done|]. intros Hin.
    apply od_get_None in E. done.
Qed.

Lemma od_mem_cons k k' v' d :
  od_mem k ((k', v') :: d) = if decide (k' = k) then true else od_mem k d.
Proof.
  unfold od_mem; simpl. case_decide; [|done].
  apply bool_decide_eq_true_2. eauto.
Qed.

Lemma od_keys_set k v d :
  od_keys (od_set k v d) =
    if od_mem k d then od_keys d else od_keys d ++ [k].
Proof.
  induction d as [|[k' v'] d IH]; [done|].
  rewrite od_mem_cons. simpl. case_decide; subst; simpl; [done|].
  unfold od_keys in *. rewrite IH. by destruct (od_mem k d).
Qed.

Lemma od_set_NoDup k v d : NoDup (od_keys d) → NoDup (od_keys (od_set k v d)).
Proof.
  intros Hnd. rewrite od_keys_set.
  destruct (od_mem k d) eqn:E; [done|].
  apply NoDup_app. split_and!; [done| |apply NoDup_singleton].
  intros x Hx Hx'. apply list_elem_of_singleton in Hx'. subst.
  apply od_mem_true in Hx. congruence.
Qed.

End ODictFacts.

(** ** Sorting and loops *)
Section SortFacts.
Context {A : Type} (lt : A → A → bool).

Lemma insert_by_perm x l : insert_by lt x l ≡ₚ x :: l.
Proof.
  induction l as [|y l IH]; simpl; [done|].
  destruct (lt y x); [|done].
  rewrite IH. apply Permutation_swap.
Qed.

Lemma sort_by_perm l : sort_by lt l ≡ₚ l.
Proof.
  induction l as [|x l IH]; simpl; [done|].
  by rewrite insert_by_perm, IH.
Qed.

(** On elements that [le] orders as [lt] says, the result is sorted. *)
Lemma insert_by_sorted (le : A → A → Prop) (P : A → Prop) x l :
  (∀ a b c, le a b → le b c → le a c) →
  (∀ a b, P a → P b → lt b a = true → le b a) →
  (∀ a b, P a → P b → lt b a = false → le a b) →
  P x → Forall P l →
  StronglySorted le l → StronglySorted le (insert_by lt x l).
Proof.
  intros Htrans Hlt Hge Hx. induction l as [|y l IH]; simpl; intros HP Hs.
  - by repeat constructor.
  - apply Forall_cons in HP as [Hy HP].
    apply StronglySorted_inv in Hs as [Hs Hall].
    destruct (lt y x) eqn:Hyx.
    + constructor; [by apply IH|].
      rewrite insert_by_perm. constructor; [by apply Hlt | done].
    + constructor; [by constructor|].
      constructor; [by apply Hge|].
      eapply Forall_impl; [exact Hall|]. intros z Hz.
      eapply Htrans; [|exact Hz]. by apply Hge.
Qed.

Lemma sort_by_sorted (le : A → A → Prop) (P : A → Prop) l :
  (∀ a b c, le a b → le b c → le a c) →
  (∀ a b, P a → P b → lt b a = true → le b a) →
  (∀ a b, P a → P b → lt b a = false → le a b) →
  Forall P l → StronglySorted le (sort_by lt l).
Proof.
  intros Htrans Hlt Hge. induction l as [|x l IH]; simpl; intros HP.
  - constructor.
  - apply Forall_cons in HP as [Hx HP].
    eapply insert_by_sorted; eauto.
    by rewrite sort_by_perm.
Qed.

End SortFacts.

Lemma rmap_length {A B} (f : A → result B) l l' :
  rmap f l = Ok l' → length l' = length l.
Proof.
  revert l'; induction l as [|x l IH]; simpl; intros l' H; [by simplify_eq|].
  destruct (f x); simpl in H; [|done].
  destruct (rmap f l); simpl in H; [|done].
  simplify_eq; simpl. f_equal. by apply IH.
Qed.

(** ** Series cast aggregation *)

Lemma rbind_Ok {A B} (r : result A) (k : A → result B) b :
  rbind r k = Ok b ↔ ∃ a, r = Ok a ∧ k a = Ok b.
Proof.
  destruct r as [a|e]; simpl; split.
  - intros H. by exists a.
  - by intros (a' & [= <-] & H).
  - done.
  - by intros (a' & [=] & _).
Qed.

Lemma rfoldl_app {A B} (f : A → B → result A) a l1 l2 :
  rfoldl f a (l1 ++ l2) = rbind (rfoldl f a l1) (fun a' => rfoldl f a' l2).
Proof.
  revert a; induction l1 as [|x l1 IH]; intros a; simpl; [done|].
  destruct (f a x); simpl; auto.
Qed.

(** An invariant of a loop whose body can raise. *)
Lemma rfoldl_inv {A B} (P : A → Prop) (Q : B → Prop) (f : A → B → result A) l a a' :
  (∀ a x a', Q x → P a → f a x = Ok a' → P a') →
  Forall Q l → P a → rfoldl f a l = Ok a' → P a'.
Proof.
  intros Hstep. revert a. induction l as [|x l IH]; simpl; intros a HQ HP H.
  - by simplify_eq.
  - apply rbind_Ok in H as (a1 & H1 & H2).
    apply Forall_cons in HQ as [Hx HQ]. eauto.
Qed.

Lemma py_sort_by_perm {A} (f : A → result PyVal) (l out : list A) :
  py_sort_by f l = Ok out → out ≡ₚ l.
Proof.
  unfold py_sort_by. intros H.
  apply rbind_Ok in H as (ks & Hks & H).
  destruct (all_comparable ks); [|done]. simplify_eq.
  rewrite sort_by_perm. rewrite snd_zip; [done|].
  apply rmap_length in Hks. lia.
Qed.

Lemma rmap_zip {A B} (f : A → result B) l ks :
  rmap f l = Ok ks → Forall (fun kx => f kx.2 = Ok kx.1) (zip ks l).
Proof.
  revert ks. induction l as [|x l IH]; simpl; intros ks H.
  - simplify_eq. constructor.
  - apply rbind_Ok in H as (k & Hk & H).
    apply rbind_Ok in H as (ks' & Hks & H). simplify_eq. simpl.
    constructor; [done | by apply IH].
Qed.

(** A number is compared with numbers only. *)
Lemma comparable_num_l a b q :
  num_of a = Some q → comparable a b = true → is_Some (num_of b).
Proof.
  unfold comparable. intros Ha.
  destruct a; simplify_eq/=; destruct (num_of b); by eauto.
Qed.

Lemma comparable_num_r a b q :
  num_of b = Some q → comparable a b = true → is_Some (num_of a).
Proof.
  unfold comparable. intros Hb.
  destruct a; simpl; try done; try by eauto.
  - by destruct b; simplify_eq/=.
  - by destruct b; simplify_eq/=.
Qed.

Lemma all_comparable_num ks k q :
  all_comparable ks = true → k ∈ ks → num_of k = Some q →
  Forall (fun k' => is_Some (num_of k')) ks.
Proof.
  induction ks as [|k0 ks IH]; simpl; intros Hc Hin Hk; [constructor|].
  apply andb_true_iff in Hc as [Hc0 Hc]. rewrite forallb_forall in Hc0.
  apply elem_of_cons in Hin as [->|Hin].
  - constructor; [by eauto|]. apply Forall_forall. intros k' Hk'.
    apply list_elem_of_In in Hk'. apply Hc0 in Hk'.
    apply andb_true_iff in Hk' as [Hk' _]. by eapply comparable_num_l.
  - constructor; [|by eapply IH].
    apply list_elem_of_In in Hin. apply Hc0 in Hin.
    apply andb_true_iff in Hin as [Hin _]. by eapply comparable_num_r.
Qed.

Lemma py_ltb_num a b qa qb :
  num_of a = Some qa → num_of b = Some qb →
  py_ltb a b = negb (Qle_bool qb qa).
Proof.
  unfold py_ltb. intros Ha Hb.
  destruct a; simplify_eq/=; rewrite Hb; by destruct (Qle_bool _ _).
Qed.

(** [list.sort] on numeric keys: in the result the keys rise. *)
Lemma py_sort_by_sorted {A} (f : A → result PyVal) (l out : list A)
    i j a b ka kb qa qb :
  py_sort_by f l = Ok out →
  (i < j)%nat → out !! i = Some a → out !! j = Some b →
  f a = Ok ka → f b = Ok kb →
  num_of ka = Some qa → num_of kb = Some qb →
  (qa <= qb)%Q.
Proof.
  unfold py_sort_by. intros H Hij Hi Hj Hfa Hfb Hqa Hqb.
  apply rbind_Ok in H as (ks & Hks & H).
  destruct (all_comparable ks) eqn:Hcomp; [|done]. simplify_eq.
  set (lt := fun x y : PyVal * A => py_ltb x.1 y.1) in *.
  pose proof (rmap_zip _ _ _ Hks) as Hkeys.
  pose proof (rmap_length _ _ _ Hks) as Hlen.
  rewrite list_lookup_fmap in Hi, Hj.
  destruct (sort_by lt (zip ks l) !! i) as [[ka' a']|] eqn:Hpi; simplify_eq/=.
  destruct (sort_by lt (zip ks l) !! j) as [[kb' b']|] eqn:Hpj; simplify_eq/=.
  assert (∀ kx, kx ∈ sort_by lt (zip ks l) → kx ∈ zip ks l) as Hsub.
  { intros kx. by rewrite sort_by_perm. }
  rewrite Forall_forall in Hkeys.
  assert ((ka', a) ∈ zip ks l) as Hina
    by (apply Hsub; by eapply list_elem_of_lookup_2).
  assert ((kb', b) ∈ zip ks l) as Hinb
    by (apply Hsub; by eapply list_elem_of_lookup_2).
  pose proof (Hkeys _ Hina) as Hka. pose proof (Hkeys _ Hinb) as Hkb.
  simpl in Hka, Hkb. rewrite Hfa in Hka. rewrite Hfb in Hkb.
  injection Hka as <-. injection Hkb as <-.
  assert (Forall (fun k' => is_Some (num_of k')) ks) as Hnum.
  { eapply (all_comparable_num _ ka); [done| |done].
    apply (list_elem_of_fmap_2 fst) in Hina. simpl in Hina.
    by rewrite fst_zip in Hina by lia. }
  set (qk := fun kx : PyVal * A => default 0%Q (num_of kx.1)).
  assert (StronglySorted (fun x y => (qk x <= qk y)%Q) (sort_by lt (zip ks l)))
    as Hsorted.
  { apply (sort_by_sorted lt _ (fun kx => is_Some (num_of kx.1))).
    - intros x y z. apply Qle_trans.
    - intros x y [qx Hx] [qy Hy] Hlt. unfold lt in Hlt.
      rewrite (py_ltb_num _ _ _ _ Hy Hx) in Hlt. unfold qk. rewrite Hx, Hy.
      simpl. apply negb_true_iff in Hlt.
      destruct (Qlt_le_dec qy qx) as [Hq|Hq]; [by apply Qlt_le_weak|].
      apply Qle_bool_iff in Hq. congruence.
    - intros x y [qx Hx] [qy Hy] Hlt. unfold lt in Hlt.
      rewrite (py_ltb_num _ _ _ _ Hy Hx) in Hlt. unfold qk. rewrite Hx, Hy.
      simpl. apply negb_false_iff in Hlt. by apply Qle_bool_iff.
    - apply Forall_forall. intros [k x] Hin. simpl.
      rewrite Forall_forall in Hnum. apply Hnum.
      apply (list_elem_of_fmap_2 fst) in Hin. simpl in Hin.
      by rewrite fst_zip in Hin by lia. }
  rewrite <- (take_drop (S i) (sort_by lt (zip ks l))) in Hsorted.
  pose proof (StronglySorted_app_1_elem_of _ _ _ (ka, a) (kb, b) Hsorted) as Hle.
  unfold qk in Hle. simpl in Hle. rewrite Hqa, Hqb in Hle. apply Hle.
  - apply list_elem_of_lookup. exists i. rewrite lookup_take_lt by lia. done.
  - apply list_elem_of_lookup. exists (j - S i)%nat.
    rewrite lookup_drop. by replace (S i + (j - S i))%nat with j by lia.
Qed.

Lemma with_order_default_id a : py_get (with_order_default a) "id" = py_get a "id".
Proof.
  unfold with_order_default. destruct (py_in "order" a); [done|].
  unfold py_get. by rewrite lookup_insert_ne.
Qed.

Lemma with_order_default_order a :
  (a !! "order" = None → py_get (with_order_default a) "order" = VInt 999)
  ∧ (is_Some (a !! "order") → with_order_default a = a).
Proof.
  unfold with_order_default, py_in. split.
  - intros Hn. rewrite bool_decide_eq_false_2.
    + unfold py_get. by rewrite lookup_insert_eq.
    + rewrite Hn. by intros [? ?].
  - intros Hs. by rewrite bool_decide_eq_true_2.
Qed.

Lemma keyed_set k a m : keyed m → actor_key a = Ok k → keyed (od_set k a m).
Proof.
  unfold keyed. intros Hm Ha. induction m as [|[k' a'] m IH]; simpl.
  - by constructor.
  - apply Forall_cons in Hm as [H1 H2].
    case_decide; subst; constructor; auto.
Qed.

Lemma elem_of_od_set {K V} `{EqDecision K} (k : K) (v : V) (m : list (K * V)) x :
  x ∈ od_set k v m → x = (k, v) ∨ x ∈ m.
Proof.
  induction m as [|[k' v'] m IH]; simpl.
  - intros ->%list_elem_of_singleton. by left.
  - case_decide; subst.
    + intros [->|Hin]%elem_of_cons; [by left|]. right. by right.
    + intros [->|Hin]%elem_of_cons; [right; left|].
      destruct (IH Hin); [by left|]. right. by right.
Qed.

Lemma od_keys_set_mono {K V} `{EqDecision K} (k k' : K) (v : V) (m : list (K * V)) :
  k' ∈ od_keys m → k' ∈ od_keys (od_set k v m).
Proof.
  rewrite od_keys_set. destruct (od_mem k m); [done|].
  intros. apply elem_of_app. by left.
Qed.

Lemma od_keys_set_new {K V} `{EqDecision K} (k : K) (v : V) (m : list (K * V)) :
  k ∈ od_keys (od_set k v m).
Proof.
  rewrite od_keys_set. destruct (od_mem k m) eqn:E.
  - by apply od_mem_true.
  - apply elem_of_app. right. by apply list_elem_of_singleton.
Qed.

Lemma od_mem_false {K V} `{EqDecision K} (k : K) (m : list (K * V)) :
  od_mem k m = false → k ∉ od_keys m.
Proof. intros E Hin. apply od_mem_true in Hin. congruence. Qed.

Lemma add_main_actor_from_main main_cast m a m' :
  a ∈ main_cast → from_main main_cast m → add_main_actor m a = Ok m' →
  from_main main_cast m'.
Proof.
  intros Ha (Hk & Hnd & Hsrc) H. unfold add_main_actor in H.
  apply rbind_Ok in H as (actor & Hd & H).
  destruct a; simplify_eq/=.
  destruct (py_truthy _); [|by simplify_eq].
  apply rbind_Ok in H as (k & Hk' & H). simplify_eq.
  split_and!.
  - by apply keyed_set.
  - by apply od_set_NoDup.
  - intros ka [->|Hin]%elem_of_od_set; auto.
Qed.

Lemma main_loop_covers l m m' :
  rfoldl add_main_actor m l = Ok m' →
  (∀ k, k ∈ od_keys m → k ∈ od_keys m')
  ∧ ∀ t, VDict t ∈ l → py_truthy (py_get t "id") = true →
         ∃ k, actor_key t = Ok k ∧ k ∈ od_keys m'.
Proof.
  revert m. induction l as [|a l IH]; simpl; intros m H.
  - simplify_eq. split; [done|]. intros t Ht. by apply elem_of_nil in Ht.
  - apply rbind_Ok in H as (m1 & H1 & H2).
    destruct (IH _ H2) as [Hmono Hcov].
    unfold add_main_actor in H1.
    apply rbind_Ok in H1 as (actor & Hd & H1).
    destruct a; simplify_eq/=.
    destruct (py_truthy (py_get actor "id")) eqn:Htr.
    + apply rbind_Ok in H1 as (k & Hk & H1). simplify_eq. split.
      * intros k' Hk'. by apply Hmono, od_keys_set_mono.
      * intros t [Heq|Hin]%elem_of_cons Ht; [|by eauto].
        simplify_eq. exists k. split; [done|]. apply Hmono, od_keys_set_new.
    + simplify_eq. split; [done|].
      intros t [Heq|Hin]%elem_of_cons Ht; [|by eauto]. simplify_eq. congruence.
Qed.

Lemma add_episode_actor_extends P m0 m a m' :
  (∀ s, a = VDict s → P s) → extends P m0 m → add_episode_actor m a = Ok m' →
  extends P m0 m'.
Proof.
  intros Ha (Hk & Hnd & Hmono & Hsrc) H. unfold add_episode_actor in H.
  apply rbind_Ok in H as (actor & Hd & H).
  destruct a; simplify_eq/=.
  destruct (py_truthy _); [|by simplify_eq].
  apply rbind_Ok in H as (k & Hk' & H).
  destruct (od_mem k m) eqn:Hmem; simplify_eq; [done|].
  apply od_mem_false in Hmem.
  split_and!.
  - apply keyed_set; [done|]. unfold actor_key. by rewrite with_order_default_id.
  - by apply od_set_NoDup.
  - intros k' Hk''. by apply od_keys_set_mono, Hmono.
  - intros ka [->|Hin]%elem_of_od_set; [|by auto].
    right. split; [naive_solver|]. eauto.
Qed.

Lemma add_episode_extends eps m0 m e m' :
  e ∈ eps → extends (sub_part_record eps) m0 m → add_episode m e = Ok m' →
  extends (sub_part_record eps) m0 m'.
Proof.
  intros He Hext H. unfold add_episode in H.
  apply rbind_Ok in H as (l & Hl & H).
  eapply (rfoldl_inv (extends (sub_part_record eps) m0)
            (fun a => ∀ s, a = VDict s → sub_part_record eps s)); [| |done|done].
  - intros. by eapply add_episode_actor_extends.
  - apply Forall_forall. intros a Ha s ->. by exists e, l.
Qed.

Lemma add_episode_actor_covers m a m' :
  add_episode_actor m a = Ok m' →
  (∀ k, k ∈ od_keys m → k ∈ od_keys m')
  ∧ ∀ s, a = VDict s → py_truthy (py_get s "id") = true →
         ∃ k, actor_key s = Ok k ∧ k ∈ od_keys m'.
Proof.
  unfold add_episode_actor. intros H.
  apply rbind_Ok in H as (actor & Hd & H).
  destruct a; simplify_eq/=.
  destruct (py_truthy (py_get actor "id")) eqn:Htr.
  - apply rbind_Ok in H as (k & Hk & H).
    destruct (od_mem k m) eqn:Hmem; simplify_eq.
    + split; [done|]. intros s [= <-] _. exists k. split; [done|].
      by apply od_mem_true.
    + split; [intros k' Hk'; by apply od_keys_set_mono|].
      intros s [= <-] _. exists k. split; [done|]. apply od_keys_set_new.
  - simplify_eq. split; [done|]. intros s [= <-]. congruence.
Qed.

Lemma episode_actors_covers l m m' :
  rfoldl add_episode_actor m l = Ok m' →
  (∀ k, k ∈ od_keys m → k ∈ od_keys m')
  ∧ ∀ s, VDict s ∈ l → py_truthy (py_get s "id") = true →
         ∃ k, actor_key s = Ok k ∧ k ∈ od_keys m'.
Proof.
  revert m. induction l as [|a l IH]; simpl; intros m H.
  - simplify_eq. split; [done|]. intros s Hs. by apply elem_of_nil in Hs.
  - apply rbind_Ok in H as (m1 & H1 & H2).
    destruct (IH _ H2) as [Hmono Hcov].
    destruct (add_episode_actor_covers _ _ _ H1) as [Hmono1 Hcov1].
    split; [by auto|].
    intros s [Heq|Hin]%elem_of_cons Htr; [|by eauto].
    destruct (Hcov1 s (eq_sym Heq) Htr) as (k & Hk & Hin). by eauto.
Qed.

Lemma episodes_cover eps m m' :
  rfoldl add_episode m eps = Ok m' →
  (∀ k, k ∈ od_keys m → k ∈ od_keys m')
  ∧ ∀ s, sub_part_record eps s → py_truthy (py_get s "id") = true →
         ∃ k, actor_key s = Ok k ∧ k ∈ od_keys m'.
Proof.
  revert m. induction eps as [|e eps IH]; simpl; intros m H.
  - simplify_eq. split; [done|].
    intros s (e & l & He & _). by apply elem_of_nil in He.
  - apply rbind_Ok in H as (m1 & H1 & H2).
    destruct (IH _ H2) as [Hmono Hcov].
    unfold add_episode in H1. apply rbind_Ok in H1 as (l & Hl & H1).
    destruct (episode_actors_covers _ _ _ H1) as [Hmono1 Hcov1].
    split; [by auto|].
    intros s (e' & l' & [->|He]%elem_of_cons & Hl' & Hs) Htr.
    + rewrite Hl in Hl'. injection Hl' as <-.
      destruct (Hcov1 s Hs Htr) as (k & Hk & Hin). by eauto.
    + apply Hcov; [|done]. by exists e', l'.
Qed.

Lemma Forall_elem_of_self {A} (l : list A) : Forall (fun x => x ∈ l) l.
Proof. by apply Forall_forall. Qed.

(** What the aggregation map holds once both loops are through. *)
Lemma aggregated_cast_map_spec series eps main m :
  main_cast_of series = Ok main →
  aggregated_cast_map_of series eps = Ok m →
  keyed m ∧ NoDup (od_keys m)
  ∧ (∀ t, VDict t ∈ main → py_truthy (py_get t "id") = true →
       ∃ k a, actor_key t = Ok k ∧ (k, a) ∈ m ∧ VDict a ∈ main)
  ∧ ∀ ka, ka ∈ m →
      VDict ka.2 ∈ main
      ∨ ∃ s, sub_part_record eps s ∧ ka.2 = with_order_default s
             ∧ ∀ t, VDict t ∈ main → py_truthy (py_get t "id") = true →
                    actor_key t ≠ actor_key s.
Proof.
  intros Hmain H. unfold aggregated_cast_map_of in H. rewrite Hmain in H.
  simpl in H. apply rbind_Ok in H as (m1 & H1 & H2).
  assert (from_main main m1) as (Hk1 & Hnd1 & Hsrc1).
  { eapply (rfoldl_inv (from_main main) (fun a => a ∈ main)); [| |  |done].
    - intros. by eapply add_main_actor_from_main.
    - apply Forall_elem_of_self.
    - split_and!; [constructor | constructor |].
      intros ka Hin. by apply elem_of_nil in Hin. }
  destruct (main_loop_covers _ _ _ H1) as [_ Hcov].
  assert (extends (sub_part_record eps) m1 m) as (Hk & Hnd & Hmono & Hsrc).
  { eapply (rfoldl_inv (extends (sub_part_record eps) m1) (fun e => e ∈ eps));
      [| | |done].
    - intros. by eapply add_episode_extends.
    - apply Forall_elem_of_self.
    - split_and!; auto. }
  split_and!; [done|done| |].
  - intros t Ht Htr. destruct (Hcov t Ht Htr) as (k & Hkt & Hin).
    apply Hmono in Hin. apply list_elem_of_fmap in Hin as ([k' a] & -> & Hin).
    exists k', a. split_and!; [done|done|].
    destruct (Hsrc _ Hin) as [Hin1|[Hn _]]; [by apply (Hsrc1 _ Hin1)|].
    simpl in Hn. exfalso. apply Hn.
    destruct (Hcov t Ht Htr) as (k2 & Hk2 & Hin2). simpl in *.
    assert (k2 = k') as <- by congruence. done.
  - intros ka Hin. destruct (Hsrc _ Hin) as [Hin1|[Hn (s & Hs & Heq)]].
    + left. by apply Hsrc1.
    + right. exists s. split_and!; [done|done|].
      intros t Ht Htr Heqk. destruct (Hcov t Ht Htr) as (k & Hkt & Hink).
      apply Hn. unfold keyed in Hk. rewrite Forall_forall in Hk.
      specialize (Hk _ Hin). rewrite Heq in Hk. unfold actor_key in *.
      rewrite with_order_default_id in Hk. congruence.
Qed.

Lemma aggregated_cast_map_covers series eps m s :
  aggregated_cast_map_of series eps = Ok m →
  sub_part_record eps s → py_truthy (py_get s "id") = true →
  ∃ k, actor_key s = Ok k ∧ k ∈ od_keys m.
Proof.
  unfold aggregated_cast_map_of. intros H Hs Htr.
  apply rbind_Ok in H as (main & _ & H).
  apply rbind_Ok in H as (m1 & _ & H).
  by apply (proj2 (episodes_cover _ _ _ H)).
Qed.

(** Claim C9, as amended.  The aggregation of a series returns a list in
    which no two entries have the same id; for every top-level cast record
    with a usable id the entry of that id is a top-level record, with the
    order the top-level listing gives it, never a sub-part record; every
    other entry is the record of a sub-part whose id the top-level listing
    lacks, which gets order 999 when it has no order of its own and is kept
    as it is, with its own order, when it has one; every record of a
    sub-part that has a usable id has an entry of its id in the list; and
    the entries are sorted by their order. *)
Theorem aggregate_series_cast_correct series eps main out :
  main_cast_of series = Ok main →
  _aggregate_series_cast_from_tmdb_data series eps = Ok out →
  aggregation_correct eps main out.
Proof.
  intros Hmain H. unfold _aggregate_series_cast_from_tmdb_data in H.
  apply rbind_Ok in H as (m & Hm & Hsort).
  pose proof (py_sort_by_perm _ _ _ Hsort) as Hperm.
  destruct (aggregated_cast_map_spec _ _ _ _ Hmain Hm)
    as (Hk & Hnd & Hcov & Hsrc).
  assert (actor_key <$> od_values m = Ok <$> od_keys m) as Hkeys.
  { unfold od_values, od_keys, keyed in *. clear -Hk.
    induction Hk as [|[k a] m Hka _ IH]; simpl in *; [done|]. by f_equal. }
  split_and!.
  - rewrite Hperm, Hkeys. apply NoDup_fmap_2; [|done]. by intros ?? [=].
  - intros t Ht Htr. destruct (Hcov t Ht Htr) as (k & a & Hkt & Hin & Ha).
    exists a. split_and!; [| |done].
    + rewrite Hperm. apply list_elem_of_fmap. by exists (k, a).
    + unfold keyed in Hk. rewrite Forall_forall in Hk.
      specialize (Hk _ Hin). simpl in Hk. congruence.
  - intros a Ha. rewrite Hperm in Ha.
    apply list_elem_of_fmap in Ha as (ka & -> & Hin).
    destruct (Hsrc _ Hin) as [?|(s & Hs & Heq & Hne)]; [by left|].
    right. exists s. split_and!; [done| |done| |].
    + rewrite Heq. unfold actor_key. by rewrite with_order_default_id.
    + intros Hn. rewrite Heq. unfold with_order_default, py_in.
      rewrite bool_decide_eq_false_2; [done|]. rewrite Hn. by intros [? ?].
    + intros Hs'. rewrite Heq. by apply with_order_default_order.
  - intros s Hs Htr.
    destruct (aggregated_cast_map_covers _ _ _ _ Hm Hs Htr) as (k & Hks & Hin).
    apply list_elem_of_fmap in Hin as ([k' a] & -> & Hin).
    exists a. split.
    + rewrite Hperm. apply list_elem_of_fmap. by exists (k', a).
    + unfold keyed in Hk. rewrite Forall_forall in Hk.
      specialize (Hk _ Hin). simpl in *. congruence.
  - intros i j a b qa qb Hij Hi Hj Hqa Hqb.
    by eapply (py_sort_by_sorted order_key _ _ i j a b).
Qed.

(** The series of [Demo] lists John; the episode lists John again, a guest
    with order 3 and a walk-on without order. *)
Lemma aggregate_series_cast_correct_witness :
  main_cast_of Demo.series_with_john = Ok [VDict Demo.john]
  ∧ _aggregate_series_cast_from_tmdb_data Demo.series_with_john [Demo.episode]
    = Ok [Demo.john; Demo.guest; <["order" := VInt 999]> Demo.walk_on]
  ∧ aggregation_correct [Demo.episode] [VDict Demo.john]
      [Demo.john; Demo.guest; <["order" := VInt 999]> Demo.walk_on].
Proof.
  split_and!; [reflexivity | vm_compute; reflexivity |].
  apply (aggregate_series_cast_correct Demo.series_with_john [Demo.episode]);
    vm_compute; reflexivity.
Defined.

(** Claim C9 as the spec has it fails: with no top-level cast, the guest of
    the episode is first seen in a sub-part and keeps its order 3. *)
Lemma sub_part_order_counterexample :
  main_cast_of Demo.series_without_cast = Ok []
  ∧ _aggregate_series_cast_from_tmdb_data Demo.series_without_cast [Demo.episode]
    = Ok [Demo.guest; Demo.john_in_episode;
          <["order" := VInt 999]> Demo.walk_on]
  ∧ py_get Demo.guest "order" = VInt 3
  ∧ ¬ spec_sub_part_sentinel.
Proof.
  split_and!; [reflexivity | vm_compute; reflexivity | reflexivity |].
  intros Hspec.
  assert (py_get Demo.guest "order" = VInt 999) as Habs; [|discriminate Habs].
  apply (Hspec Demo.series_without_cast [Demo.episode] []
           [Demo.guest; Demo.john_in_episode;
            <["order" := VInt 999]> Demo.walk_on]).
  - reflexivity.
  - vm_compute; reflexivity.
  - left.
  - intros t Ht. by apply elem_of_nil in Ht.
Qed.

(** ** Data adaptation *)
Section Adapt.
Context {W : Type} (E : Collaborators W) (self : MediaProcessor).

Lemma lacks_primary_id_resolve r :
  lacks_primary_id r → resolve_tmdb_id E r = Ok None.
Proof.
  intros [Hid Hp]. unfold resolve_tmdb_id, py_in. rewrite Hid.
  rewrite bool_decide_eq_false_2 by (by intros [? ?]).
  destruct Hp as [Hp|(ids & Hp & Ht)].
  - rewrite Hp. by rewrite bool_decide_eq_false_2 by (by intros [? ?]).
  - rewrite Hp. rewrite bool_decide_eq_true_2 by eauto.
    unfold provider_tmdb. rewrite Hp. simpl. by rewrite Ht.
Qed.

Lemma null_id_resolve r :
  r !! "id" = Some VNone → resolve_tmdb_id E r = Ok (Some "None").
Proof.
  intros Hid. unfold resolve_tmdb_id, py_in, py_get. rewrite Hid.
  by rewrite bool_decide_eq_true_2 by eauto.
Qed.

Lemma adapt_person_dropped emby_map r :
  resolve_tmdb_id E r = Ok None ∨ resolve_tmdb_id E r = Ok (Some "None") →
  adapt_person E emby_map r = Ok None.
Proof. unfold adapt_person. by intros [->| ->]. Qed.

Lemma adapt_cast_dropped emby_map pre r post :
  adapt_person E emby_map r = Ok None →
  adapt_cast E emby_map (pre ++ r :: post) = adapt_cast E emby_map (pre ++ post).
Proof.
  intros Hr. induction pre as [|x pre IH]; simpl.
  - rewrite Hr. simpl. by destruct (adapt_cast E emby_map post).
  - by rewrite IH.
Qed.

Lemma emby_map_dropped pre r post :
  lacks_primary_id r →
  emby_tmdb_to_person_id_map_of (pre ++ r :: post)
  = emby_tmdb_to_person_id_map_of (pre ++ post).
Proof.
  intros [_ Hp]. unfold emby_tmdb_to_person_id_map_of.
  rewrite !rfoldl_app. simpl.
  destruct (rfoldl _ [] pre) as [m|e]; simpl; [|done].
  assert (provider_tmdb r = Ok VNone ∨
          ∃ t, provider_tmdb r = Ok t ∧ py_truthy t = false) as Ht.
  { unfold provider_tmdb. destruct Hp as [->|(ids & -> & Ht)]; simpl.
    - left. done.
    - right. eauto. }
  destruct Ht as [->|(t & -> & Ht)]; simpl; [done|]. by rewrite Ht.
Qed.

(** Claim C10.  A source record with neither an ["id"] key nor a
    [ProviderIds.Tmdb] entry, or whose resolved id is the string ["None"], is
    left out of the adapted list, and the pipeline returns what it returns
    when the record is not supplied at all (also when the same list serves
    as the server snapshot, for a record without any id): the record cannot
    appear in the final cast. *)
Theorem unresolvable_record_is_dropped
    (pre post emby_cast_people douban_cast_list : list PyDict)
    (r item_details_from_emby : PyDict) (s : St W) :
  lacks_primary_id r ∨ resolve_tmdb_id E r = Ok (Some "None") →
  (∀ emby_map,
     adapt_cast E emby_map (pre ++ r :: post)
     = adapt_cast E emby_map (pre ++ post))
  ∧ _process_cast_list_from_api E self (pre ++ r :: post) emby_cast_people
      douban_cast_list item_details_from_emby s
    = _process_cast_list_from_api E self (pre ++ post) emby_cast_people
        douban_cast_list item_details_from_emby s
  ∧ (lacks_primary_id r →
     _process_cast_list_from_api E self (pre ++ r :: post) (pre ++ r :: post)
       douban_cast_list item_details_from_emby s
     = _process_cast_list_from_api E self (pre ++ post) (pre ++ post)
         douban_cast_list item_details_from_emby s).
Proof.
  intros Hr.
  assert (∀ emby_map, adapt_cast E emby_map (pre ++ r :: post)
                      = adapt_cast E emby_map (pre ++ post)) as Had.
  { intros m. apply adapt_cast_dropped, adapt_person_dropped.
    destruct Hr as [Hr|Hr]; [left; by apply lacks_primary_id_resolve | by right]. }
  split_and!; [done| |].
  - unfold _process_cast_list_from_api, after_pass_A.
    destruct (emby_tmdb_to_person_id_map_of _); simpl; [|done].
    by rewrite Had.
  - intros Hl. unfold _process_cast_list_from_api, after_pass_A.
    rewrite emby_map_dropped by done.
    destruct (emby_tmdb_to_person_id_map_of _); simpl; [|done].
    by rewrite Had.
Qed.
End Adapt.

(** [Demo.ghost], between John and Jane, has no id at all; the id of
    [Demo.null_id] is null and resolves to ["None"]. *)
Lemma unresolvable_record_is_dropped_witness :
  lacks_primary_id Demo.ghost
  ∧ _process_cast_list_from_api Demo.plain (Demo.processor ∅)
      ([Demo.john] ++ Demo.ghost :: [Demo.jane]) [] [] ∅ (Demo.start false)
    = _process_cast_list_from_api Demo.plain (Demo.processor ∅)
        ([Demo.john] ++ [Demo.jane]) [] [] ∅ (Demo.start false)
  ∧ resolve_tmdb_id Demo.plain Demo.null_id = Ok (Some "None")
  ∧ _process_cast_list_from_api Demo.plain (Demo.processor ∅)
      ([Demo.john] ++ Demo.null_id :: [Demo.jane]) [] [] ∅ (Demo.start false)
    = _process_cast_list_from_api Demo.plain (Demo.processor ∅)
        ([Demo.john] ++ [Demo.jane]) [] [] ∅ (Demo.start false).
Proof.
  assert (lacks_primary_id Demo.ghost) as H.
  { split; [reflexivity|]. right. eexists. split; reflexivity. }
  pose proof (null_id_resolve Demo.plain Demo.null_id eq_refl) as Hn.
  split; [exact H|]. split; [|split; [exact Hn|]].
  - exact (proj1 (proj2
      (unresolvable_record_is_dropped Demo.plain (Demo.processor ∅)
         [Demo.john] [Demo.jane] [] [] Demo.ghost ∅ (Demo.start false)
         (or_introl H)))).
  - exact (proj1 (proj2
      (unresolvable_record_is_dropped Demo.plain (Demo.processor ∅)
         [Demo.john] [Demo.jane] [] [] Demo.null_id ∅ (Demo.start false)
         (or_intror Hn)))).
Defined.

(** ** Match pass A *)
Section PassAFacts.
Context {W : Type} (E : Collaborators W).









End PassAFacts.


(** The scenario of the spec: John and Jane in the snapshot, one regional
    candidate whose original-language name is John's.  The final cast has
    the two members; John carries the regional name, role and id, Jane is
    as she was. *)
Example name_match_scenario :
  (fun a => (py_get a "id", py_get a "name", py_get a "character",
             py_get a "douban_id"))
  <$> Demo.final_of
        (_process_cast_list_from_api Demo.plain (Demo.processor ∅)
           [Demo.john; Demo.jane] [] [Demo.yuehan] ∅ (Demo.start false))
  = [(VInt 1, VStr "约翰", VStr "Lead", VStr "1001");
     (VInt 2, VStr "Jane", VNone, VNone)].
Proof. vm_compute. reflexivity. Qed.

(** ** The monad *)
Section MonadFacts.
Context {W : Type}.
Implicit Types (s : St W) (P : Event → Prop).

Lemma sbind_Ok {A B} (m : M W A) (k : A → M W B) s s' b :
  sbind m k s = (s', Ok b) ↔ ∃ s1 a, m s = (s1, Ok a) ∧ k a s1 = (s', Ok b).
Proof.
  unfold sbind. destruct (m s) as [s1 [a|e]]; split.
  - intros H. by exists s1, a.
  - by intros (? & ? & [= <- <-] & H).
  - done.
  - by intros (? & ? & [=] & _).
Qed.

Lemma sbind_assoc {A B C} (m : M W A) (k1 : A → M W B) (k2 : B → M W C) s :
  sbind (sbind m k1) k2 s = sbind m (fun a => sbind (k1 a) k2) s.
Proof. unfold sbind. by destruct (m s) as [s1 [a|e]]. Qed.

Lemma lift_eq {A} (r : result A) s s' r' :
  lift r s = (s', r') ↔ s' = s ∧ r' = r.
Proof. unfold lift. split; [by intros [= <- <-] | by intros [-> ->]]. Qed.

Lemma emits_mono {A} P Q (m : M W A) :
  (∀ ev, P ev → Q ev) → emits P m → emits Q m.
Proof.
  intros HPQ Hm s s' r H. destruct (Hm _ _ _ H) as (evs & Ht & Hall).
  exists evs. split; [done|]. eapply Forall_impl; eauto.
Qed.

Lemma emits_sret {A} P (a : A) : emits P (sret (W:=W) a).
Proof. intros s s' r [= <- <-]. by exists []. Qed.

Lemma emits_sraise {A} P e : emits P (sraise (W:=W) (A:=A) e).
Proof. intros s s' r [= <- <-]. by exists []. Qed.

Lemma emits_lift {A} P (r : result A) : emits P (lift (W:=W) r).
Proof. intros s s' r' [= <- <-]. by exists []. Qed.

Lemma emits_sbind {A B} P (m : M W A) (k : A → M W B) :
  emits P m → (∀ a, emits P (k a)) → emits P (sbind m k).
Proof.
  intros Hm Hk s s' r H. unfold sbind in H.
  destruct (m s) as [s1 [a|e]] eqn:Hms.
  - destruct (Hm _ _ _ Hms) as (ev1 & Ht1 & Hall1).
    destruct (Hk a _ _ _ H) as (ev2 & Ht2 & Hall2).
    exists (ev2 ++ ev1). split.
    + by rewrite Ht2, Ht1, app_assoc.
    + by apply Forall_app.
  - simplify_eq. eauto.
Qed.

Lemma emits_call {A} P ev (f : W → W * result A) : P ev → emits P (call ev f).
Proof.
  intros HP s s' r H. unfold call in H. destruct (f (world s)) as [w r0].
  simplify_eq. exists [ev]. split; [done|]. by constructor.
Qed.

Lemma emits_try_except {A} P (m : M W A) c h :
  emits P m → (∀ e, emits P (h e)) → emits P (try_except m c h).
Proof.
  intros Hm Hh s s' r H. unfold try_except in H.
  destruct (m s) as [s1 [a|e]] eqn:Hms.
  - simplify_eq. eauto.
  - destruct (c e).
    + destruct (Hm _ _ _ Hms) as (ev1 & Ht1 & Hall1).
      destruct (Hh e _ _ _ H) as (ev2 & Ht2 & Hall2).
      exists (ev2 ++ ev1). split.
      * by rewrite Ht2, Ht1, app_assoc.
      * by apply Forall_app.
    + simplify_eq. eauto.
Qed.

Lemma emits_sfoldl {A B} P (f : A → B → M W A) a l :
  (∀ a x, emits P (f a x)) → emits P (sfoldl f a l).
Proof.
  intros Hf. revert a. induction l as [|x l IH]; intros a; simpl.
  - apply emits_sret.
  - apply emits_sbind; [apply Hf | intros a'; apply IH].
Qed.

End MonadFacts.

(** One step of a proof that a computation emits only events of a kind. *)
Ltac emits_step :=
  lazymatch goal with
  | |- emits _ (sret _) => apply emits_sret
  | |- emits _ (sraise _) => apply emits_sraise
  | |- emits _ (lift _) => apply emits_lift
  | |- emits _ (call _ _) => apply emits_call; done
  | |- emits _ (sbind _ _) => apply emits_sbind; [|intros ?]
  | |- emits _ (try_except _ _ _) => apply emits_try_except; [|intros ?]
  | |- emits _ (sfoldl _ _ _) => apply emits_sfoldl; intros ? ?
  | |- emits _ (if ?b then _ else _) => destruct b
  | |- emits _ (match ?x with _ => _ end) => destruct x
  | |- emits _ (let '(_, _) := ?x in _) => destruct x
  end.

(** ** Calls made by the stages of the pipeline *)
Section Calls.
Context {W : Type} (E : Collaborators W) (self : MediaProcessor).
Implicit Types (P : Event → Prop).

Lemma emits_check_stop P : emits P (check_stop E).
Proof.
  unfold check_stop. apply emits_sbind.
  - intros s s' r [= <- <-]. by exists [].
  - intros []; [apply emits_sraise | apply emits_sret].
Qed.

Lemma emits_find_by_douban_id P d :
  P (EvFindByDoubanId d) → emits P (_find_person_in_map_by_douban_id E d).
Proof. intros. unfold _find_person_in_map_by_douban_id. repeat emits_step. Qed.

Lemma emits_find_by_imdb_id P i :
  P (EvFindByImdbId i) → emits P (_find_person_in_map_by_imdb_id E i).
Proof. intros. unfold _find_person_in_map_by_imdb_id. repeat emits_step. Qed.

Lemma emits_cached_metadata P t :
  P (EvActorMetadata t) → emits P (cached_metadata_or_empty E t).
Proof.
  intros. unfold cached_metadata_or_empty, _get_actor_metadata_from_cache.
  repeat emits_step.
Qed.

Lemma emits_pass_B_step acc d : emits supplement_event (pass_B_step E acc d).
Proof.
  unfold pass_B_step. destruct acc as [fcm still].
  apply emits_sbind; [apply emits_check_stop | intros _].
  destruct (py_truthy _); [|apply emits_sret].
  apply emits_sbind; [apply emits_find_by_douban_id; by left | intros entry].
  destruct entry as [entry|]; [|apply emits_sret].
  destruct (row_truthy entry); [|apply emits_sret].
  apply emits_sbind; [apply emits_lift | intros t].
  destruct (py_truthy t); [|apply emits_sret].
  destruct (od_mem _ _); [apply emits_sret|].
  apply emits_sbind; [apply emits_cached_metadata; by left | intros ?].
  repeat emits_step.
Qed.

Lemma emits_pass_C_by_map fcm d id imdb :
  emits supplement_event (pass_C_by_map E fcm d id imdb).
Proof.
  unfold pass_C_by_map.
  apply emits_sbind; [apply emits_find_by_imdb_id; by left | intros entry].
  destruct entry as [entry|]; [|apply emits_sret].
  destruct (row_truthy entry); [|apply emits_sret].
  apply emits_sbind; [apply emits_lift | intros t].
  destruct (py_truthy t); [|apply emits_sret].
  apply emits_sbind.
  - destruct (od_mem _ _); [apply emits_sret|].
    apply emits_sbind; [apply emits_cached_metadata; by left | intros ?].
    apply emits_sret.
  - intros ?. apply emits_sbind; [apply emits_lift | intros ?].
    apply emits_sbind; [apply emits_call; by right | intros ?]. apply emits_sret.
Qed.

Lemma emits_pass_C_by_tmdb fcm d id imdb :
  emits supplement_event (pass_C_by_tmdb E self fcm d id imdb).
Proof.
  unfold pass_C_by_tmdb.
  apply emits_sbind; [apply emits_check_stop | intros _].
  apply emits_sbind; [apply emits_call; by left | intros person].
  destruct (py_truthy person); [|apply emits_sret].
  apply emits_sbind; [apply emits_lift | intros pd].
  destruct (py_truthy _); [|apply emits_sret].
  destruct (od_mem _ _); [apply emits_sret|].
  apply emits_sbind; [apply emits_cached_metadata; by left | intros ?].
  apply emits_sbind; [apply emits_call; by right | intros ?]. apply emits_sret.
Qed.

Lemma emits_pass_C_candidate fcm d :
  emits supplement_event (pass_C_candidate E self fcm d).
Proof.
  unfold pass_C_candidate.
  destruct (_ && _); [|apply emits_sret].
  apply emits_sbind; [apply emits_check_stop | intros _].
  apply emits_sbind; [apply emits_call; by left | intros details].
  apply emits_sbind; [apply emits_lift | intros imdb].
  destruct (py_truthy imdb); [|apply emits_sret].
  apply emits_sbind; [apply emits_pass_C_by_map | intros [fcm' found]].
  destruct found; [apply emits_sret | apply emits_pass_C_by_tmdb].
Qed.

Lemma emits_pass_C limit fcm still l :
  emits supplement_event (pass_C E self limit fcm still l).
Proof.
  revert fcm still. induction l as [|d l IH]; intros fcm still; simpl.
  - apply emits_sret.
  - apply emits_sbind; [apply emits_check_stop | intros _].
    destruct (limit <=? _); [apply emits_sret|].
    apply emits_sbind; [apply emits_pass_C_candidate | intros [fcm' found]].
    apply IH.
Qed.

Lemma emits_supplement limit fcm unmatched :
  emits supplement_event (supplement E self limit fcm unmatched).
Proof.
  unfold supplement, pass_B. destruct (limit <=? _); [apply emits_sret|].
  apply emits_sbind.
  - apply emits_sfoldl. intros. apply emits_pass_B_step.
  - intros [fcm' still]. apply emits_pass_C.
Qed.

Lemma emits_full_write_back l :
  emits (fun ev => is_upsert ev = true) (full_write_back E l).
Proof.
  unfold full_write_back. apply emits_sfoldl. intros. by apply emits_call.
Qed.

Lemma emits_consult_cache cast :
  emits (fun ev => is_cache_access ev = true) (consult_cache E self cast).
Proof.
  unfold consult_cache.
  apply emits_sbind; [apply emits_lift | intros texts].
  destruct (is_fast _); [|apply emits_sret].
  apply emits_sfoldl. intros [c t] x. unfold check_cache.
  apply emits_sbind; [by apply emits_call | intros entry].
  repeat emits_step.
Qed.

Lemma emits_send_to_api item c t :
  emits (fun ev => is_translation_event ev = true) (send_to_api E self item c t).
Proof.
  unfold send_to_api, save_translations. repeat emits_step.
Qed.

Lemma emits_translate_phase item cast :
  emits (fun ev => is_translation_event ev = true)
    (translate_phase E self item cast).
Proof.
  unfold translate_phase, translation_attempt.
  apply emits_sbind.
  - destruct (ai_translation_enabled _ _); [|apply emits_sret].
    apply emits_try_except; [|intros; apply emits_sret].
    apply emits_sbind; [|intros; apply emits_sret].
    apply emits_sbind.
    + eapply emits_mono; [|apply emits_consult_cache].
      intros ev H. unfold is_translation_event. rewrite H. apply orb_true_r.
    + intros [c t]. apply emits_send_to_api.
  - intros [c|]; [apply emits_lift | apply emits_sret].
Qed.

Lemma emits_finish item l :
  emits (fun ev => is_translation_event ev = true) (finish E self item l).
Proof.
  unfold finish.
  apply emits_sbind; [apply emits_lift | intros limit].
  apply emits_sbind; [apply emits_lift | intros cast].
  apply emits_sbind; [apply emits_translate_phase | intros cast'].
  apply emits_sbind; [apply emits_lift | intros b]. apply emits_sret.
Qed.
End Calls.

(** ** The stages of a run *)
Section Stages.
Context {W : Type} (E : Collaborators W) (self : MediaProcessor).

Lemma py_int_raises v e : py_int E v = Raise e → e = ValueError ∨ e = TypeError.
Proof.
  destruct v; simpl; try (intros [= <-]; by right); try done.
  destruct (int_of_str E s); [done|]. intros [= <-]. by left.
Qed.

Lemma max_actors_limit_configured :
  max_actors_limit E self = Ok (configured_limit E self).
Proof.
  unfold max_actors_limit, configured_limit.
  destruct (config self !! _) as [v|]; simpl; [|done].
  destruct (py_int E v) as [n|e] eqn:Hv.
  - rewrite Z.leb_antisym. by destruct (0 <? n).
  - by destruct (py_int_raises _ _ Hv) as [-> | ->].
Qed.

Lemma configured_limit_pos : 0 < configured_limit E self.
Proof.
  unfold configured_limit. destruct (config self !! _) as [v|]; [|done].
  destruct (py_int E v) as [n|e]; [|done].
  destruct (0 <? n) eqn:Hn; [by apply Z.ltb_lt | done].
Qed.

Lemma truncate_length limit ws cast :
  0 < limit → truncate limit ws = Ok cast →
  Z.of_nat (length cast) = Z.min limit (Z.of_nat (length ws)).
Proof.
  intros Hpos. unfold truncate. destruct (limit <? _) eqn:Hlt.
  - apply Z.ltb_lt in Hlt. intros H.
    apply rbind_Ok in H as (sorted & Hs & H). simplify_eq.
    apply py_sort_by_perm, Permutation_length in Hs.
    rewrite length_take. lia.
  - apply Z.ltb_ge in Hlt. intros [= <-]. lia.
Qed.

Lemma truncate_subset limit ws cast :
  truncate limit ws = Ok cast → ∀ a, a ∈ cast → a ∈ ws.
Proof.
  unfold truncate. destruct (limit <? _).
  - intros H. apply rbind_Ok in H as (sorted & Hs & H). simplify_eq.
    apply py_sort_by_perm in Hs. intros a Ha.
    rewrite <- Hs. by apply (subseteq_take (Z.to_nat limit) sorted).
  - by intros [= <-].
Qed.

Lemma translate_phase_length item cast s s' cast' :
  translate_phase E self item cast s = (s', Ok cast') →
  length cast' = length cast.
Proof.
  unfold translate_phase. intros H.
  apply sbind_Ok in H as (s1 & outcome & _ & H).
  destruct outcome as [c|].
  - apply lift_eq in H as [_ H]. symmetry in H. by apply rmap_length in H.
  - by injection H as <- <-.
Qed.

Lemma finish_Ok item ws s s' final :
  finish E self item ws s = (s', Ok final) →
  ∃ cast cast' b,
    truncate (configured_limit E self) ws = Ok cast
    ∧ translate_phase E self item cast s = (s', Ok cast')
    ∧ py_contains "Animation" (genres_of item) = Ok b
    ∧ final = with_provider_ids E
                <$> format_and_complete_cast_list E cast' b (config self).
Proof.
  unfold finish. rewrite max_actors_limit_configured. intros H.
  apply sbind_Ok in H as (s1 & limit & [= <- <-] & H).
  apply sbind_Ok in H as (s1 & cast & [-> Hc]%lift_eq & H).
  apply sbind_Ok in H as (s2 & cast' & Ht & H).
  apply sbind_Ok in H as (s3 & b & [-> Hb]%lift_eq & H).
  injection H as <- <-. by exists cast, cast', b.
Qed.

Lemma pipeline_Ok tmdb emby douban item s s' final :
  _process_cast_list_from_api E self tmdb emby douban item s = (s', Ok final) →
  ∃ fcm0 unmatched fcm rest s1 s2,
    after_pass_A E tmdb emby douban = Ok (fcm0, unmatched)
    ∧ supplement E self (configured_limit E self) fcm0 unmatched s
      = (s1, Ok (fcm, rest))
    ∧ full_write_back E (od_values fcm) s1 = (s2, Ok ())
    ∧ finish E self item (od_values fcm) s2 = (s', Ok final).
Proof.
  unfold _process_cast_list_from_api. rewrite max_actors_limit_configured.
  intros H.
  apply sbind_Ok in H as (s0 & [fcm0 unmatched] & [-> Ha]%lift_eq & H).
  apply sbind_Ok in H as (s0 & limit & [= <- <-] & H).
  apply sbind_Ok in H as (s1 & [fcm rest] & Hs & H).
  apply sbind_Ok in H as (s2 & [] & Hw & H).
  by exists fcm0, unmatched, fcm, rest, s1, s2.
Qed.

Lemma finish_length item ws s s' final :
  finish E self item ws s = (s', Ok final) →
  ∃ cast' b,
    Z.of_nat (length cast')
    = Z.min (configured_limit E self) (Z.of_nat (length ws))
    ∧ final = with_provider_ids E
                <$> format_and_complete_cast_list E cast' b (config self).
Proof.
  intros H. apply finish_Ok in H as (cast & cast' & b & Hc & Ht & _ & ->).
  exists cast', b. split; [|done].
  apply translate_phase_length in Ht. rewrite Ht.
  apply truncate_length; [apply configured_limit_pos | done].
Qed.

Lemma configured_limit_cases :
  (config self !! CONFIG_OPTION_MAX_ACTORS_TO_PROCESS E = None →
   configured_limit E self = 30)
  ∧ ∀ v, config self !! CONFIG_OPTION_MAX_ACTORS_TO_PROCESS E = Some v →
      (∀ e, py_int E v = Raise e → configured_limit E self = 30)
      ∧ (∀ n, py_int E v = Ok n → n ≤ 0 → configured_limit E self = 30)
      ∧ (∀ n, py_int E v = Ok n → 0 < n → configured_limit E self = n).
Proof.
  unfold configured_limit. split; [by intros ->|]. intros v ->. split_and!.
  - by intros e ->.
  - intros n -> Hn. by rewrite (proj2 (Z.ltb_ge 0 n)).
  - intros n -> Hn. by rewrite (proj2 (Z.ltb_lt 0 n)).
Qed.

(** Claim C1.  The cap both places of the pipeline compute is the
    configured max-actors value, 30 when the option is absent, when [int]
    rejects its value or when the value is not positive; and, the formatter
    adding no member, the final cast of every run that returns one is no
    longer than the cap. *)
Theorem final_cast_within_cap tmdb emby douban item s s' final :
  formatter_adds_no_member E →
  _process_cast_list_from_api E self tmdb emby douban item s = (s', Ok final) →
  max_actors_limit E self = Ok (configured_limit E self)
  ∧ Z.of_nat (length final) ≤ configured_limit E self
  ∧ (config self !! CONFIG_OPTION_MAX_ACTORS_TO_PROCESS E = None →
     configured_limit E self = 30)
  ∧ ∀ v, config self !! CONFIG_OPTION_MAX_ACTORS_TO_PROCESS E = Some v →
      (∀ e, py_int E v = Raise e → configured_limit E self = 30)
      ∧ (∀ n, py_int E v = Ok n → n ≤ 0 → configured_limit E self = 30)
      ∧ (∀ n, py_int E v = Ok n → 0 < n → configured_limit E self = n).
Proof.
  intros Hfmt H. split; [apply max_actors_limit_configured|].
  split; [|apply configured_limit_cases].
  apply pipeline_Ok in H as (fcm0 & unmatched & fcm & rest & s1 & s2 & _ & _ & _ & H).
  apply finish_length in H as (cast' & b & Hlen & ->).
  rewrite length_fmap. specialize (Hfmt cast' b (config self)). lia.
Qed.

(** Upserts of the full write-back, in the order of the working set. *)
Lemma full_write_back_trace ws s s' :
  full_write_back E ws s = (s', Ok ()) →
  trace s'
  = reverse ((fun a => EvUpsertPerson (write_back_row a)) <$> ws) ++ trace s.
Proof.
  unfold full_write_back. revert s. generalize () at 1.
  induction ws as [|a ws IH]; simpl; intros u s H.
  - by injection H as <-.
  - apply sbind_Ok in H as (s1 & u1 & Hc & H).
    apply IH in H. rewrite H. unfold call in Hc.
    destruct (upsert_person E _ (world s)) as [w r]. injection Hc as <- _.
    simpl. by rewrite reverse_cons, <- app_assoc.
Qed.

Lemma full_write_back_store ws s s' :
  full_write_back E ws s = (s', Ok ()) →
  store_after_upserts E (write_back_row <$> ws) (world s) = Some (world s').
Proof.
  unfold full_write_back. revert s. generalize () at 1.
  induction ws as [|a ws IH]; simpl; intros u s H.
  - by injection H as <-.
  - apply sbind_Ok in H as (s1 & u1 & Hc & H).
    apply IH in H. unfold call in Hc.
    destruct (upsert_person E _ (world s)) as [w r]. by injection Hc as <- ->.
Qed.

Lemma write_back_row_id a : py_get (write_back_row a) "tmdb_id" = py_get a "id".
Proof. unfold write_back_row, py_get at 1. by rewrite lookup_insert_eq. Qed.

Lemma upserted_ids_write_back ws :
  upserted_ids ((fun a => EvUpsertPerson (write_back_row a)) <$> ws)
  = (fun a => py_get a "id") <$> ws.
Proof.
  unfold upserted_ids. induction ws as [|a ws IH]; csimpl; [done|].
  by rewrite write_back_row_id, IH.
Qed.

(** Claim C5.  When the working set has reached the cap as pass A ends,
    passes B and C do nothing: the state is left as it is, so no candidate
    is looked up in the identity store or over the network, and the working
    set is unchanged, none of the remaining candidates being added; the
    run makes no look-up at all, and, the formatter keeping the length, a
    final cast it returns has exactly the cap's length and is computed from
    the working set of pass A. *)
Theorem cap_reached_skips_supplement tmdb emby douban item fcm unmatched s :
  formatter_keeps_length E →
  after_pass_A E tmdb emby douban = Ok (fcm, unmatched) →
  configured_limit E self ≤ Z.of_nat (length fcm) →
  supplement E self (configured_limit E self) fcm unmatched s
  = (s, Ok (fcm, unmatched))
  ∧ ∀ s' r,
      _process_cast_list_from_api E self tmdb emby douban item s = (s', r) →
      (∃ evs, trace s' = evs ++ trace s
              ∧ Forall (fun ev => is_candidate_lookup ev = false) evs)
      ∧ ∀ final, r = Ok final →
          Z.of_nat (length final) = configured_limit E self
          ∧ ∃ s1, full_write_back E (od_values fcm) s = (s1, Ok ())
                  ∧ finish E self item (od_values fcm) s1 = (s', Ok final).
Proof.
  intros Hfmt Ha Hcap.
  assert (supplement E self (configured_limit E self) fcm unmatched s
          = (s, Ok (fcm, unmatched))) as Hs.
  { unfold supplement. by rewrite (proj2 (Z.leb_le _ _) Hcap). }
  split; [done|]. intros s' r H. split.
  - revert H. unfold _process_cast_list_from_api.
    rewrite Ha, max_actors_limit_configured.
    unfold lift at 1 2. unfold sbind at 1 2. unfold sbind at 1. rewrite Hs.
    intros H.
    assert (emits (fun ev => is_candidate_lookup ev = false)
              (sbind (full_write_back E (od_values fcm))
                 (fun _ => finish E self item (od_values fcm)))) as Hem.
    { apply emits_sbind.
      - eapply emits_mono; [|apply emits_full_write_back]. by intros [].
      - intros _. eapply emits_mono; [|apply emits_finish]. by intros []. }
    by apply Hem in H.
  - intros final ->.
    apply pipeline_Ok in H
      as (fcm0 & um & fcm' & rest & s1 & s2 & Ha' & Hs' & Hw & Hf).
    rewrite Ha in Ha'. injection Ha' as <- <-.
    rewrite Hs in Hs'. injection Hs' as <- <- <-.
    split; [|by exists s2].
    apply finish_length in Hf as (cast' & b & Hlen & ->).
    rewrite length_fmap, Hfmt. unfold od_values in Hlen.
    rewrite length_fmap in Hlen. lia.
Qed.

Lemma full_write_back_covers_working_set ws s s' :
  full_write_back E ws s = (s', Ok ()) →
  ∃ evs,
    trace s' = evs ++ trace s
    ∧ reverse evs = (fun a => EvUpsertPerson (write_back_row a)) <$> ws
    ∧ upserted_ids (reverse evs) = (fun a => py_get a "id") <$> ws
    ∧ ∀ a, a ∈ ws → py_get a "id" ∈ upserted_ids (reverse evs).
Proof.
  intros H. apply full_write_back_trace in H.
  eexists. split; [exact H|]. rewrite reverse_involutive.
  split; [done|]. split; [apply upserted_ids_write_back|].
  intros a Ha. rewrite upserted_ids_write_back.
  apply list_elem_of_fmap. by exists a.
Qed.

(** Claim C6.  Every run that returns a cast has, right before the
    truncation, upserted into the identity store one row for every member
    of the working set [ws], in order, each upsert returning normally: the
    store the truncation finds is the store of the end of the matching
    with these rows upserted one after the other, the calls recorded in
    between are these upserts and nothing else, and the ids upserted are
    the ids of [ws], whether the truncation that follows keeps the member
    ([kept]) or removes it. *)
Theorem working_set_written_back_before_truncation
    tmdb emby douban item s s' final :
  _process_cast_list_from_api E self tmdb emby douban item s = (s', Ok final) →
  ∃ fcm0 unmatched fcm rest s1 s2 kept evs,
    after_pass_A E tmdb emby douban = Ok (fcm0, unmatched)
    ∧ supplement E self (configured_limit E self) fcm0 unmatched s
      = (s1, Ok (fcm, rest))
    ∧ full_write_back E (od_values fcm) s1 = (s2, Ok ())
    ∧ store_after_upserts E (write_back_row <$> od_values fcm) (world s1)
      = Some (world s2)
    ∧ trace s2 = evs ++ trace s1
    ∧ reverse evs
      = (fun a => EvUpsertPerson (write_back_row a)) <$> od_values fcm
    ∧ upserted_ids (reverse evs) = (fun a => py_get a "id") <$> od_values fcm
    ∧ truncate (configured_limit E self) (od_values fcm) = Ok kept
    ∧ finish E self item (od_values fcm) s2 = (s', Ok final)
    ∧ (∀ a, a ∈ kept → a ∈ od_values fcm)
    ∧ (∀ a, a ∈ od_values fcm →
         py_get a "id" ∈ upserted_ids (reverse evs)).
Proof.
  intros H. apply pipeline_Ok in H
    as (fcm0 & um & fcm & rest & s1 & s2 & Ha & Hs & Hw & Hf).
  destruct (finish_Ok _ _ _ _ _ Hf) as (kept & _ & _ & Hk & _).
  destruct (full_write_back_covers_working_set _ _ _ Hw)
    as (evs & Ht & Hev & Hids & Hall).
  exists fcm0, um, fcm, rest, s1, s2, kept, evs.
  split_and!; try done; [by apply full_write_back_store|].
  by eapply truncate_subset.
Qed.
End Stages.

(** John and Jane under a cap of one. *)
Lemma final_cast_within_cap_witness :
  formatter_adds_no_member Demo.plain
  ∧ _process_cast_list_from_api Demo.plain (Demo.processor Demo.cap_of_one)
      [Demo.john; Demo.jane] [] [] ∅ (Demo.start false)
    = (Demo.capped_run.1, Ok (Demo.final_of Demo.capped_run))
  ∧ Z.of_nat (length (Demo.final_of Demo.capped_run)) ≤ 1.
Proof.
  assert (formatter_adds_no_member Demo.plain) as Hfmt by (intros l a c; simpl; lia).
  assert (_process_cast_list_from_api Demo.plain (Demo.processor Demo.cap_of_one)
            [Demo.john; Demo.jane] [] [] ∅ (Demo.start false)
          = (Demo.capped_run.1, Ok (Demo.final_of Demo.capped_run))) as Hrun
    by (vm_compute; reflexivity).
  split; [exact Hfmt|]. split; [exact Hrun|].
  exact (proj1 (proj2 (final_cast_within_cap Demo.plain
                         (Demo.processor Demo.cap_of_one) _ _ _ _ _ _ _ Hfmt Hrun))).
Defined.

(** John and Jane fill a cap of two; [zhangsan] is left over. *)
Lemma cap_reached_skips_supplement_witness :
  formatter_keeps_length Demo.plain
  ∧ after_pass_A Demo.plain [Demo.john; Demo.jane] [] [Demo.zhangsan]
    = Ok Demo.full_house
  ∧ configured_limit Demo.plain (Demo.processor Demo.cap_of_two)
    ≤ Z.of_nat (length Demo.full_house.1)
  ∧ supplement Demo.plain (Demo.processor Demo.cap_of_two)
      (configured_limit Demo.plain (Demo.processor Demo.cap_of_two))
      Demo.full_house.1 Demo.full_house.2 (Demo.start false)
    = (Demo.start false, Ok (Demo.full_house.1, Demo.full_house.2)).
Proof.
  assert (formatter_keeps_length Demo.plain) as Hfmt by (intros l a c; reflexivity).
  assert (after_pass_A Demo.plain [Demo.john; Demo.jane] [] [Demo.zhangsan]
          = Ok (Demo.full_house.1, Demo.full_house.2)) as Ha
    by (vm_compute; reflexivity).
  assert (configured_limit Demo.plain (Demo.processor Demo.cap_of_two)
          ≤ Z.of_nat (length Demo.full_house.1)) as Hcap
    by (vm_compute; discriminate).
  split; [exact Hfmt|]. split; [exact Ha|]. split; [exact Hcap|].
  exact (proj1 (cap_reached_skips_supplement Demo.plain
                  (Demo.processor Demo.cap_of_two) _ _ _ ∅ _ _
                  (Demo.start false) Hfmt Ha Hcap)).
Defined.

(** The capped run of John and Jane: both are written back, one is kept. *)
Lemma working_set_written_back_before_truncation_witness :
  _process_cast_list_from_api Demo.plain (Demo.processor Demo.cap_of_one)
    [Demo.john; Demo.jane] [] [] ∅ (Demo.start false)
  = (Demo.capped_run.1, Ok (Demo.final_of Demo.capped_run))
  ∧ ∃ (fcm : list (string * PyDict)) s1 s2 kept evs,
      full_write_back Demo.plain (od_values fcm) s1 = (s2, Ok ())
      ∧ store_after_upserts Demo.plain (write_back_row <$> od_values fcm)
          (world s1) = Some (world s2)
      ∧ trace s2 = evs ++ trace s1
      ∧ upserted_ids (reverse evs) = (fun a => py_get a "id") <$> od_values fcm
      ∧ truncate (configured_limit Demo.plain (Demo.processor Demo.cap_of_one))
          (od_values fcm) = Ok kept.
Proof.
  assert (_process_cast_list_from_api Demo.plain (Demo.processor Demo.cap_of_one)
            [Demo.john; Demo.jane] [] [] ∅ (Demo.start false)
          = (Demo.capped_run.1, Ok (Demo.final_of Demo.capped_run))) as Hrun
    by (vm_compute; reflexivity).
  split; [exact Hrun|].
  destruct (working_set_written_back_before_truncation Demo.plain
              (Demo.processor Demo.cap_of_one) _ _ _ _ _ _ _ Hrun)
    as (fcm0 & um & fcm & rest & s1 & s2 & kept & evs
        & _ & _ & Hw & Hst & Ht & _ & Hids & Hk & _).
  by exists fcm, s1, s2, kept, evs.
Defined.

(** ** The translation phase *)
Section Translation.
Context {W : Type} (E : Collaborators W) (self : MediaProcessor).

(** [emits] through a bind whose first part establishes [Q] of its value. *)
Lemma emits_sbind_with {A B} P (Q : A → Prop) (m : M W A) (k : A → M W B) :
  (∀ s s1 a, m s = (s1, Ok a) → Q a) →
  emits P m → (∀ a, Q a → emits P (k a)) → emits P (sbind m k).
Proof.
  intros HQ Hm Hk s s' r H. unfold sbind in H.
  destruct (m s) as [s1 [a|e]] eqn:Hms.
  - destruct (Hm _ _ _ Hms) as (ev1 & Ht1 & Hall1).
    destruct (Hk a (HQ _ _ _ Hms) _ _ _ H) as (ev2 & Ht2 & Hall2).
    exists (ev2 ++ ev1). split.
    + by rewrite Ht2, Ht1, app_assoc.
    + by apply Forall_app.
  - simplify_eq. eauto.
Qed.

Lemma check_cache_loop_all_cached l c s s1 c' t' :
  all_cached E l.*2 →
  sfoldl (check_cache E) (c, []) l s = (s1, Ok (c', t')) → t' = [].
Proof.
  revert c s. induction l as [|x l IH]; simpl; intros c s Hall H.
  - by injection H as _ _ <-.
  - apply sbind_Ok in H as (s2 & [c2 t2] & Hstep & H).
    assert (t2 = []) as ->.
    { unfold check_cache in Hstep.
      apply sbind_Ok in Hstep as (s3 & entry & Hcall & Hstep).
      unfold call in Hcall.
      destruct (Hall x.2 (world s)) as (w' & entry' & Hget & Htr); [left|].
      rewrite Hget in Hcall. injection Hcall as <- <-.
      rewrite Htr in Hstep.
      apply sbind_Ok in Hstep as (s4 & d & _ & Hstep).
      by injection Hstep as _ _ <-. }
    eapply IH; [|exact H]. intros t w Ht. apply Hall. by right.
Qed.

Lemma consult_cache_all_cached cast s s1 c t :
  is_fast (translation_mode_of_config E self) = true →
  (∀ texts, rfoldl (collect_texts E) [] cast = Ok texts → all_cached E texts.*2) →
  consult_cache E self cast s = (s1, Ok (c, t)) → t = [].
Proof.
  intros Hfast Hall H. unfold consult_cache in H. rewrite Hfast in H.
  apply sbind_Ok in H as (s2 & texts & [-> Ht]%lift_eq & H).
  eapply check_cache_loop_all_cached; [|exact H]. by apply Hall.
Qed.

Lemma translate_phase_all_cached item cast :
  is_fast (translation_mode_of_config E self) = true →
  (∀ texts, rfoldl (collect_texts E) [] cast = Ok texts → all_cached E texts.*2) →
  emits (fun ev => is_batch_translate ev = false)
    (translate_phase E self item cast).
Proof.
  intros Hfast Hall. unfold translate_phase, translation_attempt.
  apply emits_sbind.
  - destruct (ai_translation_enabled _ _); [|apply emits_sret].
    apply emits_try_except; [|intros; apply emits_sret].
    apply emits_sbind; [|intros; apply emits_sret].
    apply (emits_sbind_with _ (fun ct => ct.2 = [])).
    + intros s s1 [c t] H. by eapply consult_cache_all_cached.
    + eapply emits_mono; [|apply emits_consult_cache]. by intros [].
    + intros [c t] Ht. simpl in Ht. subst t. unfold send_to_api.
      rewrite bool_decide_eq_true_2 by done. apply emits_sret.
  - intros [c|]; [apply emits_lift | apply emits_sret].
Qed.

Lemma translate_phase_direct item cast :
  is_fast (translation_mode_of_config E self) = false →
  emits (fun ev => is_cache_access ev = false)
    (translate_phase E self item cast).
Proof.
  intros Hfast. unfold translate_phase, translation_attempt.
  apply emits_sbind.
  - destruct (ai_translation_enabled _ _); [|apply emits_sret].
    apply emits_try_except; [|intros; apply emits_sret].
    apply emits_sbind; [|intros; apply emits_sret].
    apply emits_sbind.
    + unfold consult_cache. rewrite Hfast.
      apply emits_sbind; [apply emits_lift | intros; apply emits_sret].
    + intros [c t]. unfold send_to_api. rewrite Hfast.
      repeat emits_step.
  - intros [c|]; [apply emits_lift | apply emits_sret].
Qed.

(** Outside the translation phase the pipeline makes no translation call. *)
Lemma emits_pipeline_around P item tmdb emby douban :
  (∀ ev, is_translation_event ev = false → P ev) →
  (∀ cast, emits P (translate_phase E self item cast)) →
  emits P (_process_cast_list_from_api E self tmdb emby douban item).
Proof.
  intros HP Ht. unfold _process_cast_list_from_api.
  apply emits_sbind; [apply emits_lift | intros [fcm0 um]].
  apply emits_sbind; [apply emits_lift | intros limit].
  apply emits_sbind.
  { eapply emits_mono; [|apply emits_supplement].
    intros ev [H|H]; apply HP; by destruct ev. }
  intros [fcm rest].
  apply emits_sbind.
  { eapply emits_mono; [|apply emits_full_write_back].
    intros ev H; apply HP; by destruct ev. }
  intros _. unfold finish.
  apply emits_sbind; [apply emits_lift | intros limit'].
  apply emits_sbind; [apply emits_lift | intros cast].
  apply emits_sbind; [apply Ht | intros cast'].
  apply emits_sbind; [apply emits_lift | intros b]. apply emits_sret.
Qed.

(** Claim C7.  In the cached ([fast]) mode, when every text collected from
    the capped set has a true entry in the translation cache, the
    translation phase never calls the translator, and neither does the
    whole run when the cache knows every text; in any other mode no call of
    the run reads or writes the translation cache. *)
Theorem translation_cache_policy item :
  (∀ cast,
     is_fast (translation_mode_of_config E self) = true →
     (∀ texts, rfoldl (collect_texts E) [] cast = Ok texts →
               all_cached E texts.*2) →
     emits (fun ev => is_batch_translate ev = false)
       (translate_phase E self item cast))
  ∧ (∀ tmdb emby douban,
       is_fast (translation_mode_of_config E self) = true →
       (∀ t w, ∃ w' entry, get_translation_from_db E t w = (w', Ok entry)
                           ∧ py_truthy entry = true) →
       emits (fun ev => is_batch_translate ev = false)
         (_process_cast_list_from_api E self tmdb emby douban item))
  ∧ (∀ tmdb emby douban,
       is_fast (translation_mode_of_config E self) = false →
       emits (fun ev => is_cache_access ev = false)
         (_process_cast_list_from_api E self tmdb emby douban item)).
Proof.
  split_and!.
  - intros cast. apply translate_phase_all_cached.
  - intros tmdb emby douban Hfast Hall. apply emits_pipeline_around.
    + by intros [].
    + intros cast. apply translate_phase_all_cached; [done|].
      intros texts _ t w _. apply Hall.
  - intros tmdb emby douban Hfast. apply emits_pipeline_around.
    + by intros [].
    + intros cast. by apply translate_phase_direct.
Qed.

(** An exception anywhere in the attempt leaves the cast as it was. *)
Lemma translate_phase_abandoned item cast s s' e :
  ai_translation_enabled E self = true →
  translation_attempt E self item cast s = (s', Raise e) →
  translate_phase E self item cast s = (s', Ok cast).
Proof.
  intros Hen H. unfold translate_phase. rewrite Hen.
  unfold sbind at 1. unfold try_except. unfold sbind at 1. by rewrite H.
Qed.

Lemma translation_attempt_translator_raises item cast s s1 c t w2 e :
  consult_cache E self cast s = (s1, Ok (c, t)) →
  t ≠ [] →
  batch_translate E t.*2 (translation_mode_of_config E self)
    (py_get item "Name") (py_get item "ProductionYear") (world s1)
  = (w2, Raise e) →
  translation_attempt E self item cast s
  = (mkSt w2 (EvBatchTranslate t.*2 (translation_mode_of_config E self)
                :: trace s1), Raise e).
Proof.
  intros Hc Ht Hb. unfold translation_attempt. unfold sbind at 1. rewrite Hc.
  unfold send_to_api. rewrite bool_decide_eq_false_2 by done.
  unfold sbind at 1. unfold call. by rewrite Hb.
Qed.

Lemma pipeline_from_stages tmdb emby douban item fcm0 um fcm rest s s1 s2 s3 r :
  after_pass_A E tmdb emby douban = Ok (fcm0, um) →
  supplement E self (configured_limit E self) fcm0 um s = (s1, Ok (fcm, rest)) →
  full_write_back E (od_values fcm) s1 = (s2, Ok ()) →
  finish E self item (od_values fcm) s2 = (s3, r) →
  _process_cast_list_from_api E self tmdb emby douban item s = (s3, r).
Proof.
  intros Ha Hs Hw Hf. unfold _process_cast_list_from_api.
  rewrite Ha, max_actors_limit_configured.
  unfold lift at 1 2. unfold sbind at 1 2. unfold sbind at 1. rewrite Hs.
  unfold sbind at 1. by rewrite Hw.
Qed.

(** Claim C8.  When the translator raises at the call the translation
    phase makes, the phase returns the capped set as it was, every name and
    character untouched; the last stage of the run completes with the
    formatted capped set instead of raising, and so does the run whose
    earlier stages have led to this working set. *)
Theorem translator_error_abandons_phase item ws cast s s1 c t w2 e b :
  ai_translation_enabled E self = true →
  truncate (configured_limit E self) ws = Ok cast →
  consult_cache E self cast s = (s1, Ok (c, t)) →
  t ≠ [] →
  batch_translate E t.*2 (translation_mode_of_config E self)
    (py_get item "Name") (py_get item "ProductionYear") (world s1)
  = (w2, Raise e) →
  py_contains "Animation" (genres_of item) = Ok b →
  let s2 := mkSt w2 (EvBatchTranslate t.*2 (translation_mode_of_config E self)
                       :: trace s1) in
  let final := with_provider_ids E
                 <$> format_and_complete_cast_list E cast b (config self) in
  translate_phase E self item cast s = (s2, Ok cast)
  ∧ finish E self item ws s = (s2, Ok final)
  ∧ ∀ tmdb emby douban fcm0 um fcm rest s_in s_sup,
      after_pass_A E tmdb emby douban = Ok (fcm0, um) →
      supplement E self (configured_limit E self) fcm0 um s_in
      = (s_sup, Ok (fcm, rest)) →
      ws = od_values fcm →
      full_write_back E ws s_sup = (s, Ok ()) →
      _process_cast_list_from_api E self tmdb emby douban item s_in
      = (s2, Ok final).
Proof.
  intros Hen Hk Hc Ht Hb Hg s2 final.
  assert (translate_phase E self item cast s = (s2, Ok cast)) as Hp.
  { apply (translate_phase_abandoned _ _ _ _ e); [done|].
    by eapply translation_attempt_translator_raises. }
  assert (finish E self item ws s = (s2, Ok final)) as Hf.
  { unfold finish. rewrite max_actors_limit_configured.
    unfold lift at 1 2. unfold sbind at 1 2. rewrite Hk.
    unfold sbind at 1. rewrite Hp. unfold lift, sbind. by rewrite Hg. }
  split_and!; [done|done|].
  intros tmdb emby douban fcm0 um fcm rest s_in s_sup Ha Hs -> Hw.
  by eapply pipeline_from_stages.
Qed.
End Translation.

(** John is in the cache: the phase does not call the translator. *)
Lemma translation_cache_policy_witness :
  is_fast (translation_mode_of_config Demo.all_in_cache
             (Demo.processor Demo.translating)) = true
  ∧ (∀ texts,
       rfoldl (collect_texts Demo.all_in_cache) [] [Demo.john] = Ok texts →
       all_cached Demo.all_in_cache texts.*2)
  ∧ emits (fun ev => is_batch_translate ev = false)
      (translate_phase Demo.all_in_cache (Demo.processor Demo.translating) ∅
         [Demo.john]).
Proof.
  assert (∀ texts,
            rfoldl (collect_texts Demo.all_in_cache) [] [Demo.john] = Ok texts →
            all_cached Demo.all_in_cache texts.*2) as Hall.
  { intros texts _ t w _. exists w, Demo.cached_entry. split; reflexivity. }
  split; [reflexivity|]. split; [exact Hall|].
  exact (proj1 (translation_cache_policy Demo.all_in_cache
                  (Demo.processor Demo.translating) ∅)
           [Demo.john] eq_refl Hall).
Defined.

(** The translator is down and John is not in the cache. *)
Lemma translator_error_abandons_phase_witness :
  translate_phase Demo.translator_down (Demo.processor Demo.translating) ∅
    [Demo.john] (Demo.start false)
  = (mkSt false [EvBatchTranslate [VStr "John"] (VStr "fast");
                 EvGetTranslation (VStr "John")],
     Ok [Demo.john]).
Proof.
  assert (Demo.cache_miss.2.2 ≠ []) as Ht by (vm_compute; discriminate).
  exact (proj1 (translator_error_abandons_phase Demo.translator_down
                  (Demo.processor Demo.translating) ∅ [Demo.john] [Demo.john]
                  (Demo.start false) Demo.cache_miss.1 Demo.cache_miss.2.1
                  Demo.cache_miss.2.2 false
                  (OtherError "translator unavailable") false
                  eq_refl eq_refl eq_refl Ht eq_refl eq_refl)).
Defined.

(** ** Cancellation and exceptions *)
Section Abort.
Context {W : Type} (E : Collaborators W) (self : MediaProcessor).

Lemma check_stop_set s :
  stop_event_is_set E (world s) = true →
  check_stop E s = (s, Raise InterruptedError).
Proof. intros H. unfold check_stop, sbind, is_stop_requested. by rewrite H. Qed.

Lemma check_stop_clear s :
  stop_event_is_set E (world s) = false → check_stop E s = (s, Ok ()).
Proof. intros H. unfold check_stop, sbind, is_stop_requested. by rewrite H. Qed.

Lemma pass_B_stopped fcm d rest s :
  stop_event_is_set E (world s) = true →
  pass_B E fcm (d :: rest) s = (s, Raise InterruptedError).
Proof.
  intros H. unfold pass_B. simpl. unfold sbind at 1. unfold pass_B_step.
  unfold sbind at 1. by rewrite check_stop_set.
Qed.

Lemma supplement_stopped fcm d rest s :
  stop_event_is_set E (world s) = true →
  Z.of_nat (length fcm) < configured_limit E self →
  supplement E self (configured_limit E self) fcm (d :: rest) s
  = (s, Raise InterruptedError).
Proof.
  intros Hstop Hcap. unfold supplement.
  rewrite (proj2 (Z.leb_gt _ _) Hcap). unfold sbind at 1.
  by rewrite pass_B_stopped.
Qed.

Lemma pipeline_supplement_raises tmdb emby douban item fcm um s s' e :
  after_pass_A E tmdb emby douban = Ok (fcm, um) →
  supplement E self (configured_limit E self) fcm um s = (s', Raise e) →
  _process_cast_list_from_api E self tmdb emby douban item s = (s', Raise e).
Proof.
  intros Ha Hs. unfold _process_cast_list_from_api.
  rewrite Ha, max_actors_limit_configured.
  unfold lift at 1 2. unfold sbind at 1 2. unfold sbind at 1. by rewrite Hs.
Qed.

Lemma emits_select_authoritative item_type tmdb_id force :
  emits (fun ev => is_acquisition ev = true)
    (select_authoritative E self item_type tmdb_id force).
Proof. unfold select_authoritative. repeat emits_step. Qed.

Lemma emits_acquire item item_type tmdb_id force :
  emits (fun ev => is_acquisition ev = true)
    (acquire E self item item_type tmdb_id force).
Proof.
  unfold acquire.
  apply emits_sbind; [by apply emits_call | intros enriched].
  apply emits_sbind; [apply emits_select_authoritative | intros auth].
  apply emits_sbind; [by apply emits_call | intros douban].
  repeat emits_step.
Qed.

Lemma session_handler_returns_false item_id e s s' r :
  session_handler E item_id e s = (s', r) →
  r = Ok false
  ∧ (is_value_or_interrupted e = true → s' = s)
  ∧ (∃ evs, trace s' = evs ++ trace s
            ∧ Forall (fun ev => is_failed_log ev = true) evs)
  ∧ (is_value_or_interrupted e = false →
     trace s' = EvSaveToFailedLog "核心处理异常" :: trace s
     ∧ world s' = (save_to_failed_log E item_id "核心处理异常" (world s)).1).
Proof.
  unfold session_handler. destruct (is_value_or_interrupted e).
  - intros [= <- <-]. split_and!; [done|done| |done]. by exists [].
  - unfold sbind, try_except, call, catch_all.
    destruct (save_to_failed_log E _ _ (world s)) as [w [[]|e']];
      intros [= <- <-]; (split_and!; [done|done| |done]);
      eexists [_]; split; try done; by repeat constructor.
Qed.

(** Whatever the body of the session raises, the session returns [False]. *)
Lemma session_body_raises item f1 f2 tmdb_id s s1 e :
  provider_tmdb item = Ok tmdb_id → py_truthy tmdb_id = true →
  session_body E self item (py_get item "Id") (py_get item "Type") tmdb_id f2 s
  = (s1, Raise e) →
  ∃ s', _process_item_core_logic_api_version E self item f1 f2 s = (s', Ok false)
        ∧ (is_value_or_interrupted e = true → s' = s1)
        ∧ (∃ evs, trace s' = evs ++ trace s1
                  ∧ Forall (fun ev => is_failed_log ev = true) evs)
        ∧ (is_value_or_interrupted e = false →
           trace s' = EvSaveToFailedLog "核心处理异常" :: trace s1
           ∧ world s'
             = (save_to_failed_log E (py_get item "Id") "核心处理异常"
                  (world s1)).1).
Proof.
  intros Hid Htr Hb. unfold _process_item_core_logic_api_version.
  rewrite Hid. unfold lift, sbind at 1. rewrite Htr. simpl.
  unfold try_except. rewrite Hb. unfold catch_all.
  destruct (session_handler E (py_get item "Id") e s1) as [s' r] eqn:Hh.
  apply session_handler_returns_false in Hh as (-> & Hs' & Hev & Hlog).
  by exists s'.
Qed.

Lemma session_body_pipeline_raises item tmdb_id f2 s s1 s2 tmdb emby douban e :
  acquire E self item (py_get item "Type") tmdb_id f2 s
  = (s1, Ok (tmdb, emby, douban)) →
  _process_cast_list_from_api E self tmdb emby douban item s1 = (s2, Raise e) →
  session_body E self item (py_get item "Id") (py_get item "Type") tmdb_id f2 s
  = (s2, Raise e).
Proof.
  intros Ha Hp. unfold session_body. unfold sbind at 1. rewrite Ha.
  unfold sbind at 1. by rewrite Hp.
Qed.

(** Claim C3, as amended.  When the stop flag is set as the pipeline is
    entered, the working set is below the cap when pass A ends and at least
    one regional candidate is left unmatched, the stop check of the first
    iteration of pass B raises [InterruptedError] before any call is made:
    the pipeline raises it in the state it was entered in, the session
    handler returns [False], and the calls of the whole session are those
    of the acquisition stages, none of them an identity-store upsert or a
    commit. *)
Theorem stop_before_matching_aborts
    item tmdb emby douban fcm d_actor rest tmdb_id f1 f2 s0 s :
  provider_tmdb item = Ok tmdb_id → py_truthy tmdb_id = true →
  acquire E self item (py_get item "Type") tmdb_id f2 s0
  = (s, Ok (tmdb, emby, douban)) →
  stop_event_is_set E (world s) = true →
  after_pass_A E tmdb emby douban = Ok (fcm, d_actor :: rest) →
  Z.of_nat (length fcm) < configured_limit E self →
  _process_cast_list_from_api E self tmdb emby douban item s
  = (s, Raise InterruptedError)
  ∧ _process_item_core_logic_api_version E self item f1 f2 s0 = (s, Ok false)
  ∧ ∃ evs, trace s = evs ++ trace s0
           ∧ Forall (fun ev => is_acquisition ev = true) evs
           ∧ Forall (fun ev => is_upsert ev = false ∧ is_commit ev = false) evs.
Proof.
  intros Hid Htr Ha Hstop Hpa Hcap.
  assert (_process_cast_list_from_api E self tmdb emby douban item s
          = (s, Raise InterruptedError)) as Hp.
  { eapply pipeline_supplement_raises; [done|]. by apply supplement_stopped. }
  split; [done|].
  pose proof (session_body_pipeline_raises _ _ _ _ _ _ _ _ _ _ Ha Hp) as Hb.
  destruct (session_body_raises _ f1 _ _ _ _ _ Hid Htr Hb)
    as (s' & Hs & Heq & _).
  rewrite (Heq eq_refl) in Hs. split; [done|].
  destruct (emits_acquire _ _ _ _ _ _ _ Ha) as (evs & Ht & Hall).
  exists evs. split_and!; [done|done|].
  eapply Forall_impl; [exact Hall|]. by intros [].
Qed.

Lemma sfoldl_head_raises {A B} (f : A → B → M W A) a x l s s' e :
  f a x s = (s', Raise e) → sfoldl f a (x :: l) s = (s', Raise e).
Proof. intros H. simpl. unfold sbind. by rewrite H. Qed.

Lemma find_by_douban_id_absorbs id s w' :
  py_truthy id = true →
  select_person_by_douban_id E id (world s) = (w', Raise SqliteError) →
  _find_person_in_map_by_douban_id E id s
  = (mkSt w' (EvFindByDoubanId id :: trace s), Ok None).
Proof.
  intros Htr H. unfold _find_person_in_map_by_douban_id. rewrite Htr. simpl.
  unfold try_except, call. by rewrite H.
Qed.

Lemma find_by_imdb_id_absorbs id s w' :
  py_truthy id = true →
  select_person_by_imdb_id E id (world s) = (w', Raise SqliteError) →
  _find_person_in_map_by_imdb_id E id s
  = (mkSt w' (EvFindByImdbId id :: trace s), Ok None).
Proof.
  intros Htr H. unfold _find_person_in_map_by_imdb_id. rewrite Htr. simpl.
  unfold try_except, call. by rewrite H.
Qed.

Lemma pass_C_candidate_details_raise fcm d s w' e :
  py_truthy (py_get d "DoubanCelebrityId") = true →
  douban_api self = true → py_truthy (tmdb_api_key self) = true →
  stop_event_is_set E (world s) = false →
  celebrity_details E (py_get d "DoubanCelebrityId") (world s) = (w', Raise e) →
  pass_C_candidate E self fcm d s
  = (mkSt w' (EvCelebrityDetails (py_get d "DoubanCelebrityId") :: trace s),
     Raise e).
Proof.
  intros Hid Hapi Hkey Hstop Hd. unfold pass_C_candidate.
  rewrite Hid, Hapi, Hkey. simpl. unfold sbind at 1.
  rewrite check_stop_clear by done. unfold sbind at 1. unfold call.
  by rewrite Hd.
Qed.

Lemma pass_C_candidate_details_error fcm d s w' details :
  py_truthy (py_get d "DoubanCelebrityId") = true →
  douban_api self = true → py_truthy (tmdb_api_key self) = true →
  stop_event_is_set E (world s) = false →
  celebrity_details E (py_get d "DoubanCelebrityId") (world s)
  = (w', Ok details) →
  py_truthy details = false
  ∨ (∃ payload, details = VDict payload
                ∧ py_truthy (py_get payload "error") = true) →
  pass_C_candidate E self fcm d s
  = (mkSt w' (EvCelebrityDetails (py_get d "DoubanCelebrityId") :: trace s),
     Ok (fcm, false)).
Proof.
  intros Hid Hapi Hkey Hstop Hd Herr. unfold pass_C_candidate.
  rewrite Hid, Hapi, Hkey. simpl. unfold sbind at 1.
  rewrite check_stop_clear by done. unfold sbind at 1. unfold call.
  rewrite Hd. unfold sbind at 1, lift, d_imdb_id_of.
  destruct Herr as [->|(payload & -> & Hp)]; [done|].
  destruct (py_truthy (VDict payload)); [|done]. simpl. by rewrite Hp.
Qed.

Lemma pass_C_candidate_imdb_unreadable fcm d s w' payload extra e :
  py_truthy (py_get d "DoubanCelebrityId") = true →
  douban_api self = true → py_truthy (tmdb_api_key self) = true →
  stop_event_is_set E (world s) = false →
  celebrity_details E (py_get d "DoubanCelebrityId") (world s)
  = (w', Ok (VDict payload)) →
  payload !! "extra" = Some extra → as_dict extra = Raise e →
  pass_C_candidate E self fcm d s
  = (mkSt w' (EvCelebrityDetails (py_get d "DoubanCelebrityId") :: trace s),
     Ok (fcm, false)).
Proof.
  intros Hid Hapi Hkey Hstop Hd Hextra Hraise. unfold pass_C_candidate.
  rewrite Hid, Hapi, Hkey. simpl. unfold sbind at 1.
  rewrite check_stop_clear by done. unfold sbind at 1. unfold call.
  rewrite Hd. unfold sbind at 1, lift, d_imdb_id_of.
  destruct (py_truthy (VDict payload)); [|done]. simpl.
  destruct (negb (py_truthy (py_get payload "error"))); [|done].
  unfold imdb_id_of_details. by rewrite Hextra, Hraise.
Qed.

Lemma pass_C_head_raises limit fcm still d rest s s' e :
  stop_event_is_set E (world s) = false →
  Z.of_nat (length fcm) < limit →
  pass_C_candidate E self fcm d s = (s', Raise e) →
  pass_C E self limit fcm still (d :: rest) s = (s', Raise e).
Proof.
  intros Hstop Hcap H. simpl. unfold sbind at 1.
  rewrite check_stop_clear by done.
  rewrite (proj2 (Z.leb_gt _ _) Hcap). unfold sbind. by rewrite H.
Qed.

Lemma supplement_raises limit fcm um s :
  Z.of_nat (length fcm) < limit →
  (∀ s' e, pass_B E fcm um s = (s', Raise e) →
           supplement E self limit fcm um s = (s', Raise e))
  ∧ (∀ s1 fcm1 still s' e,
       pass_B E fcm um s = (s1, Ok (fcm1, still)) →
       pass_C E self limit fcm1 [] still s1 = (s', Raise e) →
       supplement E self limit fcm um s = (s', Raise e)).
Proof.
  intros Hcap. unfold supplement. rewrite (proj2 (Z.leb_gt _ _) Hcap).
  split.
  - intros s' e H. unfold sbind. by rewrite H.
  - intros s1 fcm1 still s' e H1 H2. unfold sbind. by rewrite H1.
Qed.

(** Claim C2, as amended.  Passes B and C have no handler around the
    processing of a candidate: an exception raised while a candidate is
    processed, such as one raised by the detail call of the regional
    provider, leaves the loop of pass B or C, the two passes and the
    pipeline, which returns no cast list; the session handler catches it
    and returns [False]: for a [ValueError] or an [InterruptedError] it
    leaves the state as the pipeline left it, for any other exception it
    calls the failed log once, and the world is the one that call leaves,
    whether the call returns or raises.  What is absorbed per candidate is
    a storage error raised by an identity-map look-up, which counts as a
    miss, an error raised while the IMDb id is read out of the detail
    payload, and a detail call that returns nothing or an error payload,
    after which the candidate is discarded. *)
Theorem candidate_exception_aborts_run :
  (∀ acc d_actor rest s s' e,
     pass_B_step E acc d_actor s = (s', Raise e) →
     sfoldl (pass_B_step E) acc (d_actor :: rest) s = (s', Raise e))
  ∧ (∀ limit fcm still d_actor rest s s' e,
       stop_event_is_set E (world s) = false →
       Z.of_nat (length fcm) < limit →
       pass_C_candidate E self fcm d_actor s = (s', Raise e) →
       pass_C E self limit fcm still (d_actor :: rest) s = (s', Raise e))
  ∧ (∀ fcm d_actor s w' e,
       py_truthy (py_get d_actor "DoubanCelebrityId") = true →
       douban_api self = true → py_truthy (tmdb_api_key self) = true →
       stop_event_is_set E (world s) = false →
       celebrity_details E (py_get d_actor "DoubanCelebrityId") (world s)
       = (w', Raise e) →
       pass_C_candidate E self fcm d_actor s
       = (mkSt w' (EvCelebrityDetails (py_get d_actor "DoubanCelebrityId")
                     :: trace s), Raise e))
  ∧ (∀ fcm d_actor s w' details,
       py_truthy (py_get d_actor "DoubanCelebrityId") = true →
       douban_api self = true → py_truthy (tmdb_api_key self) = true →
       stop_event_is_set E (world s) = false →
       celebrity_details E (py_get d_actor "DoubanCelebrityId") (world s)
       = (w', Ok details) →
       py_truthy details = false
       ∨ (∃ payload, details = VDict payload
                     ∧ py_truthy (py_get payload "error") = true) →
       pass_C_candidate E self fcm d_actor s
       = (mkSt w' (EvCelebrityDetails (py_get d_actor "DoubanCelebrityId")
                     :: trace s), Ok (fcm, false)))
  ∧ (∀ limit fcm um s,
       Z.of_nat (length fcm) < limit →
       (∀ s' e, pass_B E fcm um s = (s', Raise e) →
                supplement E self limit fcm um s = (s', Raise e))
       ∧ (∀ s1 fcm1 still s' e,
            pass_B E fcm um s = (s1, Ok (fcm1, still)) →
            pass_C E self limit fcm1 [] still s1 = (s', Raise e) →
            supplement E self limit fcm um s = (s', Raise e)))
  ∧ (∀ tmdb emby douban item fcm um s s' e,
       after_pass_A E tmdb emby douban = Ok (fcm, um) →
       supplement E self (configured_limit E self) fcm um s = (s', Raise e) →
       _process_cast_list_from_api E self tmdb emby douban item s
       = (s', Raise e))
  ∧ (∀ item f1 f2 tmdb_id s s1 s2 tmdb emby douban e,
       provider_tmdb item = Ok tmdb_id → py_truthy tmdb_id = true →
       acquire E self item (py_get item "Type") tmdb_id f2 s
       = (s1, Ok (tmdb, emby, douban)) →
       _process_cast_list_from_api E self tmdb emby douban item s1
       = (s2, Raise e) →
       ∃ s', _process_item_core_logic_api_version E self item f1 f2 s
             = (s', Ok false)
             ∧ (is_value_or_interrupted e = true → s' = s2)
             ∧ (is_value_or_interrupted e = false →
                trace s' = EvSaveToFailedLog "核心处理异常" :: trace s2
                ∧ world s'
                  = (save_to_failed_log E (py_get item "Id") "核心处理异常"
                       (world s2)).1))
  ∧ (∀ id s w',
       py_truthy id = true →
       (select_person_by_douban_id E id (world s) = (w', Raise SqliteError) →
        _find_person_in_map_by_douban_id E id s
        = (mkSt w' (EvFindByDoubanId id :: trace s), Ok None))
       ∧ (select_person_by_imdb_id E id (world s) = (w', Raise SqliteError) →
          _find_person_in_map_by_imdb_id E id s
          = (mkSt w' (EvFindByImdbId id :: trace s), Ok None)))
  ∧ (∀ fcm d_actor s w' payload extra e,
       py_truthy (py_get d_actor "DoubanCelebrityId") = true →
       douban_api self = true → py_truthy (tmdb_api_key self) = true →
       stop_event_is_set E (world s) = false →
       celebrity_details E (py_get d_actor "DoubanCelebrityId") (world s)
       = (w', Ok (VDict payload)) →
       payload !! "extra" = Some extra → as_dict extra = Raise e →
       pass_C_candidate E self fcm d_actor s
       = (mkSt w' (EvCelebrityDetails (py_get d_actor "DoubanCelebrityId")
                     :: trace s), Ok (fcm, false))).
Proof.
  split_and!.
  - intros. by apply sfoldl_head_raises.
  - intros. by apply pass_C_head_raises.
  - intros. by apply pass_C_candidate_details_raise.
  - intros. by eapply pass_C_candidate_details_error.
  - intros. by apply supplement_raises.
  - intros. by eapply pipeline_supplement_raises.
  - intros item f1 f2 tmdb_id s s1 s2 tmdb emby douban e Hid Htr Ha Hp.
    pose proof (session_body_pipeline_raises _ _ _ _ _ _ _ _ _ _ Ha Hp) as Hb.
    destruct (session_body_raises _ f1 _ _ _ _ _ Hid Htr Hb)
      as (s' & Hs & Hquiet & _ & Hlog).
    by exists s'.
  - intros id s w' Htr. split; intros H.
    + by apply find_by_douban_id_absorbs.
    + by apply find_by_imdb_id_absorbs.
  - intros. by eapply pass_C_candidate_imdb_unreadable.
Qed.
End Abort.

(** The session of [Demo.title] with the stop flag set and one candidate
    left over by pass A. *)
Lemma stop_before_matching_aborts_witness :
  stop_event_is_set Demo.with_candidate (world Demo.stopped_inputs.1) = true
  ∧ _process_item_core_logic_api_version Demo.with_candidate
      (Demo.processor ∅) Demo.title false false (Demo.start true)
    = (Demo.stopped_inputs.1, Ok false).
Proof.
  split; [reflexivity|].
  exact (proj1 (proj2
    (stop_before_matching_aborts Demo.with_candidate (Demo.processor ∅)
       Demo.title Demo.stopped_inputs.2.1.1 Demo.stopped_inputs.2.1.2
       Demo.stopped_inputs.2.2 Demo.stopped_working_set.1 Demo.zhangsan []
       (VStr "55") false false (Demo.start true) Demo.stopped_inputs.1
       eq_refl eq_refl eq_refl eq_refl eq_refl eq_refl))).
Defined.

(** Claim C3 as the spec has it fails: with the stop flag set from the
    start and no regional candidate, no stop check is reached; the
    pipeline upserts John and returns a cast, and the session commits and
    returns [True]. *)
Lemma stop_flag_unchecked_counterexample :
  stop_event_is_set Demo.plain (world (Demo.start true)) = true
  ∧ _process_cast_list_from_api Demo.plain (Demo.processor ∅) [Demo.john] []
      [] ∅ (Demo.start true) = Demo.stopped_run
  ∧ (∃ final, Demo.stopped_run.2 = Ok final)
  ∧ upserted_ids (trace Demo.stopped_run.1) = [VInt 1]
  ∧ _process_item_core_logic_api_version Demo.plain (Demo.processor ∅)
      Demo.title false false (Demo.start true) = Demo.stopped_session
  ∧ stop_event_is_set Demo.plain (world Demo.stopped_session.1) = true
  ∧ Demo.stopped_session.2 = Ok true
  ∧ upserted_ids (trace Demo.stopped_session.1) = [VStr "1"]
  ∧ existsb is_commit (trace Demo.stopped_session.1) = true.
Proof.
  split_and!; try (vm_compute; reflexivity). eexists. reflexivity.
Qed.

(** The detail call of the regional provider raises for [zhangsan]. *)
Lemma candidate_exception_aborts_run_witness :
  celebrity_details Demo.details_down (py_get Demo.zhangsan "DoubanCelebrityId")
    (world (Demo.start false))
  = (false, Raise (OtherError "regional provider down"))
  ∧ pass_C_candidate Demo.details_down (Demo.processor ∅) [] Demo.zhangsan
      (Demo.start false)
    = (mkSt false [EvCelebrityDetails (VStr "1002")],
       Raise (OtherError "regional provider down")).
Proof.
  split; [reflexivity|].
  exact (proj1 (proj2 (proj2
    (candidate_exception_aborts_run Demo.details_down (Demo.processor ∅))))
    [] Demo.zhangsan (Demo.start false) false
    (OtherError "regional provider down")
    eq_refl eq_refl eq_refl eq_refl eq_refl).
Defined.

(** Claim C2 as the spec has it fails: the detail call raises while
    [zhangsan] is processed in pass C; the pipeline raises instead of
    returning a cast, and the session writes the failed log and returns
    [False] without updating the server. *)
Lemma candidate_exception_counterexample :
  _process_cast_list_from_api Demo.details_down (Demo.processor ∅)
    [Demo.john] [] [Demo.zhangsan] ∅ (Demo.start false) = Demo.failing_run
  ∧ Demo.failing_run.2 = Raise (OtherError "regional provider down")
  ∧ _process_item_core_logic_api_version Demo.details_down (Demo.processor ∅)
      Demo.title false false (Demo.start false) = Demo.failing_session
  ∧ Demo.failing_session.2 = Ok false
  ∧ existsb is_failed_log (trace Demo.failing_session.1) = true
  ∧ existsb is_commit (trace Demo.failing_session.1) = false.
Proof. split_and!; vm_compute; reflexivity. Qed.

Section IntegerText.

Lemma rstrip_by_no_space p s :
  forallb (fun c => negb (p c)) (list_ascii_of_string s) = true →
  rstrip_by p s = s.
Proof.
  induction s as [|c s IH]; simpl; [done|].
  intros [Hc Hs]%andb_prop. rewrite (IH Hs).
  destruct s; [|done]. by destruct (p c).
Qed.

Lemma decimal_digit_not_space c :
  is_Some (decimal_digit c) → is_py_space c = false.
Proof.
  unfold decimal_digit, is_py_space. intros [d Hd].
  destruct (48 <=? nat_of_ascii c)%nat eqn:H1; [|done].
  destruct (nat_of_ascii c <=? 57)%nat eqn:H2; [|done].
  apply Nat.leb_le in H1, H2.
  repeat match goal with
  | |- context [(?a =? ?b)%nat] => destruct (Nat.eqb_spec a b); [lia|]
  | |- context [(?a <=? ?b)%nat] => destruct (Nat.leb_spec a b); try lia
  end; done.
Qed.

Lemma decimal_digit_char (x : N) :
  (x < 10)%N → decimal_digit (pretty_N_char x) = Some (Z.of_N x).
Proof.
  intros Hx.
  assert (x = 0 ∨ x = 1 ∨ x = 2 ∨ x = 3 ∨ x = 4 ∨ x = 5 ∨ x = 6 ∨ x = 7
          ∨ x = 8 ∨ x = 9)%N as Hcases by lia.
  repeat (destruct Hcases as [-> | Hcases]; [done|]). by subst.
Qed.

Lemma string_snoc_app (t : string) c s :
  (t +:+ String c "") +:+ s = t +:+ String c s.
Proof.
  induction t as [|a t IH]; [done|].
  change (String a ((t +:+ String c "") +:+ s) = String a (t +:+ String c s)).
  by rewrite IH.
Qed.

Lemma string_snoc_length (t : string) c :
  String.length (t +:+ String c "") = S (String.length t).
Proof.
  induction t as [|a t IH]; [done|].
  change (S (String.length (t +:+ String c "")) = S (S (String.length t))).
  by rewrite IH.
Qed.

(** The decimal text of a natural number: digits only, and read back to
    the number. *)
Lemma pretty_N_go_digits (x : N) :
  ∃ t, (∀ s, pretty_N_go x s = t +:+ s)
       ∧ is_decimal t = true
       ∧ (∀ acc s, int_digits acc (t +:+ s)
                   = int_digits (acc * 10 ^ Z.of_nat (String.length t) + Z.of_N x) s)
       ∧ ((0 < x)%N → t ≠ "")
       ∧ (∀ k : nat, (x < 10 ^ N.of_nat k)%N → (String.length t ≤ k)%nat).
Proof.
  induction (N.lt_wf_0 x) as [x _ IH].
  destruct (decide (x = 0)%N) as [-> | Hx].
  { exists "". split_and!; [done|done| |lia|simpl; lia].
    intros acc s. simpl. f_equal. lia. }
  assert (0 < x)%N as Hpos by lia.
  destruct (IH (x `div` 10)%N) as (t & Hgo & Hdec & Hval & _ & Hlen).
  { by apply N.div_lt. }
  pose proof (N.mod_lt x 10 ltac:(done)) as Hmod.
  exists (t +:+ String (pretty_N_char (x `mod` 10)) "").
  split_and!.
  - intros s. rewrite pretty_N_go_step by done. rewrite Hgo.
    symmetry. apply string_snoc_app.
  - clear -Hdec Hmod. unfold is_decimal in *.
    induction t as [|c t IH]; simpl in *.
    + rewrite decimal_digit_char by done. done.
    + apply andb_prop in Hdec as [-> Ht]. simpl. by apply IH.
  - intros acc s.
    rewrite string_snoc_app, Hval. simpl. rewrite decimal_digit_char by done. f_equal.
    rewrite string_snoc_length, Nat2Z.inj_succ, Z.pow_succ_r by lia.
    assert (Z.of_N x = 10 * Z.of_N (x `div` 10) + Z.of_N (x `mod` 10)) as Hz.
    { rewrite (N.div_mod x 10) at 1 by done. lia. }
    lia.
  - intros _. by destruct t.
  - intros k Hk. rewrite string_snoc_length.
    destruct k as [|k]; [simpl in Hk; lia|].
    apply le_n_S, Hlen.
    rewrite Nat2N.inj_succ, N.pow_succ_r' in Hk.
    apply N.Div0.div_lt_upper_bound. lia.
Qed.

Lemma digit_count_length (t : string) :
  (digit_count t ≤ String.length t)%nat.
Proof.
  unfold digit_count. induction t as [|c t IH]; simpl; [done|].
  destruct (bool_decide _); simpl; lia.
Qed.

Lemma digit_count_decimal (t : string) :
  is_decimal t = true → digit_count t = String.length t.
Proof.
  unfold digit_count, is_decimal. induction t as [|c t IH]; simpl; [done|].
  intros [-> Ht]%andb_prop. simpl. by rewrite IH.
Qed.

Lemma digit_count_minus (t : string) :
  digit_count (String "-" t) = digit_count t.
Proof. done. Qed.


Lemma string_app_empty_r (t : string) : t +:+ "" = t.
Proof.
  induction t as [|a t IH]; [done|].
  change (String a (t +:+ "") = String a t). by rewrite IH.
Qed.

Lemma digit_is_no_sign c d r :
  decimal_digit c = Some d → signed_literal (String c r) = int_digits d r.
Proof.
  intros Hc. unfold signed_literal, int_literal.
  destruct c as [[] [] [] [] [] [] [] []]; vm_compute in Hc;
    try discriminate Hc; injection Hc as <-; reflexivity.
Qed.

Lemma is_decimal_no_space (t : string) :
  is_decimal t = true →
  forallb (fun c => negb (is_py_space c)) (list_ascii_of_string t) = true.
Proof.
  unfold is_decimal. induction t as [|c t IH]; simpl; [done|].
  intros [Hc Ht]%andb_prop. apply bool_decide_eq_true in Hc.
  rewrite (decimal_digit_not_space c Hc). simpl. by apply IH.
Qed.

(** A non-empty run of digits is an integer literal. *)
Lemma int_literal_decimal (t : string) :
  is_decimal t = true → t ≠ "" →
  ∃ v, int_literal t = Some v ∧ int_digits 0 t = Some v ∧ 0 ≤ v.
Proof.
  intros Hdec Hne.
  assert (∀ acc, 0 ≤ acc → ∃ v, int_digits acc t = Some v ∧ 0 ≤ v) as Hrun.
  { clear Hne. unfold is_decimal in Hdec.
    induction t as [|c t IH]; simpl in *; intros acc Hacc; [by eauto|].
    apply andb_prop in Hdec as [Hc Ht]. apply bool_decide_eq_true in Hc.
    destruct Hc as [d Hd]. rewrite Hd. apply IH; [done|].
    unfold decimal_digit in Hd. case_match; simplify_eq. lia. }
  destruct t as [|c t]; [done|].
  unfold is_decimal in Hdec. simpl in Hdec.
  apply andb_prop in Hdec as [Hc Ht]. apply bool_decide_eq_true in Hc.
  destruct Hc as [d Hd].
  destruct (Hrun 0 ltac:(done)) as (v & Hv & Hpos).
  exists v. simpl in *. rewrite Hd in *. by replace (10 * 0 + d) with d in Hv by lia.
Qed.

Lemma strip_decimal (t : string) :
  is_decimal t = true →
  rstrip_by is_py_space (lstrip_by is_py_space t) = t.
Proof.
  intros Hdec. pose proof (is_decimal_no_space t Hdec) as Hsp.
  assert (lstrip_by is_py_space t = t) as ->.
  { destruct t as [|c t]; [done|]. simpl in *.
    apply andb_prop in Hsp as [Hc _]. by destruct (is_py_space c). }
  by apply rstrip_by_no_space.
Qed.

(** [int] reads the decimal text of a natural number back, when the text
    is within the limit on the digits. *)
Lemma int_of_text_pretty_N (x : N) :
  (x < 10 ^ N.of_nat int_max_str_digits)%N →
  int_of_text (pretty x) = Ok (Z.of_N x).
Proof.
  intros Hx'.
  unfold pretty, pretty_N. case_decide as Hx; [by subst|].
  destruct (pretty_N_go_digits x) as (t & Hgo & Hdec & Hval & Hne & Hlen).
  rewrite Hgo, string_app_empty_r. unfold int_of_text. cbv zeta.
  rewrite strip_decimal by done.
  assert ((int_max_str_digits <? digit_count t)%nat = false) as Hlim.
  { apply Nat.ltb_ge. etrans; [apply digit_count_length|]. by apply Hlen. }
  destruct t as [|c t]; [destruct Hne; [lia|done]|].
  pose proof Hdec as Hdec'. unfold is_decimal in Hdec'. simpl in Hdec'.
  apply andb_prop in Hdec' as [Hc _]. apply bool_decide_eq_true in Hc.
  destruct Hc as [d Hd]. rewrite (digit_is_no_sign c d t Hd).
  specialize (Hval 0 ""). rewrite string_app_empty_r in Hval.
  simpl in Hval. rewrite Hd in Hval.
  replace (10 * 0 + d) with d in Hval by lia. rewrite Hval, Hlim.
  f_equal; lia.
Qed.

Lemma int_of_text_pretty (z : Z) :
  Z.abs z < 10 ^ Z.of_nat int_max_str_digits →
  int_of_text (pretty z) = Ok z.
Proof.
  intros Hz.
  assert (∀ p, Z.pos p < 10 ^ Z.of_nat int_max_str_digits →
               (N.pos p < 10 ^ N.of_nat int_max_str_digits)%N) as Hbound.
  { intros p Hp. apply N2Z.inj_lt. rewrite N2Z.inj_pow, nat_N_Z. done. }
  destruct z as [|p|p]; [done|apply (int_of_text_pretty_N (Npos p)); by apply Hbound|].
  unfold pretty, pretty_Z.
  pose proof (int_of_text_pretty_N (Npos p) (Hbound p Hz)) as Hp.
  unfold pretty, pretty_positive, pretty, pretty_N in *.
  case_decide; [done|].
  destruct (pretty_N_go_digits (Npos p)) as (t & Hgo & Hdec & Hval & Hne & Hlen).
  rewrite Hgo, string_app_empty_r in *. unfold int_of_text in *.
  cbv zeta in *. rewrite strip_decimal in Hp by done.
  change ("-" +:+ t) with (String "-" t).
  assert (rstrip_by is_py_space (lstrip_by is_py_space (String "-" t))
          = String "-" t) as ->.
  { change (lstrip_by is_py_space (String "-" t)) with (String "-" t).
    apply rstrip_by_no_space. simpl. by apply is_decimal_no_space. }
  rewrite digit_count_minus.
  destruct t as [|c t]; [destruct Hne; [lia|done]|].
  pose proof Hdec as Hdec'. unfold is_decimal in Hdec'. simpl in Hdec'.
  apply andb_prop in Hdec' as [Hc _]. apply bool_decide_eq_true in Hc.
  destruct Hc as [d Hd]. rewrite (digit_is_no_sign c d t Hd) in Hp.
  change (signed_literal (String "-" (String c t)))
    with (Z.opp <$> int_literal (String c t)).
  unfold int_literal. rewrite Hd.
  destruct (int_digits d t) as [v|]; simpl in *; [|discriminate Hp].
  destruct (int_max_str_digits <? digit_count (String c t))%nat;
    [discriminate Hp|].
  injection Hp as ->. done.
Qed.

(** The numbers of 64 bits, moved by the base, are far from the limit. *)
Lemma row_id_within_limit (db_id : Z) :
  is_row_id db_id →
  Z.abs (- (MIMICKED_ID_BASE + db_id)) < 10 ^ Z.of_nat int_max_str_digits.
Proof.
  unfold is_row_id, MIMICKED_ID_BASE, int_max_str_digits. intros Hid.
  apply Z.lt_le_trans with (10 ^ 20); [lia|].
  apply Z.pow_le_mono_r; lia.
Qed.

(** The text of a negative number is a minus sign and digits; the text of
    any other number does not start with a minus sign. *)
Lemma pretty_Z_shape (z : Z) :
  is_negative_number (pretty z) = bool_decide (z < 0)
  ∧ String.prefix "-" (pretty z) = bool_decide (z < 0).
Proof.
  assert (∀ p, ∃ c t, pretty (Npos p) = String c t
                      ∧ is_decimal (String c t) = true) as Hpos.
  { intros p. unfold pretty, pretty_N. case_decide; [done|].
    destruct (pretty_N_go_digits (Npos p)) as (t & Hgo & Hdec & _ & Hne & _).
    rewrite Hgo, string_app_empty_r.
    destruct t as [|c t]; [destruct Hne; [lia|done]|]. eauto. }
  destruct z as [|p|p].
  - done.
  - destruct (Hpos p) as (c & t & Ht & Hdec).
    change (pretty (Z.pos p)) with (pretty (Npos p)). rewrite Ht.
    rewrite bool_decide_eq_false_2 by lia.
    unfold is_decimal in Hdec. simpl in Hdec.
    apply andb_prop in Hdec as [Hc _]. apply bool_decide_eq_true in Hc.
    destruct Hc as [d Hd].
    destruct c as [[] [] [] [] [] [] [] []]; vm_compute in Hd;
      try discriminate Hd; done.
  - destruct (Hpos p) as (c & t & Ht & Hdec).
    change (pretty (Z.neg p)) with (String "-" (pretty (Npos p))).
    rewrite Ht, bool_decide_eq_true_2 by lia. split; [|done].
    simpl. exact Hdec.
Qed.

End IntegerText.

Section MimickedIds.

(** X1 (reverse_proxy.py, to_mimicked_id / from_mimicked_id): the external
    identifier of a collection decodes to the database id it was made from,
    for every id a database row can have. *)
Theorem mimicked_id_round_trip (db_id : Z) :
  is_row_id db_id →
  from_mimicked_id (VStr (to_mimicked_id db_id)) = Ok db_id.
Proof.
  intros Hid. unfold from_mimicked_id, to_mimicked_id, int_of_value.
  rewrite int_of_text_pretty by by apply row_id_within_limit.
  simpl. f_equal. unfold MIMICKED_ID_BASE. lia.
Qed.

Lemma mimicked_id_round_trip_witness :
  is_row_id 7 ∧ from_mimicked_id (VStr (to_mimicked_id 7)) = Ok 7.
Proof.
  assert (is_row_id 7) as H by (unfold is_row_id; lia).
  split; [exact H | exact (mimicked_id_round_trip 7 H)].
Defined.

(** X2 (reverse_proxy.py, is_mimicked_id and the route patterns): the
    identifier made for a database id is recognised as a virtual library,
    and has the form of a minus sign followed by digits which the routes
    look for, exactly when the id is above minus the base; so it is for
    every collection with an id from zero on. *)
Theorem mimicked_id_recognised (db_id : Z) :
  is_row_id db_id →
  is_mimicked_id (VStr (to_mimicked_id db_id))
    = bool_decide (- MIMICKED_ID_BASE < db_id)
  ∧ is_negative_number (to_mimicked_id db_id)
    = bool_decide (- MIMICKED_ID_BASE < db_id).
Proof.
  intros _. unfold is_mimicked_id, to_mimicked_id.
  destruct (pretty_Z_shape (- (MIMICKED_ID_BASE + db_id))) as [-> ->].
  split; apply bool_decide_ext; lia.
Qed.

Lemma mimicked_id_recognised_witness :
  is_row_id 0
  ∧ is_mimicked_id (VStr (to_mimicked_id 0))
    = bool_decide (- MIMICKED_ID_BASE < 0)
  ∧ is_negative_number (to_mimicked_id 0)
    = bool_decide (- MIMICKED_ID_BASE < 0).
Proof.
  assert (is_row_id 0) as H by (unfold is_row_id; lia).
  split; [exact H | exact (mimicked_id_recognised 0 H)].
Defined.

(** X3 (reverse_proxy.py, from_mimicked_id on the identifiers the routes
    capture): a path segment made of a minus sign and digits is accepted by
    [is_mimicked_id]; with no more digits than [int] allows it decodes
    without an error, to an id that is not below minus the base, and with
    more digits the decoding raises [ValueError]. *)
Theorem routed_id_decodes (s : string) :
  is_negative_number s = true →
  is_mimicked_id (VStr s) = true
  ∧ ((String.length s ≤ S int_max_str_digits)%nat →
     ∃ db_id, from_mimicked_id (VStr s) = Ok db_id
              ∧ - MIMICKED_ID_BASE ≤ db_id)
  ∧ ((S int_max_str_digits < String.length s)%nat →
     from_mimicked_id (VStr s) = Raise ValueError).
Proof.
  unfold is_negative_number. intros Hs.
  destruct s as [|c r]; [done|].
  destruct (decide (c = "-"%char)) as [-> | Hc].
  2:{ destruct c as [[] [] [] [] [] [] [] []]; done. }
  apply andb_prop in Hs as [Hne Hdec].
  assert (r ≠ "") as Hr.
  { intros ->. done. }
  split; [by destruct r|].
  destruct (int_literal_decimal r Hdec Hr) as (v & Hv & _ & Hpos).
  assert (rstrip_by is_py_space (lstrip_by is_py_space (String "-" r))
          = String "-" r) as Hstrip.
  { change (lstrip_by is_py_space (String "-" r)) with (String "-" r).
    apply rstrip_by_no_space. simpl. by apply is_decimal_no_space. }
  unfold from_mimicked_id, int_of_value, int_of_text. cbv zeta.
  rewrite Hstrip.
  change (signed_literal (String "-" r)) with (Z.opp <$> int_literal r).
  rewrite Hv, digit_count_minus, digit_count_decimal by done.
  change (String.length (String "-" r)) with (S (String.length r)).
  split; intros Hlen.
  - exists (v - MIMICKED_ID_BASE).
    rewrite (proj2 (Nat.ltb_ge _ _)) by lia.
    simpl. split; [f_equal; lia | lia].
  - by rewrite (proj2 (Nat.ltb_lt _ _)) by lia.
Qed.

Lemma routed_id_decodes_witness :
  is_negative_number "-900012" = true
  ∧ is_mimicked_id (VStr "-900012") = true
  ∧ ∃ db_id, from_mimicked_id (VStr "-900012") = Ok db_id
             ∧ - MIMICKED_ID_BASE ≤ db_id.
Proof.
  split; [reflexivity|].
  destruct (routed_id_decodes "-900012" eq_refl) as (Hm & Hshort & _).
  split; [exact Hm|]. apply Hshort. unfold int_max_str_digits. simpl. lia.
Defined.

Lemma rstrip_by_last p s c :
  p c = true → endswith (String c "") (rstrip_by p s) = false.
Proof.
  intros Hc. induction s as [|a s IH]; [done|]. simpl.
  destruct (rstrip_by p s) as [|b r] eqn:Hr.
  - destruct (p a) eqn:Ha; [done|]. simpl.
    destruct (Ascii.eqb_spec a c) as [-> | ?]; [congruence|]. done.
  - simpl in *. destruct (Ascii.eqb a c); simpl; [|exact IH].
    destruct r; exact IH.
Qed.

Lemma rstrip_by_split p s :
  ∃ tail, s = rstrip_by p s +:+ tail
          ∧ forallb p (list_ascii_of_string tail) = true.
Proof.
  induction s as [|a s (tail & Hs & Htail)]; [by exists ""|]. simpl.
  destruct (rstrip_by p s) as [|b r] eqn:Hr.
  - change ("" +:+ tail) with tail in Hs. subst s.
    destruct (p a) eqn:Ha.
    + exists (String a tail). split; [done|]. simpl. by rewrite Ha.
    + by exists tail.
  - exists tail. split; [|done].
    change (String a s = String a (String b r +:+ tail)). by rewrite <- Hs.
Qed.

(** X4 (reverse_proxy.py, _get_real_emby_url_and_key): when the function
    returns, the address is the configured one without its trailing
    slashes, is not empty and does not end with a slash, and the key is not
    empty. *)
Theorem real_emby_url_is_trimmed (APP_CONFIG : PyDict) base_url api_key :
  _get_real_emby_url_and_key APP_CONFIG = Ok (base_url, api_key) →
  base_url ≠ "" ∧ endswith "/" base_url = false
  ∧ py_truthy api_key = true
  ∧ ∃ slashes, only_slashes slashes = true
      ∧ APP_CONFIG !! "emby_server_url" = Some (VStr (base_url +:+ slashes)).
Proof.
  unfold _get_real_emby_url_and_key. intros H.
  destruct (APP_CONFIG !! "emby_server_url") as [v|] eqn:Hurl; simpl in H.
  2:{ done. }
  destruct v as [| | | |s| |]; simpl in H; try done.
  destruct (String.eqb (rstrip_by is_slash s) "") eqn:He; simpl in H; [done|].
  destruct (py_truthy (default (VStr "") (APP_CONFIG !! "emby_api_key")))
    eqn:Hk; simpl in H; [|done].
  injection H as <- <-.
  split_and!.
  - intros Heq. rewrite Heq in He. done.
  - by apply rstrip_by_last.
  - done.
  - destruct (rstrip_by_split is_slash s) as (tail & Hs & Htail).
    exists tail. split; [done|]. by rewrite <- Hs.
Qed.

Lemma real_emby_url_is_trimmed_witness :
  _get_real_emby_url_and_key
    (<["emby_server_url" := VStr "http://emby:8096//"]>
       {["emby_api_key" := VStr "k"]})
  = Ok ("http://emby:8096", VStr "k")
  ∧ "http://emby:8096" ≠ "" ∧ endswith "/" "http://emby:8096" = false.
Proof.
  assert (_get_real_emby_url_and_key
            (<["emby_server_url" := VStr "http://emby:8096//"]>
               {["emby_api_key" := VStr "k"]})
          = Ok ("http://emby:8096", VStr "k")) as H by reflexivity.
  split; [exact H|].
  pose proof (real_emby_url_is_trimmed _ _ _ H) as (H1 & H2 & _).
  exact (conj H1 H2).
Defined.

End MimickedIds.

(** ** Further code: calls and loops *)
Section HostFacts.
Context {W : Type}.
Implicit Types (s : St (Host W)).

Lemma od_get_set {K V} `{EqDecision K} (k k' : K) (v : V) (m : list (K * V)) :
  od_get k' (od_set k v m) = if decide (k = k') then Some v else od_get k' m.
Proof.
  induction m as [|[k0 v0] m IH]; simpl.
  - by repeat case_decide.
  - repeat (case_decide; simpl; subst); try done; try congruence.
Qed.

Lemma od_get_elem_of {K V} `{EqDecision K} (k : K) (v : V) (m : list (K * V)) :
  od_get k m = Some v → (k, v) ∈ m.
Proof.
  induction m as [|[k0 v0] m IH]; simpl; [done|].
  case_decide; subst.
  - intros [= ->]. left.
  - intros. right. auto.
Qed.

Lemma od_get_is_Some {K V} `{EqDecision K} (k : K) (m : list (K * V)) :
  k ∈ od_keys m → is_Some (od_get k m).
Proof.
  intros Hin. destruct (od_get k m) eqn:Hg; [eauto|].
  apply od_get_None in Hg. done.
Qed.

Lemma calls_between_refl s : calls_between s s [].
Proof. done. Qed.

Lemma calls_between_trans s1 s2 s3 cs1 cs2 :
  calls_between s1 s2 cs1 → calls_between s2 s3 cs2 →
  calls_between s1 s3 (cs1 ++ cs2).
Proof.
  unfold calls_between. intros H1 H2.
  rewrite H2, H1, reverse_app. by rewrite (assoc_L (++)).
Qed.

Lemma invoke_run {A} c (f : W → W * result A) s s' r :
  invoke c f s = (s', r) →
  f (inner (world s)) = (inner (world s'), r)
  ∧ calls_between s s' [c] ∧ trace s' = trace s.
Proof.
  unfold invoke. destruct (f (inner (world s))) as [w r0]. by intros [= <- <-].
Qed.

Lemma observe_run {A} (f : W → A) s s' r :
  observe f s = (s', r) → s' = s ∧ r = Ok (f (inner (world s))).
Proof. by intros [= <- <-]. Qed.

Lemma sbind_run {A B} (m : M (Host W) A) (k : A → M (Host W) B) s s' r :
  sbind m k s = (s', r) →
  (∃ s1 a, m s = (s1, Ok a) ∧ k a s1 = (s', r))
  ∨ (∃ e, m s = (s', Raise e) ∧ r = Raise e).
Proof.
  unfold sbind. destruct (m s) as [s1 [a|e]]; [left|right]; [by eauto|].
  simplify_eq. by eauto.
Qed.

Lemma try_except_all_run {A} (m : M (Host W) A) h s s' r :
  try_except m catch_all h s = (s', r) →
  (∃ a, m s = (s', Ok a) ∧ r = Ok a)
  ∨ (∃ s1 e, m s = (s1, Raise e) ∧ h e s1 = (s', r)).
Proof.
  unfold try_except. destruct (m s) as [s1 [a|e]]; simpl.
  - intros [= <- <-]. left. eauto.
  - intros H. right. eauto.
Qed.

End HostFacts.

(** ** Further code: the enrichment of the server's cast *)
Section EnrichFacts.
Context {W : Type} (E : Collaborators W) (S : Services W).
Implicit Types (s : St (Host W)) (cast : list PyDict).

Lemma cast_members_records cast :
  cast_members (VList (VDict <$> cast)) = Ok cast.
Proof.
  unfold cast_members. induction cast as [|a cast IH]; [done|].
  csimpl. by rewrite IH.
Qed.

(** What the map of the members with an id holds. *)
Lemma original_actor_map_get cast k a :
  od_get k (original_actor_map_of E cast) = Some a →
  a ∈ cast ∧ py_truthy (py_get a "Id") = true
  ∧ py_str E (py_get a "Id") = k.
Proof.
  unfold original_actor_map_of.
  assert (∀ l m,
    (∀ k a, od_get k m = Some a →
            a ∈ cast ∧ py_truthy (py_get a "Id") = true
            ∧ py_str E (py_get a "Id") = k) →
    (∀ x, x ∈ l → x ∈ cast) →
    ∀ k a,
    od_get k (foldl (fun m actor =>
                       if py_truthy (py_get actor "Id")
                       then od_set (py_str E (py_get actor "Id")) actor m
                       else m) m l) = Some a →
    a ∈ cast ∧ py_truthy (py_get a "Id") = true
    ∧ py_str E (py_get a "Id") = k) as Hgen.
  { induction l as [|x l IH]; intros m Hm Hl k' a'; simpl; [by apply Hm|].
    apply IH; [|intros; apply Hl; by right].
    intros k1 a1. destruct (py_truthy (py_get x "Id")) eqn:Hx; [|by apply Hm].
    rewrite od_get_set. case_decide; [|by apply Hm].
    intros [= <-]. split_and!; [apply Hl; left|done|done]. }
  apply Hgen; [done|done].
Qed.

Lemma original_actor_map_NoDup cast :
  NoDup (od_keys (original_actor_map_of E cast)).
Proof.
  unfold original_actor_map_of.
  assert (∀ l (m : list (string * PyDict)), NoDup (od_keys m) →
    NoDup (od_keys (foldl (fun m actor =>
                       if py_truthy (py_get actor "Id")
                       then od_set (py_str E (py_get actor "Id")) actor m
                       else m) m l))) as Hgen.
  { induction l as [|x l IH]; intros m Hm; simpl; [done|].
    apply IH. destruct (py_truthy (py_get x "Id")); [|done].
    by apply od_set_NoDup. }
  apply Hgen. constructor.
Qed.

Lemma enrich_row_from m st row st' r :
  enrich_row E m st row = (st', r) → enriched_from m st.1 → enriched_from m st'.1.
Proof.
  unfold enrich_row. intros H Hst.
  destruct (dict_of_row row !! "emby_person_id") as [v|]; [|by simplify_eq].
  destruct (od_get (py_str E v) m) as [a|] eqn:Ha; simplify_eq; simpl; [|done].
  intros k o. rewrite lookup_insert. case_decide; [|by apply Hst].
  intros [= <-]. subst. eauto.
Qed.

Lemma enrich_rows_from m rows st :
  enriched_from m st.1 → enriched_from m (enrich_rows E m st rows).1.
Proof.
  revert st. induction rows as [|row rows IH]; intros st Hst; simpl; [done|].
  destruct (enrich_row E m st row) as [st' [[]|e]] eqn:Hrow.
  - apply IH. by eapply enrich_row_from.
  - by eapply enrich_row_from.
Qed.

(** Stage one returns, whatever the database does. *)
Lemma enrich_from_db_run m s s' r :
  enrich_from_db E S m s = (s', r) →
  ∃ enriched found,
    r = Ok (enriched, found) ∧ enriched_from m enriched ∧ trace s' = trace s
    ∧ (calls_between s s' [] ∨ calls_between s s' [CallSelectPersons (od_keys m)]).
Proof.
  unfold enrich_from_db. intros H.
  assert (enriched_from m (∅ : gmap string PyDict)) as Hempty.
  { intros k o. by rewrite lookup_empty. }
  destruct (od_keys m) as [|k ks] eqn:Hk.
  { injection H as <- <-. exists ∅, ∅. by split_and!; [..|left]. }
  apply try_except_all_run in H as [(a & H & ->) | (s1 & e & H & Hh)].
  - apply sbind_run in H as [(s2 & rows & Hq & Hr) | (e & _ & [=])].
    injection Hr as <- <-.
    apply invoke_run in Hq as (_ & Hc & Ht).
    destruct (enrich_rows E m (∅, ∅) rows) as [enriched found] eqn:Hrows.
    exists enriched, found. split_and!; [done| |done|by right].
    change enriched with (enriched, found).1. rewrite <- Hrows.
    by apply enrich_rows_from.
  - apply sbind_run in H as [(s2 & rows & Hq & [=]) | (e' & Hq & _)].
    injection Hh as <- <-.
    apply invoke_run in Hq as (_ & Hc & Ht).
    exists ∅, ∅. by split_and!; [..|right].
Qed.

Lemma enrich_from_api_run m enriched actor_id s s' r :
  enrich_from_api S m enriched actor_id s = (s', r) →
  calls_between s s' [detail_lookup actor_id] ∧ trace s' = trace s
  ∧ ∀ enriched', r = Ok enriched' →
      enriched_from m enriched → enriched_from m enriched'.
Proof.
  unfold enrich_from_api. intros H.
  apply sbind_run in H as [(s1 & d & Hq & H) | (e & Hq & ->)].
  2:{ apply invoke_run in Hq as (_ & Hc & Ht). by split_and!. }
  apply invoke_run in Hq as (_ & Hc & Ht).
  assert (s' = s1 ∧ ∀ enriched', r = Ok enriched' →
            enriched_from m enriched → enriched_from m enriched') as [-> Hr].
  { destruct d as [d|]; [|by injection H as <- <-; split; [|intros ? [= <-]]].
    destruct (py_truthy (VDict d) && py_truthy (py_get d "ProviderIds"));
      [|by injection H as <- <-; split; [|intros ? [= <-]]].
    destruct (od_get actor_id m) as [a|] eqn:Ha;
      [|by injection H as <- <-; split].
    injection H as <- <-. split; [done|]. intros ? [= <-] Henr k o.
    rewrite lookup_insert. case_decide; [|by apply Henr].
    intros [= <-]. subst. eauto. }
  by split_and!.
Qed.

Lemma enrich_api_loop_run m ids enriched s s' r :
  sfoldl (enrich_from_api S m) enriched ids s = (s', r) →
  trace s' = trace s
  ∧ ∃ n, calls_between s s' (detail_lookup <$> take n ids)
         ∧ ∀ enriched', r = Ok enriched' →
             enriched_from m enriched → enriched_from m enriched'.
Proof.
  revert enriched s. induction ids as [|id ids IH]; intros enriched s H; simpl in H.
  { injection H as <- <-. split; [done|]. exists 0%nat.
    split; [done|]. by intros ? [= <-]. }
  apply sbind_run in H as [(s1 & enr1 & H1 & H) | (e & H1 & ->)].
  - apply enrich_from_api_run in H1 as (Hc1 & Ht1 & Hr1).
    apply IH in H as (Ht & n & Hc & Hr).
    split; [congruence|]. exists (Datatypes.S n). split.
    + simpl. by apply (calls_between_trans _ _ _ [_] _ Hc1).
    + intros enr' -> Henr. apply Hr; [done|]. by apply Hr1.
  - apply enrich_from_api_run in H1 as (Hc1 & Ht1 & _).
    split; [done|]. exists 1%nat. split; [by destruct ids|]. done.
Qed.

(** X5 (core_processor.py, _enrich_cast_from_db_and_api): the enriched
    cast has the members of the snapshot, one for one and in the same
    order; each is the member of the snapshot itself or a copy of a member
    with the same id text whose [ProviderIds] alone were set anew. *)
Theorem enrich_keeps_members cast s s' out :
  _enrich_cast_from_db_and_api E S (VList (VDict <$> cast)) s = (s', Ok out) →
  Forall2 (fun a o => o = a ∨ enriched_copy E cast a o) cast out.
Proof.
  unfold _enrich_cast_from_db_and_api. rewrite cast_members_records.
  intros H.
  destruct (py_truthy (VList (VDict <$> cast))) eqn:Htruthy; simpl in H.
  2:{ injection H as <- <-. simpl in Htruthy.
      apply negb_false_iff, bool_decide_eq_true in Htruthy.
      rewrite length_fmap in Htruthy. destruct cast; [constructor|done]. }
  apply sbind_run in H as [(s0 & cast0 & H0 & H) | (e & _ & [=])].
  apply lift_eq in H0 as [-> [= ->]].
  apply sbind_run in H as [(s1 & [enriched found] & Hdb & H) | (e & _ & [=])].
  apply enrich_from_db_run in Hdb as (enr & fnd & [= <- <-] & Henr & _).
  apply sbind_run in H as [(s2 & enriched' & Hapi & H) | (e & _ & [=])].
  apply enrich_api_loop_run in Hapi as (_ & n & _ & Hr).
  specialize (Hr _ eq_refl Henr). injection H as <- <-.
  apply Forall2_fmap_r, Forall_Forall2_diag, Forall_forall.
  intros a Ha. unfold compose.
  destruct (enriched' !! py_str E (py_get a "Id")) as [o|] eqn:Ho; simpl;
    [|by left].
  right. destruct (Hr _ _ Ho) as (a' & p & Hget & ->).
  apply original_actor_map_get in Hget as (Hin & Hid & Hstr).
  exists a', p. by split_and!.
Qed.

(** X6 (core_processor.py, _enrich_cast_from_db_and_api): no failure of
    the database makes the method fail: when the server answers the
    requests for the person records, the method returns a cast for every
    snapshot, whatever the query raises or returns. *)
Theorem enrich_absorbs_database_failure cast s :
  details_never_raise S →
  ∃ s' out, _enrich_cast_from_db_and_api E S (VList (VDict <$> cast)) s
            = (s', Ok out).
Proof.
  intros Hdetails. unfold _enrich_cast_from_db_and_api.
  rewrite cast_members_records.
  destruct (py_truthy (VList (VDict <$> cast))); simpl; [|by eauto].
  unfold sbind at 1. simpl.
  destruct (enrich_from_db E S (original_actor_map_of E cast) s)
    as [s1 r1] eqn:Hdb.
  unfold sbind at 1. rewrite Hdb.
  apply enrich_from_db_run in Hdb as (enriched & found & -> & _).
  set (m := original_actor_map_of E cast).
  assert (∀ ids enr s0, (∀ id, id ∈ ids → id ∈ od_keys m) →
            ∃ s2 enr', sfoldl (enrich_from_api S m) enr ids s0 = (s2, Ok enr'))
    as Hloop.
  { induction ids as [|id ids IH]; intros enr s0 Hids; simpl; [by eauto|].
    unfold sbind at 1. unfold enrich_from_api at 1. unfold sbind at 1.
    unfold invoke.
    destruct (Hdetails (VStr id) (Some "ProviderIds,Name") (inner (world s0)))
      as (w' & d & ->).
    destruct (od_get_is_Some id m) as [a Ha]; [apply Hids; left|].
    rewrite Ha.
    destruct d as [d|]; simpl;
      [destruct (negb (bool_decide (size d = 0%nat))
                 && py_truthy (py_get d "ProviderIds")); simpl|];
      apply IH; intros; apply Hids; by right. }
  edestruct (Hloop (filter (fun pid => pid ∉ found) (od_keys m)) enriched s1)
    as (s2 & enr' & Hrun).
  { intros id Hid. by apply list_elem_of_filter in Hid as [_ ?]. }
  unfold sbind. rewrite Hrun. eauto.
Qed.

(** X7 (core_processor.py, _enrich_cast_from_db_and_api): the method only
    reads: it makes none of the pipeline's calls (no row of the identity
    store is written), at most one query of the store, and after it at
    most one request to the server for each person id, in the order of the
    ids. *)
Theorem enrich_only_reads cast_list s s' r :
  _enrich_cast_from_db_and_api E S cast_list s = (s', r) →
  trace s' = trace s
  ∧ ∃ person_ids looked_up,
      NoDup person_ids ∧ looked_up `sublist_of` person_ids
      ∧ (calls_between s s' (detail_lookup <$> looked_up)
         ∨ calls_between s s'
             (CallSelectPersons person_ids :: (detail_lookup <$> looked_up))).
Proof.
  unfold _enrich_cast_from_db_and_api. intros H.
  destruct (py_truthy cast_list); simpl in H.
  2:{ injection H as <- <-. split; [done|]. exists [], [].
      split_and!; [constructor|done|by left]. }
  apply sbind_run in H as [(s0 & cast & H0 & H) | (e & H0 & ->)].
  2:{ apply lift_eq in H0 as [-> _]. split; [done|]. exists [], [].
      split_and!; [constructor|done|by left]. }
  apply lift_eq in H0 as [-> _].
  set (m := original_actor_map_of E cast) in *.
  assert (NoDup (od_keys m)) as Hnd by apply original_actor_map_NoDup.
  apply sbind_run in H as [(s1 & [enriched found] & Hdb & H) | (e & Hdb & ->)].
  2:{ by apply enrich_from_db_run in Hdb as (? & ? & [=] & _). }
  apply enrich_from_db_run in Hdb as (? & ? & _ & _ & Ht1 & Hc1).
  assert (∃ s2 r2, sfoldl (enrich_from_api S m) enriched
                     (filter (fun pid => pid ∉ found) (od_keys m)) s1 = (s2, r2)
                   ∧ s' = s2) as (s2 & r2 & Hapi & ->).
  { apply sbind_run in H as [(s2 & enr' & Hapi & H) | (e & Hapi & ->)].
    - injection H as <- <-. eauto.
    - eauto. }
  apply enrich_api_loop_run in Hapi as (Ht2 & n & Hc2 & _).
  split; [congruence|].
  exists (od_keys m), (take n (filter (fun pid => pid ∉ found) (od_keys m))).
  split_and!; [done| |].
  - etrans; [apply sublist_take|]. apply sublist_filter.
  - destruct Hc1 as [Hc1|Hc1].
    + left. by apply (calls_between_trans _ _ _ [] _ Hc1).
    + right. by apply (calls_between_trans _ _ _ [_] _ Hc1).
Qed.

End EnrichFacts.

(** ** Further code: the episodes of a series and the entry of the API mode *)
Section EpisodeFacts.
Context {W : Type} (E : Collaborators W) (S : Services W)
  (self : MediaProcessor).
Implicit Types (s : St (Host W)).

Lemma update_episode_run cast episode s s' r :
  update_episode E cast episode s = (s', r) →
  trace s' = trace s
  ∧ ((r = Ok false ∧ s' = s ∧ stop_event_is_set E (inner (world s)) = true)
     ∨ (r ≠ Ok false ∧ stop_event_is_set E (inner (world s)) = false
        ∧ calls_between s s' [CallUpdateItemCast (py_get episode "Id") cast])).
Proof.
  unfold update_episode, stop_requested. intros H.
  apply sbind_run in H as [(s1 & stop & Hobs & H) | (e & Hobs & _)].
  2:{ by apply observe_run in Hobs as [_ [=]]. }
  apply observe_run in Hobs as [-> [= ->]].
  destruct (stop_event_is_set E (inner (world s))) eqn:Hstop.
  { injection H as <- <-. split; [done|]. by left. }
  apply sbind_run in H as [(s2 & ok & Hq & H) | (e & Hq & ->)].
  - injection H as <- <-. apply invoke_run in Hq as (_ & Hc & Ht).
    split; [done|]. right. by split_and!.
  - apply invoke_run in Hq as (_ & Hc & Ht). split; [done|]. right.
    by split_and!.
Qed.

Lemma update_loop_run cast episodes s s' r :
  sloop (update_episode E cast) episodes s = (s', r) →
  trace s' = trace s
  ∧ ∃ n, calls_between s s'
           ((fun ep => CallUpdateItemCast (py_get ep "Id") cast)
            <$> take n episodes).
Proof.
  revert s. induction episodes as [|ep episodes IH]; intros s H; simpl in H.
  { injection H as <- <-. split; [done|]. by exists 0%nat. }
  apply sbind_run in H as [(s1 & go_on & H1 & H) | (e & H1 & ->)].
  - apply update_episode_run in H1 as (Ht1 & [([= ->] & -> & _) | (Hr & _ & Hc1)]).
    + injection H as <- <-. split; [done|]. by exists 0%nat.
    + destruct go_on; [|done].
      apply IH in H as (Ht & n & Hc). split; [congruence|].
      exists (Datatypes.S n). simpl.
      by apply (calls_between_trans _ _ _ [_] _ Hc1).
  - apply update_episode_run in H1 as (Ht1 & [([=] & _) | (_ & _ & Hc1)]).
    split; [done|]. exists 1%nat. by destruct episodes.
Qed.

(** X8 (core_processor.py, _batch_update_episodes_cast): after the list of
    the episodes has been asked for, the only calls are updates of
    episodes: of a first part of the listed episodes, each once and in the
    order of the list, and each with the four-field cast that the series
    itself was given. *)
Theorem episodes_updated_in_order series_id final_cast_list s s' r :
  _batch_update_episodes_cast E S series_id final_cast_list s = (s', r) →
  trace s' = trace s
  ∧ ∃ n, calls_between s s'
           (CallGetSeriesChildren series_id (Some "Episode")
            :: (episode_update final_cast_list
                <$> take n (episodes_listed S series_id (inner (world s))))).
Proof.
  unfold _batch_update_episodes_cast, episodes_listed. intros H.
  apply sbind_run in H as [(s1 & episodes & Hq & H) | (e & Hq & ->)].
  2:{ apply invoke_run in Hq as (_ & Hc & Ht). split; [done|].
      exists 0%nat. by rewrite take_0. }
  apply invoke_run in Hq as (Hf & Hc1 & Ht1). rewrite Hf. simpl.
  destruct episodes as [[|ep episodes]|].
  - injection H as <- <-. split; [done|]. by exists 0%nat.
  - apply update_loop_run in H as (Ht & n & Hc). split; [congruence|].
    exists n. by apply (calls_between_trans _ _ _ [_] _ Hc1).
  - injection H as <- <-. split; [done|]. by exists 0%nat.
Qed.

(** X9 (core_processor.py, _batch_update_episodes_cast): a stop request
    that is pending when the episodes have been listed ends the method at
    once: no episode is updated, and the method returns normally. *)
Theorem stop_skips_episode_updates series_id final_cast_list s w' episodes :
  get_series_children S series_id (Some "Episode") (inner (world s))
    = (w', Ok (Some episodes)) →
  stop_event_is_set E w' = true →
  _batch_update_episodes_cast E S series_id final_cast_list s
    = (mkSt (mkHost w' (CallGetSeriesChildren series_id (Some "Episode")
                        :: calls (world s))) (trace s),
       Ok ()).
Proof.
  intros Hq Hstop. unfold _batch_update_episodes_cast.
  unfold sbind at 1. unfold invoke. rewrite Hq.
  destruct episodes as [|ep episodes]; [done|]. simpl.
  unfold sbind at 1. unfold update_episode, stop_requested.
  unfold sbind at 1. unfold observe. simpl. by rewrite Hstop.
Qed.

(** X10 (core_processor.py, _batch_update_episodes_cast): when no update
    raises and no stop is requested before or during the updates, every
    listed episode is updated, and the method returns normally. *)
Theorem all_episodes_updated series_id final_cast_list s w' episodes :
  updates_undisturbed E →
  get_series_children S series_id (Some "Episode") (inner (world s))
    = (w', Ok (Some episodes)) →
  stop_event_is_set E w' = false →
  ∃ s', _batch_update_episodes_cast E S series_id final_cast_list s
        = (s', Ok ())
        ∧ calls_between s s'
            (CallGetSeriesChildren series_id (Some "Episode")
             :: (episode_update final_cast_list <$> episodes)).
Proof.
  intros Hupd Hq Hcalm. unfold _batch_update_episodes_cast.
  unfold sbind at 1. unfold invoke at 1. rewrite Hq.
  set (s1 := mkSt (mkHost w' (CallGetSeriesChildren series_id (Some "Episode")
                              :: calls (world s))) (trace s)).
  assert (calls_between s s1 [CallGetSeriesChildren series_id (Some "Episode")])
    as Hc1 by done.
  assert (∀ eps s0, stop_event_is_set E (inner (world s0)) = false → ∃ s2,
            sloop (update_episode E (cast_for_emby_handler_of final_cast_list))
              eps s0 = (s2, Ok ())
            ∧ calls_between s0 s2 (episode_update final_cast_list <$> eps))
    as Hloop.
  { induction eps as [|ep eps IH]; intros s0 H0; simpl; [by exists s0|].
    unfold sbind at 1. unfold update_episode, stop_requested.
    unfold sbind at 1. unfold observe. rewrite H0.
    unfold sbind at 1. unfold invoke.
    destruct (Hupd (py_get ep "Id") (cast_for_emby_handler_of final_cast_list)
                (inner (world s0)) H0) as (w2 & ok & -> & H2). simpl.
    edestruct IH as (s2 & -> & Hc); [exact H2|]. exists s2. split; [done|].
    eapply (calls_between_trans _ _ _ [_] _); [|exact Hc]. done. }
  destruct episodes as [|ep episodes].
  { exists s1. by split. }
  destruct (Hloop (ep :: episodes) s1 Hcalm) as (s2 & Hrun & Hc).
  exists s2. split; [exact Hrun|].
  by apply (calls_between_trans _ _ _ [_] _ Hc1).
Qed.

(** X11 (core_processor.py, process_single_item): an item of the processed
    cache is, unless the run is forced, reported as done without anything
    being asked of the server, whether or not a stop was requested; any
    other item is refused, again before any call, when a stop is
    requested; and an item the server has no record of is refused after
    that one request, the pipeline not being entered. *)
Theorem single_item_guards emby_item_id force_reprocess force_fetch s k :
  hash_key emby_item_id = Ok k →
  let skipped :=
    negb force_reprocess
    && in_processed_items_cache S emby_item_id (inner (world s)) in
  let run :=
    process_single_item E S self emby_item_id force_reprocess force_fetch s in
  (skipped = true → run = (s, Ok true))
  ∧ (skipped = false → stop_event_is_set E (inner (world s)) = true →
     run = (s, Ok false))
  ∧ (skipped = false → stop_event_is_set E (inner (world s)) = false →
     ∀ w', get_emby_item_details S emby_item_id None (inner (world s))
           = (w', Ok None) →
     run = (mkSt (mkHost w' (CallGetItemDetails emby_item_id None
                             :: calls (world s))) (trace s),
            Ok false)).
Proof.
  intros Hk skipped run. subst skipped run.
  unfold process_single_item, stop_requested.
  split_and!.
  - intros Hskip. destruct force_reprocess; [done|]. simpl in Hskip.
    unfold sbind, lift, observe. by rewrite Hk, Hskip.
  - intros Hskip Hstop. unfold sbind, lift, observe.
    destruct force_reprocess; simpl in *.
    + by rewrite Hstop.
    + by rewrite Hk, Hskip, Hstop.
  - intros Hskip Hstop w' Hq. unfold sbind, lift, observe, invoke.
    destruct force_reprocess; simpl in *.
    + by rewrite Hstop, Hq.
    + by rewrite Hk, Hskip, Hstop, Hq.
Qed.

End EpisodeFacts.

(** ** Further code: the run over the libraries *)
Section LibraryFacts.
Context {W : Type} (E : Collaborators W) (S : Services W)
  (self : MediaProcessor).
Implicit Types (s : St (Host W)).

Lemma hash_key_type_error v err : hash_key v = Raise err → err = TypeError.
Proof. destruct v; simpl; intros [=]; by subst. Qed.

Lemma source_library_names_raises m items err :
  source_library_names m items = Raise err → err = TypeError.
Proof.
  unfold source_library_names.
  induction (filter _ items) as [|x l IH]; simpl; [done|].
  destruct (hash_key (py_get x "_SourceLibraryId")) as [k|e] eqn:Hk; simpl.
  2:{ intros [= <-]. by eapply hash_key_type_error. }
  destruct (hash_key (default VNone (od_get k m))) as [k'|e] eqn:Hn; simpl.
  2:{ intros [= <-]. by eapply hash_key_type_error. }
  destruct (rmap _ l) as [names|e]; simpl; [done|].
  intros [= <-]. by apply IH.
Qed.

Lemma source_library_names_unknown m items item names :
  item ∈ items → names_unknown_library m item →
  source_library_names m items = Ok names → forallb is_text names = false.
Proof.
  intros Hin [Hid Hname]. unfold source_library_names.
  assert (item ∈ filter (fun item => py_truthy (py_get item "_SourceLibraryId")
                                     = true) items) as Hin'.
  { by apply list_elem_of_filter. }
  revert names. induction Hin' as [x l | x y l _ IH]; intros names; simpl.
  - destruct (hash_key (py_get x "_SourceLibraryId")) as [k|e] eqn:Hk; simpl;
      [|done].
    destruct (hash_key (default VNone (od_get k m))); simpl; [|done].
    destruct (rmap _ l) as [rest|e]; simpl; [|done].
    intros [= <-]. simpl. by rewrite (Hname k eq_refl).
  - destruct (hash_key (py_get y "_SourceLibraryId")) as [k|e]; simpl; [|done].
    destruct (hash_key (default VNone (od_get k m))); simpl; [|done].
    destruct (rmap _ l) as [rest|e]; simpl; [|done].
    intros [= <-]. simpl. rewrite (IH Hin Hid Hname rest eq_refl).
    apply andb_false_r.
Qed.

Lemma log_source_libraries_result m items :
  log_source_libraries m items = Ok ()
  ∨ log_source_libraries m items = Raise TypeError.
Proof.
  unfold log_source_libraries.
  destruct (source_library_names m items) as [names|e] eqn:Hn; simpl.
  - destruct (forallb is_text names); [by left | by right].
  - right. f_equal. by eapply source_library_names_raises.
Qed.

Lemma log_source_libraries_unknown m items item :
  item ∈ items → names_unknown_library m item →
  log_source_libraries m items = Raise TypeError.
Proof.
  intros Hin Hitem. unfold log_source_libraries.
  destruct (source_library_names m items) as [names|e] eqn:Hn; simpl.
  - by rewrite (source_library_names_unknown m items item names).
  - f_equal. by eapply source_library_names_raises.
Qed.

Lemma library_loop_stopped cb force force_fetch total l s :
  stop_event_is_set E (inner (world s)) = true → l ≠ [] →
  sloop (process_library_item E S self cb force force_fetch total) l s
  = (s, Ok ()).
Proof.
  intros Hstop Hl. destruct l as [|[i item] l]; [done|]. simpl.
  unfold sbind at 1. unfold process_library_item. unfold sbind at 1.
  unfold stop_requested, observe. by rewrite Hstop.
Qed.

(** X17 (core_processor.py, process_full_library): when one fetched item
    names a source library for which the list of the server's libraries
    gives no name, the run over the libraries raises a [TypeError] where
    it writes the names of the source libraries to the log: the three
    fetches have been made, no item is processed and no status is
    reported. *)
Theorem unknown_library_aborts_run update_status_callback force_fetch
    s libs w1 name_map movies w2 series w3 item :
  let library_ids := default (VList []) (config self !! "libraries_to_process") in
  py_truthy library_ids = true →
  get_emby_libraries S (stop_event_clear S (inner (world s))) = (w1, Ok libs) →
  library_name_map_of (default [] libs) = Ok name_map →
  get_emby_library_items S "Movie" library_ids name_map w1 = (w2, Ok movies) →
  get_emby_library_items S "Series" library_ids name_map w2 = (w3, Ok series) →
  item ∈ default [] movies ++ default [] series →
  names_unknown_library name_map item →
  process_full_library E S self update_status_callback false force_fetch s
  = (mkSt (mkHost w3 (CallGetLibraryItems "Series" library_ids
                      :: CallGetLibraryItems "Movie" library_ids
                      :: CallGetLibraries :: calls (world s))) (trace s),
     Raise TypeError).
Proof.
  intros ids Hids Hlibs Hmap Hmovies Hseries Hin Hitem. subst ids.
  unfold process_full_library, process_libraries.
  unfold sbind at 1. unfold update at 1. unfold sbind at 1. simpl.
  rewrite Hids. simpl.
  unfold sbind at 1. unfold invoke at 1. simpl. rewrite Hlibs.
  unfold sbind at 1. unfold lift at 1. rewrite Hmap.
  unfold sbind at 1. unfold invoke at 1. simpl. rewrite Hmovies.
  unfold sbind at 1. unfold invoke at 1. simpl. rewrite Hseries.
  unfold sbind at 1. unfold lift at 1.
  apply elem_of_app in Hin as [Hin | Hin].
  - by rewrite (log_source_libraries_unknown name_map _ item Hin Hitem).
  - destruct (log_source_libraries_result name_map (default [] movies))
      as [-> | ->]; [|done].
    unfold sbind at 1. unfold lift at 1.
    by rewrite (log_source_libraries_unknown name_map _ item Hin Hitem).
Qed.

(** X18 (core_processor.py, process_full_library): a stop that is
    requested while the items of the libraries are fetched ends the run
    before the first item: no item is processed, no status is reported,
    not even the final one, and the method returns normally. *)
Theorem stop_ends_library_run update_status_callback force_fetch
    s libs w1 name_map movies w2 series w3 :
  let library_ids := default (VList []) (config self !! "libraries_to_process") in
  let all_items := default [] movies ++ default [] series in
  py_truthy library_ids = true →
  get_emby_libraries S (stop_event_clear S (inner (world s))) = (w1, Ok libs) →
  library_name_map_of (default [] libs) = Ok name_map →
  get_emby_library_items S "Movie" library_ids name_map w1 = (w2, Ok movies) →
  get_emby_library_items S "Series" library_ids name_map w2 = (w3, Ok series) →
  log_source_libraries name_map (default [] movies) = Ok () →
  log_source_libraries name_map (default [] series) = Ok () →
  all_items ≠ [] →
  stop_event_is_set E w3 = true →
  process_full_library E S self update_status_callback false force_fetch s
  = (mkSt (mkHost w3 (CallGetLibraryItems "Series" library_ids
                      :: CallGetLibraryItems "Movie" library_ids
                      :: CallGetLibraries :: calls (world s))) (trace s),
     Ok ()).
Proof.
  intros ids all_items Hids Hlibs Hmap Hmovies Hseries Hlog1 Hlog2 Hne Hstop.
  subst ids all_items.
  unfold process_full_library, process_libraries.
  unfold sbind at 1. unfold update at 1. unfold sbind at 1. simpl.
  rewrite Hids. simpl.
  unfold sbind at 1. unfold invoke at 1. simpl. rewrite Hlibs.
  unfold sbind at 1. unfold lift at 1. rewrite Hmap.
  unfold sbind at 1. unfold invoke at 1. simpl. rewrite Hmovies.
  unfold sbind at 1. unfold invoke at 1. simpl. rewrite Hseries.
  unfold sbind at 1. unfold lift at 1. rewrite Hlog1.
  unfold sbind at 1. unfold lift at 1. rewrite Hlog2.
  rewrite bool_decide_eq_false_2.
  2:{ intros Hlen. by apply nil_length_inv in Hlen. }
  unfold sbind at 1.
  rewrite library_loop_stopped; [|exact Hstop|].
  2:{ intros Himap. apply Hne.
      destruct (default [] movies ++ default [] series); done. }
  unfold sbind, stop_requested, observe. simpl. by rewrite Hstop.
Qed.

End LibraryFacts.

(** ** Further code: the aggregation from the local cache *)
Section CacheAggregationFacts.
Context {W : Type} (E : Collaborators W) (S : Services W).
Implicit Types (s : St (Host W)).

Lemma rfoldl_raises {A B} (P : exn → Prop) (f : A → B → result A) l a e :
  (∀ a x e, f a x = Raise e → P e) → rfoldl f a l = Raise e → P e.
Proof.
  intros Hf. revert a. induction l as [|x l IH]; intros a; simpl; [done|].
  destruct (f a x) as [a'|e'] eqn:Hx; simpl; [by apply IH|].
  intros [= <-]. by eapply Hf.
Qed.

(** The aggregation itself raises nothing but type errors. *)
Lemma as_dict_raises v err : as_dict v = Raise err → type_error err.
Proof. destruct v; simpl; intros [=]; subst; by left. Qed.

Lemma hash_key_raises v err : hash_key v = Raise err → type_error err.
Proof. destruct v; simpl; intros [=]; subst; by right. Qed.

Lemma credit_list_raises c k err : credit_list c k = Raise err → type_error err.
Proof.
  unfold credit_list. destruct (c !! k) as [[]|]; intros [=]; subst; by right.
Qed.

Lemma rbind_raises {A B} (P : exn → Prop) (r : result A) (k : A → result B) err :
  (∀ e, r = Raise e → P e) → (∀ a e, k a = Raise e → P e) →
  rbind r k = Raise err → P err.
Proof.
  destruct r; simpl; intros Hr Hk H; [exact (Hk _ _ H)|].
  injection H as <-. by apply Hr.
Qed.

Lemma add_episode_actor_raises m x err :
  add_episode_actor m x = Raise err → type_error err.
Proof.
  unfold add_episode_actor. apply rbind_raises; [apply as_dict_raises|].
  intros a e. destruct (py_truthy (py_get a "id")); [|done].
  apply rbind_raises; [apply hash_key_raises|].
  intros k e'. by destruct (od_mem k m).
Qed.

Lemma add_episode_raises m e err : add_episode m e = Raise err → type_error err.
Proof.
  unfold add_episode. apply rbind_raises.
  - intros e0. unfold episode_actors. apply rbind_raises.
    + unfold credits_of. destruct (e !! "credits"); [apply as_dict_raises|done].
    + intros c e1. apply rbind_raises; [apply credit_list_raises|].
      intros l e2. apply rbind_raises; [apply credit_list_raises|done].
  - intros l e0. apply rfoldl_raises. intros ???. apply add_episode_actor_raises.
Qed.

(** A child file adds what the episode it stands for adds. *)
Lemma add_child_file_episode dir m f v e s :
  reads_as S (path_join dir f) v → cached_record v e →
  ∃ s', add_child_file S dir m f s = (s', add_episode m e).
Proof.
  intros Hread Hrec. unfold add_child_file.
  destruct (Hread s) as (s' & Hs'). exists s'.
  unfold sbind at 1. rewrite Hs'.
  destruct Hrec as [-> | [Hfalse ->]].
  - destruct (py_truthy (VDict e)) eqn:Ht; simpl.
    + unfold add_episode, sbind, lift. simpl.
      destruct (episode_actors e); done.
    + simpl in Ht. apply negb_false_iff, bool_decide_eq_true in Ht.
      apply map_size_empty_iff in Ht. by subst.
  - by rewrite Hfalse.
Qed.

Lemma child_loop_episodes dir files episodes m s :
  Forall2 (fun f e => ∃ v, reads_as S (path_join dir f) v ∧ cached_record v e)
    files episodes →
  ∃ s', sfoldl (add_child_file S dir) m files s
        = (s', rfoldl add_episode m episodes).
Proof.
  intros Hfiles. revert m s.
  induction Hfiles as [|f e files episodes (v & Hread & Hrec) _ IH];
    intros m s; simpl; [by eauto|].
  destruct (add_child_file_episode dir m f v e s Hread Hrec) as (s1 & H1).
  unfold sbind at 1. rewrite H1. unfold rbind at 1.
  destruct (add_episode m e) as [m'|err]; [apply IH | by eauto].
Qed.

Lemma main_map_of_record v series s s' :
  cached_record v series →
  ∃ r, (if py_truthy v
        then (let* main_data := lift (as_dict v) in
              let* main_cast := lift (main_cast_of main_data) in
              lift (rfoldl add_main_actor ([] : cast_map) main_cast))
        else sret []) s
       = (s, r)
       ∧ r = (let? main_cast := main_cast_of series in
              rfoldl add_main_actor [] main_cast).
Proof.
  intros [-> | [Hfalse ->]].
  - destruct (py_truthy (VDict series)) eqn:Ht.
    + eexists. split; [|done]. unfold sbind, lift. simpl.
      destruct (main_cast_of series); done.
    + simpl in Ht. apply negb_false_iff, bool_decide_eq_true in Ht.
      apply map_size_empty_iff in Ht. subst. by eexists.
  - rewrite Hfalse. by eexists.
Qed.

(** X12 (core_processor.py, _aggregate_series_cast_from_cache and
    _aggregate_series_cast_from_tmdb_data): on a cache directory that can
    be listed, the aggregation from the files returns, or raises, what the
    aggregation in memory returns or raises for the record of
    [series.json] and the records of the season and episode files in the
    order of their names; a file that is missing, unreadable or empty
    counts as an empty record. *)
Theorem cache_aggregation_agrees dir main series names episodes s :
  reads_as S (path_join dir "series.json") main → cached_record main series →
  lists_as S dir (Ok names) →
  Forall2 (fun f e => ∃ v, reads_as S (path_join dir f) v ∧ cached_record v e)
    (child_files E names) episodes →
  (_aggregate_series_cast_from_cache E S dir s).2
  = _aggregate_series_cast_from_tmdb_data series episodes.
Proof.
  intros Hmain Hrec Hlist Hfiles.
  unfold _aggregate_series_cast_from_cache,
    _aggregate_series_cast_from_tmdb_data, aggregated_cast_map_of.
  destruct (Hmain s) as (s1 & H1). unfold sbind at 1. rewrite H1.
  destruct (main_map_of_record main series s1 s1 Hrec) as (r & Hr & ->).
  unfold sbind at 1. rewrite Hr.
  destruct (main_cast_of series) as [main_cast|err]; simpl; [|done].
  destruct (rfoldl add_main_actor [] main_cast) as [m|err]; simpl; [|done].
  unfold sbind at 1. unfold try_except. unfold sbind at 1. unfold invoke.
  destruct (Hlist (inner (world s1))) as (w2 & ->).
  edestruct (child_loop_episodes dir (child_files E names) episodes m)
    as (s3 & H3); [exact Hfiles|].
  unfold child_files in H3. rewrite H3.
  destruct (rfoldl add_episode m episodes) as [m'|err] eqn:Hloop; simpl;
    [done|].
  apply (rfoldl_raises type_error) in Hloop as [-> | ->]; [done|done|].
  intros ???. apply add_episode_raises.
Qed.

(** X13 (core_processor.py, _aggregate_series_cast_from_cache): when the
    cache directory does not exist, the aggregation returns the cast of
    [series.json] alone, which is empty when that file is missing too; any
    other failure to list the directory is raised to the caller. *)
Theorem cache_aggregation_without_directory dir main series e s :
  reads_as S (path_join dir "series.json") main → cached_record main series →
  lists_as S dir (Raise e) →
  (_aggregate_series_cast_from_cache E S dir s).2
  = if is_file_not_found e
    then _aggregate_series_cast_from_tmdb_data series []
    else (let? _ := aggregated_cast_map_of series [] in Raise e).
Proof.
  intros Hmain Hrec Hlist.
  unfold _aggregate_series_cast_from_cache,
    _aggregate_series_cast_from_tmdb_data, aggregated_cast_map_of.
  destruct (Hmain s) as (s1 & H1). unfold sbind at 1. rewrite H1.
  destruct (main_map_of_record main series s1 s1 Hrec) as (r & Hr & ->).
  unfold sbind at 1. rewrite Hr.
  destruct (main_cast_of series) as [main_cast|err]; simpl;
    [|by destruct (is_file_not_found e)].
  destruct (rfoldl add_main_actor [] main_cast) as [m|err]; simpl;
    [|by destruct (is_file_not_found e)].
  unfold sbind at 1. unfold try_except. unfold sbind at 1. unfold invoke.
  destruct (Hlist (inner (world s1))) as (w2 & ->).
  by destruct (is_file_not_found e).
Qed.

End CacheAggregationFacts.

(** ** Further code: what the methods call *)
Section MakesFacts.
Context {W : Type}.
Implicit Types (s : St (Host W)) (P : Call → Prop).

Lemma makes_mono {A} P Q (m : M (Host W) A) :
  (∀ c, P c → Q c) → makes P m → makes Q m.
Proof.
  intros HPQ Hm s s' r H. destruct (Hm _ _ _ H) as (Ht & cs & Hc & Hall).
  split; [done|]. exists cs. split; [done|]. by eapply Forall_impl.
Qed.

Lemma makes_sret {A} P (a : A) : makes P (sret (W:=Host W) a).
Proof. intros s s' r [= <- <-]. split; [done|]. by exists []. Qed.

Lemma makes_sraise {A} P e : makes P (sraise (W:=Host W) (A:=A) e).
Proof. intros s s' r [= <- <-]. split; [done|]. by exists []. Qed.

Lemma makes_lift {A} P (r : result A) : makes P (lift (W:=Host W) r).
Proof. intros s s' r' [= <- <-]. split; [done|]. by exists []. Qed.

Lemma makes_observe {A} P (f : W → A) : makes P (observe f).
Proof. intros s s' r [= <- <-]. split; [done|]. by exists []. Qed.

Lemma makes_invoke {A} P c (f : W → W * result A) : P c → makes P (invoke c f).
Proof.
  intros HP s s' r H. apply invoke_run in H as (_ & Hc & Ht).
  split; [done|]. exists [c]. split; [done|]. by constructor.
Qed.

Lemma makes_sbind {A B} P (m : M (Host W) A) (k : A → M (Host W) B) :
  makes P m → (∀ a, makes P (k a)) → makes P (sbind m k).
Proof.
  intros Hm Hk s s' r H.
  apply sbind_run in H as [(s1 & a & H1 & H2) | (e & H1 & ->)].
  - destruct (Hm _ _ _ H1) as (Ht1 & cs1 & Hc1 & Hall1).
    destruct (Hk _ _ _ _ H2) as (Ht2 & cs2 & Hc2 & Hall2).
    split; [congruence|]. exists (cs1 ++ cs2). split.
    + rewrite Hc2, Hc1, reverse_app. by rewrite (assoc_L (++)).
    + by apply Forall_app.
  - by apply Hm in H1.
Qed.

Lemma makes_try_except {A} P (m : M (Host W) A) c h :
  makes P m → (∀ e, makes P (h e)) → makes P (try_except m c h).
Proof.
  intros Hm Hh s s' r H. unfold try_except in H.
  destruct (m s) as [s1 [a|e]] eqn:H1.
  - injection H as <- <-. by apply Hm in H1.
  - destruct (c e).
    + destruct (Hm _ _ _ H1) as (Ht1 & cs1 & Hc1 & Hall1).
      destruct (Hh _ _ _ _ H) as (Ht2 & cs2 & Hc2 & Hall2).
      split; [congruence|]. exists (cs1 ++ cs2). split.
      * rewrite Hc2, Hc1, reverse_app. by rewrite (assoc_L (++)).
      * by apply Forall_app.
    + injection H as <- <-. by apply Hm in H1.
Qed.

Lemma makes_sfoldl {A B} P (f : A → B → M (Host W) A) a l :
  (∀ a x, makes P (f a x)) → makes P (sfoldl f a l).
Proof.
  intros Hf. revert a. induction l as [|x l IH]; intros a; simpl.
  - apply makes_sret.
  - apply makes_sbind; [apply Hf | intros a'; apply IH].
Qed.

Lemma makes_sloop {A} P (body : A → M (Host W) bool) l :
  (∀ x, makes P (body x)) → makes P (sloop body l).
Proof.
  intros Hf. induction l as [|x l IH]; simpl.
  - apply makes_sret.
  - apply makes_sbind; [apply Hf | intros []; [apply IH | apply makes_sret]].
Qed.

Lemma makes_read_local_json (S : Services W) P path :
  P (CallLoadJson path) → makes P (_read_local_json S path).
Proof.
  intros HP. unfold _read_local_json.
  apply makes_sbind; [apply makes_observe|]. intros [].
  - apply makes_try_except; [by apply makes_invoke|].
    intros _. apply makes_sret.
  - apply makes_sret.
Qed.

(** [_read_local_json] never raises. *)
Lemma read_local_json_returns (S : Services W) path s :
  ∃ s' v, _read_local_json S path s = (s', Ok v).
Proof.
  unfold _read_local_json, sbind, observe, try_except, invoke.
  destruct (path_exists S path (inner (world s))); simpl; [|by eauto].
  destruct (load_json S path (inner (world s))) as [w [v|e]]; simpl; by eauto.
Qed.

End MakesFacts.

Ltac makes_step :=
  lazymatch goal with
  | |- makes _ (sret _) => apply makes_sret
  | |- makes _ (sraise _) => apply makes_sraise
  | |- makes _ (lift _) => apply makes_lift
  | |- makes _ (observe _) => apply makes_observe
  | |- makes _ (invoke _ _) => apply makes_invoke; try done
  | |- makes _ (sbind _ _) => apply makes_sbind; [|intros ?]
  | |- makes _ (try_except _ _ _) => apply makes_try_except; [|intros ?]
  | |- makes _ (_read_local_json _ _) => apply makes_read_local_json; try done
  | |- makes _ (if ?b then _ else _) => destruct b
  | |- makes _ (match ?x with Some _ => _ | None => _ end) => destruct x
  | |- makes _ (let '(_, _) := ?x in _) => destruct x
  end.

(** ** Further code: the regional data and its local cache *)
Section DoubanFacts.
Context {W : Type} (E : Collaborators W) (S : Services W)
  (self : MediaProcessor) (local_data_path : string).
Implicit Types (s : St (Host W)).

Lemma first_json_Some dir_path filenames p :
  first_json dir_path filenames = Some p →
  ∃ filename, filename ∈ filenames ∧ endswith ".json" filename = true
              ∧ p = path_join dir_path filename.
Proof.
  unfold first_json. intros H.
  destruct (head (filter _ filenames)) as [f|] eqn:Hf; [|done].
  injection H as <-. apply head_Some_elem_of in Hf.
  apply list_elem_of_filter in Hf as [? ?]. eauto.
Qed.

Lemma search_dirs_sound matches dir dirnames s s' p :
  search_dirs S matches dir dirnames s = (s', Ok (Some p)) →
  ∃ dirname filename,
    dirname ∈ dirnames ∧ matches dirname = Ok true
    ∧ endswith ".json" filename = true
    ∧ p = path_join (path_join dir dirname) filename.
Proof.
  revert s. induction dirnames as [|d rest IH]; intros s H; simpl in H; [done|].
  apply sbind_run in H as [(s1 & hit & H1 & H) | (e & _ & [=])].
  apply lift_eq in H1 as [-> Hm].
  assert (∀ s0, search_dirs S matches dir rest s0 = (s', Ok (Some p)) →
          ∃ dirname filename,
            dirname ∈ d :: rest ∧ matches dirname = Ok true
            ∧ endswith ".json" filename = true
            ∧ p = path_join (path_join dir dirname) filename) as Hrest.
  { intros s0 H0. destruct (IH _ H0) as (d' & f & Hin & ?).
    exists d', f. split; [by right|done]. }
  destruct hit; [|by eapply Hrest].
  apply sbind_run in H as [(s2 & filenames & H2 & H) | (e & _ & [=])].
  destruct (first_json (path_join dir d) filenames) as [q|] eqn:Hq;
    [|by eapply Hrest].
  injection H as <- <-.
  apply first_json_Some in Hq as (f & _ & Hf & ->).
  exists d, f. split_and!; [left|done|done|done].
Qed.

(** X14 (core_processor.py, _find_local_douban_json): a path is only ever
    returned for a JSON file of a folder of the cache whose name either
    contains the IMDb id of the title, the folders that start with [0_]
    excepted, or starts with the Douban id of the title followed by an
    underscore. *)
Theorem local_douban_json_is_sound imdb_id douban_id dir s s' p :
  _find_local_douban_json E S imdb_id douban_id dir s = (s', Ok (Some p)) →
  ∃ dirname filename,
    p = path_join (path_join dir dirname) filename
    ∧ endswith ".json" filename = true
    ∧ ((py_truthy imdb_id = true ∧ String.prefix "0_" dirname = false
        ∧ ∃ i, imdb_id = VStr i ∧ is_substring i dirname = true)
       ∨ (py_truthy douban_id = true
          ∧ String.prefix (py_str E douban_id +:+ "_") dirname = true)).
Proof.
  unfold _find_local_douban_json. intros H.
  apply sbind_run in H as [(s1 & found & H1 & H) | (e & _ & [=])].
  destruct found; simpl in H; [|done].
  apply sbind_run in H as [(s2 & by_imdb & Himdb & H) | (e & _ & [=])].
  destruct by_imdb as [q|].
  - injection H as <- <-.
    destruct (py_truthy imdb_id) eqn:Ht; [|done].
    apply sbind_run in Himdb as [(s3 & dirnames & _ & Himdb) | (e & _ & [=])].
    apply search_dirs_sound in Himdb as (d & f & _ & Hm & Hf & ->).
    exists d, f. split_and!; [done|done|]. left.
    unfold imdb_dir_matches in Hm.
    destruct (String.prefix "0_" d); [done|].
    destruct imdb_id; try done. injection Hm as Hm. eauto.
  - destruct (py_truthy douban_id) eqn:Ht; [|done].
    apply sbind_run in H as [(s3 & dirnames & _ & H) | (e & _ & [=])].
    apply search_dirs_sound in H as (d & f & _ & Hm & Hf & ->).
    exists d, f. split_and!; [done|done|]. right.
    unfold douban_dir_matches in Hm. by injection Hm as Hm.
Qed.

Lemma makes_search_dirs P matches dir dirnames :
  (∀ path, P (CallListdir path)) → makes P (search_dirs S matches dir dirnames).
Proof.
  intros HP. induction dirnames as [|d rest IH]; simpl; [apply makes_sret|].
  repeat makes_step; try done; apply IH.
Qed.

Lemma makes_find_local_douban_json P imdb_id douban_id dir :
  (∀ path, P (CallListdir path)) →
  makes P (_find_local_douban_json E S imdb_id douban_id dir).
Proof.
  intros HP. unfold _find_local_douban_json.
  repeat (makes_step || apply makes_search_dirs); done.
Qed.

(** X15 (core_processor.py, _get_douban_data_with_local_cache and
    _find_local_douban_json): getting the regional data touches the files
    of the local cache and the regional provider, and nothing else: no
    call goes to the database or to the media server, and none of the
    pipeline's calls is made. *)
Theorem douban_data_only_reads media_info :
  makes douban_call
    (_get_douban_data_with_local_cache E S self local_data_path media_info).
Proof.
  unfold _get_douban_data_with_local_cache.
  assert (∀ a b c d, makes douban_call (douban_data_online E S self a b c d))
    as Honline.
  { intros. unfold douban_data_online.
    repeat makes_step; by (left + right). }
  apply makes_sbind; [apply makes_lift|]. intros provider_ids.
  apply makes_sbind.
  { apply makes_find_local_douban_json. intros. by left. }
  intros [p|]; [|apply Honline].
  destruct (negb (String.eqb p "")); [|apply Honline].
  apply makes_sbind; [apply makes_read_local_json; by left|].
  intros douban_data. destruct (py_truthy douban_data); [|apply Honline].
  repeat makes_step.
Qed.


End DoubanFacts.

(** ** Further code: the JSON builders *)
Section BuilderFacts.
Implicit Types (source_data : PyDict) (processed_cast processed_crew : list PyDict).

Ltac dom_of_inserts :=
  rewrite ?dom_insert_L, ?dom_singleton_L;
  unfold movie_template, series_template, season_template, episode_template;
  simpl; set_solver.

(** X19 (core_processor.py, the four JSON builders): a rebuilt record has
    the fields of its template and no other, whatever fields the source
    record has, and its credits are the processed cast and crew; the
    credits of an episode have no guest stars. *)
Theorem builders_keep_to_the_template source_data processed_cast processed_crew :
  (∀ movie, _build_movie_json source_data processed_cast processed_crew = Ok movie →
     dom movie = movie_template
     ∧ movie !! "casts"
       = Some (VDict (cast_and_crew processed_cast processed_crew)))
  ∧ (let series := _build_series_json source_data processed_cast processed_crew in
     dom series = series_template
     ∧ series !! "credits"
       = Some (VDict (cast_and_crew processed_cast processed_crew)))
  ∧ (let season := _build_season_json source_data processed_cast processed_crew in
     dom season = season_template
     ∧ season !! "credits"
       = Some (VDict (cast_and_crew processed_cast processed_crew)))
  ∧ (let episode := _build_episode_json source_data processed_cast processed_crew in
     dom episode = episode_template
     ∧ episode_actors episode = Ok (records processed_cast)).
Proof.
  split_and!.
  - intros movie. unfold _build_movie_json.
    match goal with |- context [negb ?b] => destruct b end; simpl.
    + intros [= <-]. split; [dom_of_inserts|]. by rewrite lookup_insert_eq.
    + match goal with |- context [as_dict ?v] => destruct (as_dict v) end;
        simpl; [|done].
      intros [= <-]. split; [dom_of_inserts|].
      rewrite lookup_insert_ne by done. by rewrite lookup_insert_eq.
  - split; [unfold _build_series_json; dom_of_inserts|].
    unfold _build_series_json. by rewrite lookup_insert_eq.
  - split; [unfold _build_season_json; dom_of_inserts|].
    unfold _build_season_json. by simplify_map_eq.
  - split; [unfold _build_episode_json; dom_of_inserts|].
    unfold _build_episode_json, episode_actors, credits_of.
    simplify_map_eq. unfold credit_list, cast_and_crew. simplify_map_eq.
    unfold records. by rewrite app_nil_r.
Qed.

(** X20 (core_processor.py, _build_movie_json): the IMDb id of a rebuilt
    movie is the one of the source when that is not empty, and else the
    one of the source's external ids, or the empty string; the builder
    fails in one case only, with an [AttributeError]: the source has no
    IMDb id of its own and its [external_ids] are no dictionary. *)
Theorem movie_imdb_id_falls_back source_data processed_cast processed_crew :
  let own := py_get source_data "imdb_id" in
  let external := get_or source_data "external_ids" (VDict ∅) in
  match _build_movie_json source_data processed_cast processed_crew with
  | Ok movie =>
      movie !! "imdb_id"
      = Some (if py_truthy own then own
              else match external with
                   | VDict ids => get_or ids "imdb_id" (VStr "")
                   | _ => VNone
                   end)
      ∧ (py_truthy own = true ∨ ∃ ids, external = VDict ids)
  | Raise e =>
      e = AttributeError ∧ py_truthy own = false ∧ ∀ ids, external ≠ VDict ids
  end.
Proof.
  intros own external. subst own external. unfold _build_movie_json.
  cbv zeta.
  set (base := <["casts" := _]> _).
  assert (py_get base "imdb_id" = py_get source_data "imdb_id") as ->.
  { unfold py_get at 1. subst base. by simplify_map_eq. }
  assert (get_or base "external_ids" (VDict ∅)
          = get_or source_data "external_ids" (VDict ∅)) as ->.
  { unfold get_or at 1. subst base. by simplify_map_eq. }
  assert (base !! "imdb_id" = Some (py_get source_data "imdb_id")) as Hbase.
  { subst base. by simplify_map_eq. }
  destruct (py_truthy (py_get source_data "imdb_id")) eqn:Hown; simpl.
  { split; [done | by left]. }
  destruct (get_or source_data "external_ids" (VDict ∅)) eqn:Hext; simpl;
    try (split_and!; [done|done|by intros ? [=]]).
  split; [by rewrite lookup_insert_eq | right; eauto].
Qed.

End BuilderFacts.

(** ** Further code: the images *)
Section ImageFacts.
Context {W : Type} (E : Collaborators W) (S : Services W)
  (self : MediaProcessor) (local_data_path : string).
Implicit Types (s : St (Host W)).

Lemma sbind_lift {A B} (r : result A) (k : A → M (Host W) B) s :
  sbind (lift r) k s
  = match r with Ok a => k a s | Raise e => (s, Raise e) end.
Proof. by destruct r. Qed.

Lemma makes_sall {A} P (body : A → M (Host W) bool) l :
  (∀ x, makes P (body x)) → makes P (sall body l).
Proof.
  intros Hf. induction l as [|x l IH]; simpl.
  - apply makes_sret.
  - apply makes_sbind; [apply Hf | intros []; [apply IH | apply makes_sret]].
Qed.

(** One image in precise mode: the loop over the images makes at most one
    call, the download of that image. *)
Lemma sync_one_image_run item_id dir image s s' r :
  sall (sync_image E S item_id dir) [image] s = (s', r) →
  trace s' = trace s
  ∧ (calls_between s s' []
     ∨ calls_between s s'
         [CallDownloadImage item_id image.1 (path_join dir image.2)]).
Proof.
  simpl. unfold sync_image, stop_requested, download. intros H.
  apply sbind_run in H as [(s1 & go_on & H1 & H) | (e & H1 & ->)].
  - apply sbind_run in H1 as [(s2 & stop & Hobs & H1) | (e & Hobs & _)].
    2:{ by apply observe_run in Hobs as [_ [=]]. }
    apply observe_run in Hobs as [-> _].
    destruct stop.
    + injection H1 as <- <-. injection H as <- <-. split; [done|]. by left.
    + apply sbind_run in H1 as [(s3 & [] & Hq & H1) | (e & Hq & [=])].
      injection H1 as <- <-. injection H as <- <-.
      apply invoke_run in Hq as (_ & Hc & Ht). split; [done|]. by right.
  - apply sbind_run in H1 as [(s2 & stop & Hobs & H1) | (e' & Hobs & _)].
    2:{ by apply observe_run in Hobs as [_ [=]]. }
    apply observe_run in Hobs as [-> _].
    destruct stop; [done|].
    apply sbind_run in H1 as [(s3 & [] & Hq & [=]) | (e' & Hq & _)].
    apply invoke_run in Hq as (_ & Hc & Ht). split; [done|]. by right.
Qed.

Lemma full_image_map_length item_type :
  (3 ≤ length (full_image_map_of item_type))%nat.
Proof. unfold full_image_map_of. rewrite length_app. simpl. lia. Qed.

(** X21 (core_processor.py, sync_item_images): when the description of the
    update names an image kind that the item has, the first such kind in
    the order primary, backdrop, logo, thumb, no more than that one image
    is downloaded and the children of a series are not listed; the method
    returns a truth value and raises nothing. *)
Theorem precise_sync_downloads_one_image item_details d image s s' r :
  d ≠ "" →
  precise_image (py_lower E d)
    (full_image_map_of (py_get item_details "Type")) = Some image →
  sync_item_images E S local_data_path item_details (VStr d) s = (s', r) →
  (∃ b, r = Ok b) ∧ trace s' = trace s
  ∧ ∃ cs, calls_between s s' cs
      ∧ Forall (fun c => is_children_listing c = false
                         ∧ (is_download c = true →
                            ∃ path, c = CallDownloadImage
                                          (py_get item_details "Id")
                                          image.1 path)) cs
      ∧ (length (List.filter is_download cs) ≤ 1)%nat.
Proof.
  intros Hd Himage. unfold sync_item_images.
  destruct (negb _); [intros [= <- <-]|].
  { split; [by eauto|]. split; [done|]. exists []. split_and!; [done | by constructor | simpl; lia]. }
  assert (images_to_sync_of E (VStr d)
            (full_image_map_of (py_get item_details "Type")) = Ok [image])
    as Himages.
  { unfold images_to_sync_of. simpl. rewrite Himage.
    by destruct (String.eqb_spec d ""). }
  assert (bool_decide ([image] = full_image_map_of (py_get item_details "Type"))
          = false) as Hne.
  { apply bool_decide_eq_false. intros Heq.
    pose proof (full_image_map_length (py_get item_details "Type")) as Hl.
    rewrite <- Heq in Hl. simpl in Hl. lia. }
  unfold try_except.
  match goal with
  | |- match ?body s with _ => _ end = _ → _ =>
      destruct (body s) as [s1 r0] eqn:Hbody
  end.
  intros Hr.
  assert ((∃ b, r = Ok b) ∧ s1 = s') as [Hres ->].
  { destruct r0; simpl in Hr; injection Hr as <- <-; eauto. }
  split; [done|]. clear Hr Hres.
  rewrite sbind_lift in Hbody.
  destruct (provider_tmdb item_details) as [tmdb_id|e].
  2:{ injection Hbody as <- <-. split; [done|]. exists []. split_and!; [done | by constructor | simpl; lia]. }
  destruct (negb (py_truthy tmdb_id)).
  { injection Hbody as <- <-. split; [done|]. exists []. split_and!; [done | by constructor | simpl; lia]. }
  rewrite sbind_lift in Hbody.
  destruct (path_component tmdb_id) as [tmdb|e].
  2:{ injection Hbody as <- <-. split; [done|]. exists []. split_and!; [done | by constructor | simpl; lia]. }
  apply sbind_run in Hbody as [(s2 & [] & Hmk & H) | (e & Hmk & ->)].
  2:{ apply invoke_run in Hmk as (_ & Hc & Ht). split; [done|].
      eexists. split; [exact Hc|]. split; [|simpl; lia].
      by repeat constructor. }
  apply invoke_run in Hmk as (_ & Hc1 & Ht1).
  rewrite sbind_lift, Himages in H.
  assert (trace s' = trace s2
          ∧ (calls_between s2 s' []
             ∨ calls_between s2 s'
                 [CallDownloadImage (py_get item_details "Id") image.1
                    (path_join
                       (path_join
                          (path_join
                             (path_join
                                (path_join local_data_path "override")
                                (if is_str "Movie" (py_get item_details "Type")
                                 then "tmdb-movies2" else "tmdb-tv"))
                             tmdb) "images") image.2)])) as [Ht2 Hc2].
  { apply sbind_run in H as [(s3 & fin & Hall & H) | (e & Hall & ->)].
    - apply sync_one_image_run in Hall.
      rewrite Hne in H. destruct fin; simpl in H; by injection H as <- <-.
    - by apply sync_one_image_run in Hall. }
  split; [congruence|]. destruct Hc2 as [Hc2|Hc2].
  - eexists. split; [exact (calls_between_trans _ _ _ _ _ Hc1 Hc2)|].
    split; [|simpl; lia]. by repeat constructor.
  - eexists. split; [exact (calls_between_trans _ _ _ _ _ Hc1 Hc2)|].
    split; [|simpl; lia]. repeat constructor; try done. eauto.
Qed.

(** X22 (core_processor.py, sync_item_images): a description in which
    every keyword that occurs names an image kind the item does not have,
    such as thumb for a series or banner for any item, is treated as no
    description at all: the whole run is the one of the full
    synchronisation. *)
Theorem unknown_keyword_syncs_everything item_details d :
  (∀ keyword image_type, (keyword, image_type) ∈ keyword_map →
     is_substring keyword (py_lower E d) = true →
     od_get image_type (full_image_map_of (py_get item_details "Type")) = None) →
  sync_item_images E S local_data_path item_details (VStr d)
  = sync_item_images E S local_data_path item_details VNone.
Proof.
  intros Hk.
  assert (images_to_sync_of E (VStr d)
            (full_image_map_of (py_get item_details "Type"))
          = images_to_sync_of E VNone
              (full_image_map_of (py_get item_details "Type"))) as Himages.
  { unfold images_to_sync_of. destruct (py_truthy (VStr d)); [|done].
    change (py_truthy VNone) with false. cbv iota.
    assert (precise_image (py_lower E d)
              (full_image_map_of (py_get item_details "Type")) = None) as Hnone.
    { assert (Forall (fun p => is_substring p.1 (py_lower E d) = true →
                               od_get p.2 (full_image_map_of
                                             (py_get item_details "Type"))
                               = None) keyword_map) as Hall.
      { apply Forall_forall. intros [k t] Hin. by apply Hk. }
      unfold precise_image. revert Hall. generalize keyword_map.
      intros l Hall. induction Hall as [|[k t] l Hkt _ IH]; csimpl; [done|].
      simpl in Hkt.
      destruct (is_substring k (py_lower E d)); [rewrite Hkt by done|];
        exact IH. }
    by rewrite Hnone. }
  unfold sync_item_images. by rewrite Himages.
Qed.

Lemma stays_sret {A} (a : A) : stays_running E (sret (W:=Host W) a).
Proof. by intros s s' r [= <- <-]. Qed.

Lemma stays_lift {A} (r : result A) : stays_running E (lift (W:=Host W) r).
Proof. by intros s s' r' [= <- <-]. Qed.

Lemma stays_invoke {A} c (f : W → W * result A) :
  keeps_running E f → stays_running E (invoke c f).
Proof.
  intros Hf s s' r H Hs. apply invoke_run in H as (H & _ & _).
  specialize (Hf _ Hs). by rewrite H in Hf.
Qed.

Lemma stays_sbind {A B} (m : M (Host W) A) (k : A → M (Host W) B) :
  stays_running E m → (∀ a, stays_running E (k a)) →
  stays_running E (sbind m k).
Proof.
  intros Hm Hk s s' r H Hs.
  apply sbind_run in H as [(s1 & a & H1 & H2) | (e & H1 & ->)].
  - exact (Hk _ _ _ _ H2 (Hm _ _ _ H1 Hs)).
  - exact (Hm _ _ _ H1 Hs).
Qed.

Lemma stays_try_except {A} (m : M (Host W) A) c h :
  stays_running E m → (∀ e, stays_running E (h e)) →
  stays_running E (try_except m c h).
Proof.
  intros Hm Hh s s' r H Hs. unfold try_except in H.
  destruct (m s) as [s1 [a|e]] eqn:H1.
  - injection H as <- <-. exact (Hm _ _ _ H1 Hs).
  - destruct (c e); [exact (Hh _ _ _ _ H (Hm _ _ _ H1 Hs))|].
    injection H as <- <-. exact (Hm _ _ _ H1 Hs).
Qed.

Lemma stays_sfoldl {A B} (f : A → B → M (Host W) A) a l :
  (∀ a x, stays_running E (f a x)) → stays_running E (sfoldl f a l).
Proof.
  intros Hf. revert a. induction l as [|x l IH]; intros a; simpl.
  - apply stays_sret.
  - apply stays_sbind; [apply Hf | intros a'; apply IH].
Qed.

Ltac stays_step :=
  lazymatch goal with
  | |- stays_running _ (sret _) => apply stays_sret
  | |- stays_running _ (lift _) => apply stays_lift
  | |- stays_running _ (invoke _ _) => apply stays_invoke; try done
  | |- stays_running _ (sbind _ _) => apply stays_sbind; [|intros ?]
  | |- stays_running _ (sfoldl _ _ _) => apply stays_sfoldl; intros ? ?
  | |- stays_running _ (if ?b then _ else _) => destruct b
  | |- stays_running _ (match ?x with Some _ => _ | None => _ end) =>
      destruct x
  end.

Lemma stays_sync_logged_item item_id :
  sync_undisturbed E S → stays_running E (sync_logged_item E S self item_id).
Proof.
  intros (Hd & Hc & Hi & Hm). unfold sync_logged_item, download.
  repeat stays_step.
Qed.

Lemma no_details_filter cs :
  Forall (fun c => is_details_request c = false) cs →
  List.filter is_details_request cs = [].
Proof. induction 1 as [|c cs Hc _ IH]; simpl; [done|]. by rewrite Hc. Qed.

Lemma sync_logged_item_calls item_id s s' r :
  sync_logged_item E S self item_id s = (s', r) →
  trace s' = trace s
  ∧ ∃ cs, calls_between s s' cs
      ∧ List.filter is_details_request cs = [CallGetItemDetails item_id None].
Proof.
  unfold sync_logged_item. intros H.
  apply sbind_run in H as [(s1 & details & Hq & H) | (e & Hq & ->)].
  - apply invoke_run in Hq as (_ & Hc1 & Ht1).
    revert H.
    match goal with
    | |- ?k s1 = _ → _ =>
        assert (makes (fun c => is_details_request c = false) k) as Hk
    end.
    { unfold download.
      repeat (makes_step || (apply makes_sfoldl; intros ? ?)). }
    intros H. destruct (Hk _ _ _ H) as (Ht2 & cs2 & Hc2 & Hall).
    split; [congruence|]. exists ([CallGetItemDetails item_id None] ++ cs2).
    split; [by apply (calls_between_trans _ _ _ _ _ Hc1)|].
    rewrite List.filter_app, (no_details_filter _ Hall). done.
  - apply invoke_run in Hq as (_ & Hc1 & Ht1). split; [done|]. eauto.
Qed.

Lemma sync_logged_row_run total i db_row s s' r :
  sync_undisturbed E S →
  well_formed_row db_row →
  stop_event_is_set E (inner (world s)) = false →
  sync_logged_row E S self None total (i, db_row) s = (s', r) →
  r = Ok true ∧ stop_event_is_set E (inner (world s')) = false
  ∧ trace s' = trace s
  ∧ ∃ cs, calls_between s s' cs
      ∧ List.filter is_details_request cs
        = (fun item_id => CallGetItemDetails item_id None)
            <$> logged_ids [db_row].
Proof.
  intros HS [[item_id Hid] [item_name Hname]] Hs.
  unfold sync_logged_row, stop_requested, logged_ids, row_get. csimpl.
  unfold sbind at 1, observe at 1. rewrite Hs.
  rewrite Hid, Hname, !sbind_lift.
  destruct (py_truthy item_id); simpl negb; cbv iota.
  2:{ intros [= <- <-]. split_and!; try done. by exists []. }
  unfold report. unfold sbind at 1, sret at 1.
  intros H.
  apply sbind_run in H as [(s1 & [] & Htry & H) | (e & Htry & _)].
  - injection H as <- <-.
    pose proof (stays_try_except _ catch_all (fun _ => sret ())
                  (stays_sync_logged_item item_id HS)
                  (fun _ => stays_sret ()) _ _ _ Htry Hs) as Hs1.
    apply try_except_all_run in Htry as [(a & H & _) | (s2 & e & H & Hh)].
    + apply sync_logged_item_calls in H as (Ht & cs & Hc & Hf).
      split_and!; try done. by exists cs.
    + injection Hh as <-.
      apply sync_logged_item_calls in H as (Ht & cs & Hc & Hf).
      split_and!; try done. by exists cs.
  - by apply try_except_all_run in Htry
      as [(a & _ & [=]) | (s2 & e' & _ & [= _ ?])].
Qed.

Lemma logged_ids_cons row rows :
  logged_ids (row :: rows) = logged_ids [row] ++ logged_ids rows.
Proof.
  unfold logged_ids. csimpl.
  destruct (row_get row "item_id") as [v|]; [destruct (py_truthy v)|]; done.
Qed.

Lemma sync_rows_run total (l : list (nat * Row)) s s' r :
  sync_undisturbed E S →
  Forall well_formed_row l.*2 →
  stop_event_is_set E (inner (world s)) = false →
  sloop (sync_logged_row E S self None total) l s = (s', r) →
  r = Ok () ∧ trace s' = trace s
  ∧ ∃ cs, calls_between s s' cs
      ∧ List.filter is_details_request cs
        = (fun item_id => CallGetItemDetails item_id None)
            <$> logged_ids l.*2.
Proof.
  intros HS. revert s. induction l as [|[i db_row] l IH]; intros s Hwf Hs.
  - intros [= <- <-]. split_and!; try done. by exists [].
  - change ((i, db_row) :: l).*2 with (db_row :: l.*2) in *.
    apply Forall_cons in Hwf as [Hrow Hwf]. intros H. simpl in H.
    apply sbind_run in H as [(s1 & go_on & Hrun & H) | (e & Hrun & _)].
    + apply sync_logged_row_run in Hrun
        as ([= ->] & Hs1 & Ht1 & cs1 & Hc1 & Hf1); [|done..].
      apply IH in H as (-> & Ht2 & cs2 & Hc2 & Hf2); [|done..].
      split; [done|]. split; [congruence|]. exists (cs1 ++ cs2).
      split; [by apply (calls_between_trans _ _ _ _ _ Hc1)|].
      rewrite List.filter_app, Hf1, Hf2, <- fmap_app.
      by rewrite (logged_ids_cons db_row l.*2).
    + by apply sync_logged_row_run in Hrun as ([=] & _).
Qed.

Lemma enumerate_rows (rows : list Row) :
  (imap (fun i db_row => (i, db_row)) rows).*2 = rows.
Proof.
  rewrite fmap_imap, (imap_ext _ (const id)) by done.
  by rewrite imap_const, list_fmap_id.
Qed.

(** X23 (core_processor.py, sync_all_images): as long as no stop is
    requested, the details of every item of the processed log are
    requested from the server, once each and in the order of the log,
    whatever the server and the file system answer or raise for the items
    before; the method itself returns without raising. *)
Theorem every_logged_item_is_synced rows w1 s s' r :
  sync_undisturbed E S →
  select_processed_log S (inner (world s)) = (w1, Ok rows) →
  stop_event_is_set E w1 = false →
  Forall well_formed_row rows →
  sync_all_images E S self None s = (s', r) →
  r = Ok () ∧ trace s' = trace s
  ∧ ∃ cs, calls_between s s' cs
      ∧ List.filter is_details_request cs
        = (fun item_id => CallGetItemDetails item_id None)
            <$> logged_ids rows.
Proof.
  intros HS Hq Hs1 Hwf. unfold sync_all_images.
  unfold sbind at 1, try_except, sbind at 1, invoke at 1. rewrite Hq. simpl.
  set (s1 := mkSt _ _).
  assert (calls_between s s1 [CallSelectProcessedLog]) as Hc1 by done.
  case_bool_decide as Hlen.
  - intros [= <- <-]. apply nil_length_inv in Hlen as ->.
    split_and!; try done. by exists [CallSelectProcessedLog].
  - intros H. apply sync_rows_run in H as (-> & Ht & cs & Hc & Hf); try done.
    + split_and!; try done. exists ([CallSelectProcessedLog] ++ cs).
      split; [by apply (calls_between_trans _ _ _ _ _ Hc1)|].
      rewrite List.filter_app, Hf. simpl. f_equal. f_equal.
      by rewrite enumerate_rows.
    + by rewrite enumerate_rows.
Qed.

End ImageFacts.

(** ** Further code: runs on explicit inputs *)

(** The store knows John, the server knows Jane, the extra has no id. *)
Lemma enrich_keeps_members_witness :
  _enrich_cast_from_db_and_api Demo.plain Stage.known
    (VList (VDict <$> Stage.snapshot)) (Stage.start false)
  = (Stage.enriched_run.1, Ok Stage.enriched_cast)
  ∧ Forall2 (fun a o => o = a ∨ enriched_copy Demo.plain Stage.snapshot a o)
      Stage.snapshot Stage.enriched_cast.
Proof.
  assert (_enrich_cast_from_db_and_api Demo.plain Stage.known
            (VList (VDict <$> Stage.snapshot)) (Stage.start false)
          = (Stage.enriched_run.1, Ok Stage.enriched_cast)) as Hrun
    by (vm_compute; reflexivity).
  split; [exact Hrun|].
  exact (enrich_keeps_members Demo.plain Stage.known _ _ _ _ Hrun).
Defined.

Lemma enrich_absorbs_database_failure_witness :
  details_never_raise Stage.store_down
  ∧ ∃ s' out,
      _enrich_cast_from_db_and_api Demo.plain Stage.store_down
        (VList (VDict <$> Stage.snapshot)) (Stage.start false)
      = (s', Ok out).
Proof.
  assert (details_never_raise Stage.store_down) as Hdetails.
  { intros item_id fields w. eexists _, _. reflexivity. }
  split; [exact Hdetails|].
  exact (enrich_absorbs_database_failure Demo.plain Stage.store_down
           Stage.snapshot (Stage.start false) Hdetails).
Defined.

Lemma enrich_only_reads_witness :
  _enrich_cast_from_db_and_api Demo.plain Stage.known
    (VList (VDict <$> Stage.snapshot)) (Stage.start false)
  = (Stage.enriched_run.1, Ok Stage.enriched_cast)
  ∧ trace Stage.enriched_run.1 = trace (Stage.start false).
Proof.
  assert (_enrich_cast_from_db_and_api Demo.plain Stage.known
            (VList (VDict <$> Stage.snapshot)) (Stage.start false)
          = (Stage.enriched_run.1, Ok Stage.enriched_cast)) as Hrun
    by (vm_compute; reflexivity).
  split; [exact Hrun|].
  exact (proj1 (enrich_only_reads Demo.plain Stage.known _ _ _ _ Hrun)).
Defined.

(** The two episodes of a series, without and with a pending stop. *)
Lemma episodes_updated_in_order_witness :
  _batch_update_episodes_cast Demo.plain Stage.two_episodes (VStr "s1")
    Stage.final_cast (Stage.start false)
  = (Stage.episodes_run.1, Ok ())
  ∧ trace Stage.episodes_run.1 = trace (Stage.start false).
Proof.
  assert (_batch_update_episodes_cast Demo.plain Stage.two_episodes (VStr "s1")
            Stage.final_cast (Stage.start false)
          = (Stage.episodes_run.1, Ok ())) as Hrun
    by (vm_compute; reflexivity).
  split; [exact Hrun|].
  exact (proj1 (episodes_updated_in_order Demo.plain Stage.two_episodes
                  _ _ _ _ _ Hrun)).
Defined.

Lemma stop_skips_episode_updates_witness :
  get_series_children Stage.two_episodes (VStr "s1") (Some "Episode") true
  = (true, Ok (Some [Stage.pilot; Stage.finale]))
  ∧ stop_event_is_set Demo.plain true = true
  ∧ _batch_update_episodes_cast Demo.plain Stage.two_episodes (VStr "s1")
      Stage.final_cast (Stage.start true)
    = (mkSt (mkHost true [CallGetSeriesChildren (VStr "s1") (Some "Episode")]) [],
       Ok ()).
Proof.
  split; [reflexivity|]. split; [reflexivity|].
  exact (stop_skips_episode_updates Demo.plain Stage.two_episodes (VStr "s1")
           Stage.final_cast (Stage.start true) true
           [Stage.pilot; Stage.finale] eq_refl eq_refl).
Defined.

Lemma all_episodes_updated_witness :
  updates_undisturbed Demo.plain
  ∧ ∃ s', _batch_update_episodes_cast Demo.plain Stage.two_episodes (VStr "s1")
            Stage.final_cast (Stage.start false)
          = (s', Ok ())
          ∧ calls_between (Stage.start false) s'
              (CallGetSeriesChildren (VStr "s1") (Some "Episode")
               :: (episode_update Stage.final_cast
                   <$> [Stage.pilot; Stage.finale])).
Proof.
  assert (updates_undisturbed Demo.plain) as Hupd.
  { intros item_id cast w Hw. exists w, true. by split. }
  split; [exact Hupd|].
  exact (all_episodes_updated Demo.plain Stage.two_episodes (VStr "s1")
           Stage.final_cast (Stage.start false) false
           [Stage.pilot; Stage.finale] Hupd eq_refl eq_refl).
Defined.

(** An item of the processed cache, met while a stop is pending. *)
Lemma single_item_guards_witness :
  hash_key (VStr "i1") = Ok (KStr "i1")
  ∧ process_single_item Demo.plain Stage.seen_before (Demo.processor ∅)
      (VStr "i1") false false (Stage.start true)
    = (Stage.start true, Ok true).
Proof.
  split; [reflexivity|].
  exact (proj1 (single_item_guards Demo.plain Stage.seen_before
                  (Demo.processor ∅) (VStr "i1") false false
                  (Stage.start true) (KStr "i1") eq_refl) eq_refl).
Defined.

(** The cache of a series: [series.json] and two episode files, which the
    directory lists in another order than that of their names. *)
Lemma cache_aggregation_agrees_witness :
  reads_as Stage.cached_series (path_join Stage.series_dir "series.json")
    (VDict Demo.series_with_john)
  ∧ lists_as Stage.cached_series Stage.series_dir
      (Ok ["series.json"; "season-1-episode-2.json"; "notes.txt";
           "season-1-episode-1.json"])
  ∧ (_aggregate_series_cast_from_cache Demo.plain Stage.cached_series
       Stage.series_dir (Stage.start false)).2
    = _aggregate_series_cast_from_tmdb_data Demo.series_with_john
        [Demo.episode; Stage.second_episode].
Proof.
  assert (reads_as Stage.cached_series
            (path_join Stage.series_dir "series.json")
            (VDict Demo.series_with_john)) as Hmain.
  { intros s. by eexists. }
  assert (reads_as Stage.cached_series
            (path_join Stage.series_dir "season-1-episode-1.json")
            (VDict Demo.episode)) as Hfirst.
  { intros s. by eexists. }
  assert (reads_as Stage.cached_series
            (path_join Stage.series_dir "season-1-episode-2.json")
            (VDict Stage.second_episode)) as Hsecond.
  { intros s. by eexists. }
  assert (lists_as Stage.cached_series Stage.series_dir
            (Ok ["series.json"; "season-1-episode-2.json"; "notes.txt";
                 "season-1-episode-1.json"])) as Hlist.
  { intros w. by eexists. }
  split; [exact Hmain|]. split; [exact Hlist|].
  apply (cache_aggregation_agrees Demo.plain Stage.cached_series
           Stage.series_dir (VDict Demo.series_with_john) _ _ _ _
           Hmain (or_introl eq_refl) Hlist).
  repeat constructor.
  - exists (VDict Demo.episode). split; [exact Hfirst | by left].
  - exists (VDict Stage.second_episode). split; [exact Hsecond | by left].
Defined.

Lemma cache_aggregation_without_directory_witness :
  reads_as Stage.lone_series (path_join Stage.series_dir "series.json")
    (VDict Demo.series_with_john)
  ∧ lists_as Stage.lone_series Stage.series_dir (Raise FileNotFoundError)
  ∧ (_aggregate_series_cast_from_cache Demo.plain Stage.lone_series
       Stage.series_dir (Stage.start false)).2
    = _aggregate_series_cast_from_tmdb_data Demo.series_with_john [].
Proof.
  assert (reads_as Stage.lone_series (path_join Stage.series_dir "series.json")
            (VDict Demo.series_with_john)) as Hread.
  { intros s. by eexists. }
  assert (lists_as Stage.lone_series Stage.series_dir
            (Raise FileNotFoundError)) as Hlist.
  { intros w. by eexists. }
  split; [exact Hread|]. split; [exact Hlist|].
  exact (cache_aggregation_without_directory Demo.plain Stage.lone_series
           Stage.series_dir _ _ _ (Stage.start false) Hread
           (or_introl eq_refl) Hlist).
Defined.

(** The folder [1234_tt55] holds the file of the title [tt55]; the folder
    [0_tt55] is passed over. *)
Lemma local_douban_json_is_sound_witness :
  _find_local_douban_json Demo.plain Stage.cached_douban (VStr "tt55") VNone
    "/data/cache/douban-movies" (Stage.start false)
  = (Stage.found_json.1,
     Ok (Some "/data/cache/douban-movies/1234_tt55/1234.json"))
  ∧ ∃ dirname filename,
      "/data/cache/douban-movies/1234_tt55/1234.json"
      = path_join (path_join "/data/cache/douban-movies" dirname) filename
      ∧ endswith ".json" filename = true.
Proof.
  assert (_find_local_douban_json Demo.plain Stage.cached_douban (VStr "tt55")
            VNone "/data/cache/douban-movies" (Stage.start false)
          = (Stage.found_json.1,
             Ok (Some "/data/cache/douban-movies/1234_tt55/1234.json")))
    as Hrun by (vm_compute; reflexivity).
  split; [exact Hrun|].
  destruct (local_douban_json_is_sound Demo.plain Stage.cached_douban
              _ _ _ _ _ _ Hrun) as (dirname & filename & Hp & Hf & _).
  by exists dirname, filename.
Defined.


(** The server lists the library [lib1]; one fetched movie comes from
    [lib2]. *)
Lemma unknown_library_aborts_run_witness :
  names_unknown_library Stage.film_names Stage.stray
  ∧ process_full_library Demo.plain Stage.with_stray
      (Demo.processor Stage.library_config) None false false (Stage.start true)
    = (mkSt (mkHost false
               [CallGetLibraryItems "Series" (VList [VStr "lib1"]);
                CallGetLibraryItems "Movie" (VList [VStr "lib1"]);
                CallGetLibraries]) [],
       Raise TypeError).
Proof.
  assert (names_unknown_library Stage.film_names Stage.stray) as Hstray.
  { split; [reflexivity|]. intros k Hk. vm_compute in Hk.
    injection Hk as <-. reflexivity. }
  split; [exact Hstray|].
  refine (unknown_library_aborts_run Demo.plain Stage.with_stray
            (Demo.processor Stage.library_config) None false
            (Stage.start true) (Some [Stage.films]) false Stage.film_names
            (Some [Stage.stray]) false None false Stage.stray
            eq_refl eq_refl eq_refl eq_refl eq_refl _ Hstray).
  left.
Defined.

(** A stop arrives while the movies are fetched. *)
Lemma stop_ends_library_run_witness :
  stop_event_is_set Demo.plain true = true
  ∧ process_full_library Demo.plain Stage.stopped_meanwhile
      (Demo.processor Stage.library_config) None false false
      (Stage.start false)
    = (mkSt (mkHost true
               [CallGetLibraryItems "Series" (VList [VStr "lib1"]);
                CallGetLibraryItems "Movie" (VList [VStr "lib1"]);
                CallGetLibraries]) [],
       Ok ()).
Proof.
  split; [reflexivity|].
  exact (stop_ends_library_run Demo.plain Stage.stopped_meanwhile
           (Demo.processor Stage.library_config) None false
           (Stage.start false) (Some [Stage.films]) false Stage.film_names
           (Some [Stage.listed]) true None true
           eq_refl eq_refl eq_refl eq_refl eq_refl eq_refl eq_refl
           ltac:(discriminate) eq_refl).
Defined.

(** A description that names the backdrop and the logo of a series: the
    backdrop alone is downloaded. *)
Lemma precise_sync_downloads_one_image_witness :
  "New Backdrop and logo" ≠ ""
  ∧ precise_image (py_lower Demo.plain "New Backdrop and logo")
      (full_image_map_of (py_get Stage.show "Type"))
    = Some ("Backdrop", "fanart.jpg")
  ∧ (∃ b, Stage.backdrop_run.2 = Ok b)
  ∧ trace Stage.backdrop_run.1 = trace (Stage.start false)
  ∧ ∃ cs, calls_between (Stage.start false) Stage.backdrop_run.1 cs
      ∧ Forall (fun c => is_children_listing c = false
                         ∧ (is_download c = true →
                            ∃ path, c = CallDownloadImage (VStr "s1")
                                          "Backdrop" path)) cs
      ∧ (length (List.filter is_download cs) ≤ 1)%nat.
Proof.
  split; [discriminate|]. split; [reflexivity|].
  exact (precise_sync_downloads_one_image Demo.plain Stage.with_series "/data"
           Stage.show "New Backdrop and logo" ("Backdrop", "fanart.jpg")
           (Stage.start false) Stage.backdrop_run.1 Stage.backdrop_run.2
           ltac:(discriminate) eq_refl eq_refl).
Defined.

(** A series has no thumb: the description is of no use. *)
Lemma unknown_keyword_syncs_everything_witness :
  is_substring "thumb" (py_lower Demo.plain "New Thumb") = true
  ∧ sync_item_images Demo.plain Stage.with_series "/data" Stage.show
      (VStr "New Thumb")
    = sync_item_images Demo.plain Stage.with_series "/data" Stage.show VNone.
Proof.
  split; [reflexivity|].
  apply (unknown_keyword_syncs_everything Demo.plain Stage.with_series "/data"
           Stage.show "New Thumb").
  intros keyword image_type Hin.
  unfold keyword_map in Hin.
  repeat (apply elem_of_cons in Hin as [[= -> ->]|Hin];
          [vm_compute; try discriminate; reflexivity|]).
  by apply elem_of_nil in Hin.
Defined.

(** The server fails on the first item of the log and the second row has
    no id: the third item is synchronised all the same. *)
Lemma every_logged_item_is_synced_witness :
  sync_undisturbed Demo.plain Stage.logged
  ∧ Forall well_formed_row Stage.log_rows
  ∧ Stage.images_run.2 = Ok ()
  ∧ trace Stage.images_run.1 = trace (Stage.start false)
  ∧ ∃ cs, calls_between (Stage.start false) Stage.images_run.1 cs
      ∧ List.filter is_details_request cs
        = [CallGetItemDetails (VStr "i9") None;
           CallGetItemDetails (VStr "s1") None].
Proof.
  assert (sync_undisturbed Demo.plain Stage.logged) as HS.
  { by repeat split; intros; intros w Hw. }
  assert (Forall well_formed_row Stage.log_rows) as Hwf.
  { repeat constructor; by eexists. }
  split; [exact HS|]. split; [exact Hwf|].
  exact (every_logged_item_is_synced Demo.plain Stage.logged (Demo.processor ∅)
           Stage.log_rows false (Stage.start false) Stage.images_run.1
           Stage.images_run.2 HS eq_refl eq_refl Hwf eq_refl).
Defined.
